(** * brigadier / foreman: the saga engine

    A shallow embedding of the parts of the repository that the
    specification's claims are about:

    - [AmqpOptions]  : pubsub/transport/plugins/amqp  (the options)
    - [AmqpTransport]: pubsub/transport/plugins/amqp  ([Connect], [CreateTopic],
                       [CreateQueue], [Send])
    - [MysqlStore]   : saga/mysqlstore.go             ([Create], [Update], [GetById],
                       [GetByFilter], [Delete])
    - [SagaHandler]  : saga/handlers                  ([SagaEventsHandler.Handle])
    - [Subscriber]   : pubsub/subscriber              ([processPackage], [Stop])
    - [Engine]       : the processor that runs the handler, an in-memory
                       store and mutex
    - [Demo]         : a small saga, its store and its envelopes

    Go maps are [gmap]s, Go slices are lists, a pointer to a struct that a
    function mutates is a value passed in and returned, and an [error]
    result is an [option Error] ([None] is Go's [nil]). A map that is
    written through a reference (the headers of the incoming envelope)
    lives in a heap and is held by its location. The properties follow
    the definitions. *)

From Stdlib Require Import ZArith Lia.
From stdpp Require Import base option list strings gmap fin_maps sorting.

Local Open Scope string_scope.

(** [log.Level] *)
Inductive Level := ErrorLevel | WarnLevel | InfoLevel | DebugLevel.

(* ===================================================================== *)
(** * AMQP transport options *)
(* ===================================================================== *)

Module AmqpOptions.

Inductive Error :=
| ErrNotConsumeOptions   (* "SuppliedOption must be amqp.ConsumeOptions" *)
| ErrNotSendOptions.     (* "SuppliedOption must be amqp.SendOptions" *)

Record ConsumeOptions := mkConsumeOptions {
  Exclusive : bool;
  NoLocal : bool;
  NoWait : bool;
  PrefetchCount : Z
}.

Record SendOptions := mkSendOptions {
  Mandatory : bool;
  Immediate : bool
}.

(** The [options interface{}] argument of an option function: a pointer
    to one of the two option records, or any other value. *)
Inductive Options :=
| ConsumeOptionsPtr (o : ConsumeOptions)
| SendOptionsPtr (o : SendOptions)
| OtherValue.

Definition convertConsumeOptsType (options : Options) : Error + ConsumeOptions :=
  match options with
  | ConsumeOptionsPtr opts => inr opts
  | _ => inl ErrNotConsumeOptions
  end.

Definition convertSendOptsType (options : Options) : Error + SendOptions :=
  match options with
  | SendOptionsPtr opts => inr opts
  | _ => inl ErrNotSendOptions
  end.

(** [transport.ConsumeOpts] and [transport.SendOpts]: functions that
    write through the pointer they are given and return an error. *)
Definition ConsumeOpts := Options -> option Error * Options.
Definition SendOpts := Options -> option Error * Options.

Definition WithQosPrefetchCount (limit : Z) : ConsumeOpts := fun options =>
  match convertConsumeOptsType options with
  | inl err => (Some err, options)
  | inr opts =>
      (None, ConsumeOptionsPtr
               (mkConsumeOptions (Exclusive opts) (NoLocal opts) (NoWait opts) limit))
  end.

Definition WithExclusive : ConsumeOpts := fun options =>
  match convertConsumeOptsType options with
  | inl err => (Some err, options)
  | inr opts =>
      (None, ConsumeOptionsPtr
               (mkConsumeOptions true (NoLocal opts) (NoWait opts) (PrefetchCount opts)))
  end.

Definition WithNoLocal : ConsumeOpts := fun options =>
  match convertConsumeOptsType options with
  | inl err => (Some err, options)
  | inr opts =>
      (None, ConsumeOptionsPtr
               (mkConsumeOptions (Exclusive opts) true (NoWait opts) (PrefetchCount opts)))
  end.

Definition WithNoWait : ConsumeOpts := fun options =>
  match convertConsumeOptsType options with
  | inl err => (Some err, options)
  | inr opts =>
      (None, ConsumeOptionsPtr
               (mkConsumeOptions (Exclusive opts) (NoLocal opts) true (PrefetchCount opts)))
  end.

Definition WithMandatory : SendOpts := fun options =>
  match convertSendOptsType options with
  | inl err => (Some err, options)
  | inr opts =>
      (* opts.Mandatory = true *)
      (None, SendOptionsPtr (mkSendOptions true (Immediate opts)))
  end.

Definition WithImmediate : SendOpts := fun options =>
  match convertSendOptsType options with
  | inl err => (Some err, options)
  | inr opts =>
      (* opts.Mandatory = true *)
      (None, SendOptionsPtr (mkSendOptions true (Immediate opts)))
  end.

(** [for _, opt := range options { if err := opt(sendOptions); err != nil
    { return errors.WithStack(err) } }] of [amqpTransport.Send]: the
    options are applied in order, the first failing one aborts the
    loop. *)
Fixpoint applySendOpts (options : list SendOpts) (sendOptions : Options)
  : Error + Options :=
  match options with
  | [] => inr sendOptions
  | opt :: rest =>
      match opt sendOptions with
      | (Some err, _) => inl err
      | (None, sendOptions') => applySendOpts rest sendOptions'
      end
  end.

End AmqpOptions.

(* ===================================================================== *)
(** * The AMQP transport: connecting and declaring *)
(* ===================================================================== *)

Module AmqpTransport.

Inductive Error :=
| ErrDial               (* amqp.Dial failed *)
| ErrChannel            (* conn.Channel failed *)
| ErrNotAmqpTopic       (* "Supplied topic is not an instance of amqp.Topic" *)
| ErrNotAmqpQueue       (* "Supplied Queue is not an instance of amqp.amqpQueue" *)
| ErrNotAmqpQueueBind   (* "One of supplied QueueBinds is not an instance of amqp.amqpQueueBind" *)
| ErrExchangeDeclare (name : string)
| ErrQueueDeclare (name : string)
| ErrQueueBind (name key : string)
| ErrOption (err : AmqpOptions.Error)  (* the error of a send option *)
| ErrPublish.                          (* the channel refused the publishing *)

(** [amqpTopic], [amqpQueue] and [amqpQueueBind], by the fields and the
    methods [CreateTopic] and [CreateQueue] read; a [transport.Topic],
    [transport.Queue] or [transport.QueueBind] is one of them or a value of
    another type. *)
Record amqpTopic := mkTopic {
  topic_Name : string;
  topic_durable : bool;
  topic_autoDelete : bool;
  topic_internal : bool;
  topic_noWait : bool
}.

Inductive Topic :=
| AmqpTopic (t : amqpTopic)
| OtherTopic (name : string).

Record amqpQueue := mkQueue {
  queue_Name : string;
  queue_durable : bool;
  queue_autoDelete : bool;
  queue_exclusive : bool;
  queue_noWait : bool
}.

Inductive Queue :=
| AmqpQueue (q : amqpQueue)
| OtherQueue (name : string).

Record amqpQueueBind := mkQueueBind {
  DestinationTopic : string;
  BindingKey : string;
  bind_noWait : bool
}.

Inductive QueueBind :=
| AmqpQueueBind (qb : amqpQueueBind)
| OtherQueueBind (destinationTopic bindingKey : string).

(** [pkg.OutboundPkg], by the methods [Send] reads. *)
Record OutboundPkg := mkOutboundPkg {
  pkg_DestinationTopic : string;
  pkg_RoutingKey : string;
  pkg_Headers : gmap string string;
  pkg_ContentType : string;
  pkg_Payload : string
}.

(** The calls to the AMQP client. A connection and a channel are named by
    the position, among all calls, of the call that opened them. *)
Inductive Call :=
| Dial (url : string)
| Channel (conn : nat)
| ExchangeDeclare (ch : nat) (name kind : string)
                  (durable autoDelete internal noWait : bool)
| QueueDeclare (ch : nat) (name : string) (durable autoDelete exclusive noWait : bool)
| QueueBindCall (ch : nat) (name key exchange : string) (noWait : bool)
| Publish (ch : nat) (exchange key : string) (mandatory immediate : bool)
          (headers : gmap string string) (contentType body : string).

(** What the client answers to a call, given the calls before it: [true]
    when the call succeeds. *)
Definition Broker := list Call -> Call -> bool.

Record amqpTransport := mkTransport {
  url : string;
  connection : option nat;
  sendingChan : option nat;
  receivingChan : option nat
}.

(** [NewTransport] *)
Definition NewTransport (url : string) : amqpTransport :=
  mkTransport url None None None.

Record State := mkState {
  transport : amqpTransport;
  calls : list Call
}.

(** A method returns an error or [nil], or it panics on the nil channel
    it calls. *)
Inductive Outcome :=
| Done (err : option Error)
| NilChannel.

Section Transport.

Variable broker : Broker.

Definition call (c : Call) (st : State) : bool * State :=
  (broker (calls st) c, mkState (transport st) (calls st ++ [c])).

(** [amqpTransport.Connect] *)
Definition Connect (st : State) : option Error * State :=
  let conn := length (calls st) in
  let '(ok, st) := call (Dial (url (transport st))) st in
  if negb ok then (Some ErrDial, st) else
  let sendingCh := length (calls st) in
  let '(ok, st) := call (Channel conn) st in
  if negb ok then (Some ErrChannel, st) else
  let t := transport st in
  let st := mkState (mkTransport (url t) (Some conn) (Some sendingCh) (receivingChan t))
                    (calls st) in
  let receivingChan := length (calls st) in
  let '(ok, st) := call (Channel conn) st in
  if negb ok then (Some ErrChannel, st) else
  let t := transport st in
  (None, mkState (mkTransport (url t) (connection t) (sendingChan t) (Some receivingChan))
                 (calls st)).

(** [if t.connection == nil { if err := t.Connect(ctx); err != nil {
    return errors.WithStack(err) } }] *)
Definition connected (rest : State -> Outcome * State) (st : State)
  : Outcome * State :=
  match connection (transport st) with
  | None =>
      match Connect st with
      | (Some err, st) => (Done (Some err), st)
      | (None, st) => rest st
      end
  | Some _ => rest st
  end.

(** A method call on [t.sendingChan]. *)
Definition on_sendingChan (rest : nat -> State -> Outcome * State) (st : State)
  : Outcome * State :=
  match sendingChan (transport st) with
  | None => (NilChannel, st)
  | Some ch => rest ch st
  end.

(** [amqpTransport.CreateTopic] *)
Definition CreateTopic (topic : Topic) : State -> Outcome * State :=
  connected (fun st =>
    match topic with
    | OtherTopic _ => (Done (Some ErrNotAmqpTopic), st)
    | AmqpTopic amqpTopic =>
        on_sendingChan (fun ch st =>
          let '(ok, st) :=
            call (ExchangeDeclare ch (topic_Name amqpTopic) "topic"
                    (topic_durable amqpTopic) (topic_autoDelete amqpTopic)
                    (topic_internal amqpTopic) (topic_noWait amqpTopic)) st in
          if negb ok then (Done (Some (ErrExchangeDeclare (topic_Name amqpTopic))), st)
          else (Done None, st)) st
    end).

(** [for _, item := range qbs { ... queueBinds = append(queueBinds,
    queueBind) }]: [None] when an item is not an [amqpQueueBind]. *)
Fixpoint convert_binds (qbs : list QueueBind) (queueBinds : list amqpQueueBind)
  : option (list amqpQueueBind) :=
  match qbs with
  | [] => Some queueBinds
  | AmqpQueueBind queueBind :: rest => convert_binds rest (queueBinds ++ [queueBind])%list
  | OtherQueueBind _ _ :: _ => None
  end.

Definition bind_call (ch : nat) (queue : amqpQueue) (qb : amqpQueueBind) : Call :=
  QueueBindCall ch (queue_Name queue) (BindingKey qb) (DestinationTopic qb)
                (bind_noWait qb).

(** [for _, qb := range queueBinds { err := t.sendingChan.QueueBind(...)
    ... }] *)
Fixpoint bind_all (ch : nat) (queue : amqpQueue) (queueBinds : list amqpQueueBind)
    (st : State) : Outcome * State :=
  match queueBinds with
  | [] => (Done None, st)
  | qb :: rest =>
      let '(ok, st) := call (bind_call ch queue qb) st in
      if negb ok then (Done (Some (ErrQueueBind (queue_Name queue) (BindingKey qb))), st)
      else bind_all ch queue rest st
  end.

Definition declare_call (ch : nat) (queue : amqpQueue) : Call :=
  QueueDeclare ch (queue_Name queue) (queue_durable queue) (queue_autoDelete queue)
               (queue_exclusive queue) (queue_noWait queue).

(** [amqpTransport.CreateQueue] *)
Definition CreateQueue (q : Queue) (qbs : list QueueBind) : State -> Outcome * State :=
  connected (fun st =>
    match q with
    | OtherQueue _ => (Done (Some ErrNotAmqpQueue), st)
    | AmqpQueue queue =>
        match convert_binds qbs [] with
        | None => (Done (Some ErrNotAmqpQueueBind), st)
        | Some queueBinds =>
            on_sendingChan (fun ch st =>
              let '(ok, st) := call (declare_call ch queue) st in
              if negb ok then (Done (Some (ErrQueueDeclare (queue_Name queue))), st)
              else bind_all ch queue queueBinds st) st
        end
    end).

Definition publish_call (ch : nat) (outboundPkg : OutboundPkg)
    (mandatory immediate : bool) : Call :=
  Publish ch (pkg_DestinationTopic outboundPkg) (pkg_RoutingKey outboundPkg)
          mandatory immediate
          (pkg_Headers outboundPkg) (pkg_ContentType outboundPkg)
          (pkg_Payload outboundPkg).

(** [err := t.sendingChan.Publish(...)] and what follows it. *)
Definition publish (outboundPkg : OutboundPkg) (mandatory immediate : bool)
  : State -> Outcome * State :=
  on_sendingChan (fun ch st =>
    let '(ok, st) := call (publish_call ch outboundPkg mandatory immediate) st in
    if negb ok then (Done (Some ErrPublish), st) else (Done None, st)).

(** [amqpTransport.Send]: the transport connects when it holds no
    connection, the options are applied in order to a zero [SendOptions],
    and the package is published with the two flags they leave. *)
Definition Send (outboundPkg : OutboundPkg) (options : list AmqpOptions.SendOpts)
  : State -> Outcome * State :=
  connected (fun st =>
    match AmqpOptions.applySendOpts options
            (AmqpOptions.SendOptionsPtr (AmqpOptions.mkSendOptions false false)) with
    | inl err => (Done (Some (ErrOption err)), st)
    | inr (AmqpOptions.SendOptionsPtr sendOptions) =>
        publish outboundPkg (AmqpOptions.Mandatory sendOptions)
                (AmqpOptions.Immediate sendOptions) st
    | inr _ =>
        (* not reachable from Go: an option cannot retype the pointer *)
        (Done (Some (ErrOption AmqpOptions.ErrNotSendOptions)), st)
    end).

(** The calls a client of the transport makes, one after the other. *)
Inductive Op :=
| OpConnect
| OpCreateTopic (topic : Topic)
| OpCreateQueue (q : Queue) (qbs : list QueueBind)
| OpSend (outboundPkg : OutboundPkg) (options : list AmqpOptions.SendOpts).

Definition step (op : Op) (st : State) : Outcome * State :=
  match op with
  | OpConnect => let '(err, st) := Connect st in (Done err, st)
  | OpCreateTopic topic => CreateTopic topic st
  | OpCreateQueue q qbs => CreateQueue q qbs st
  | OpSend outboundPkg options => Send outboundPkg options st
  end.

Fixpoint run (ops : list Op) (st : State) : list Outcome * State :=
  match ops with
  | [] => ([], st)
  | op :: rest =>
      let '(o, st) := step op st in
      let '(os, st) := run rest st in
      (o :: os, st)
  end.

End Transport.

(** The transport holds a sending channel whenever it holds a
    connection. *)
Definition wired (t : amqpTransport) : Prop :=
  connection t = None \/ is_Some (sendingChan t).

(** The publishings among the calls. *)
Definition is_publish (c : Call) : bool :=
  match c with
  | Publish _ _ _ _ _ _ _ _ => true
  | _ => false
  end.

(** The argument of a declaration that is not of the transport's own
    types, and the error it is refused with. *)
Inductive foreign : Op -> Error -> Prop :=
| foreign_topic name : foreign (OpCreateTopic (OtherTopic name)) ErrNotAmqpTopic
| foreign_queue name qbs : foreign (OpCreateQueue (OtherQueue name) qbs) ErrNotAmqpQueue
| foreign_bind queue qbs topic key :
    OtherQueueBind topic key ∈ qbs ->
    foreign (OpCreateQueue (AmqpQueue queue) qbs) ErrNotAmqpQueueBind.

(** A broker that accepts every call but a [Channel] that follows a
    [Channel], and one that accepts every call but a bind with the key
    [audit]. *)
Definition no_second_channel : Broker := fun earlier c =>
  match c, last earlier with
  | Channel _, Some (Channel _) => false
  | _, _ => true
  end.

Definition no_audit_bind : Broker := fun _ c =>
  match c with
  | QueueBindCall _ _ key _ _ => bool_decide (key ≠ "audit")
  | _ => true
  end.

Definition events_topic : amqpTopic := mkTopic "events" true false false false.
Definition orders_queue : amqpQueue := mkQueue "orders" true false false false.

Definition fresh_state : State := mkState (NewTransport "amqp://broker") [].

Definition online_state : State :=
  mkState (mkTransport "amqp://broker" (Some 0) (Some 1) (Some 2))
          [Dial "amqp://broker"; Channel 0; Channel 0].

(** A package for the topic [events], and a broker that answers no
    dial. *)
Definition order_placed : OutboundPkg :=
  mkOutboundPkg "events" "orders.placed" ∅ "application/json" "{}".

Definition unreachable : Broker := fun _ c =>
  match c with
  | Dial _ => false
  | _ => true
  end.

End AmqpTransport.

(* ===================================================================== *)
(** * The MySQL saga store *)
(* ===================================================================== *)

Module MysqlStore.

Inductive Error :=
| ErrMarshal               (* json.Marshal refused the value *)
| ErrBegin                 (* db.Begin failed *)
| ErrExec                  (* a statement failed on the connection *)
| ErrQuery                 (* the SELECT failed *)
| ErrScan                  (* rows.Scan failed *)
| ErrDuplicateKey (id : string)    (* primary key of saga_history *)
| ErrForeignKey (sagaId : string)  (* saga_history.saga_id -> saga.id *)
| ErrCommit                (* tx.Commit failed *)
| ErrRollback (cause : Error)      (* "error rollback when <cause>" *)
| ErrNoFilters             (* "No filters found, ..." *)
| ErrAllFiltersEmpty.      (* "All specified filters are empty, ..." *)

(** A value handed to [json.Marshal]: its registered type name
    ([scheme.WithStruct(v)()]) and its JSON text, [None] when the value
    cannot be marshalled. *)
Record Object := mkObject {
  obj_name : string;
  obj_json : option string
}.

Definition Marshal (o : Object) : Error + string :=
  match obj_json o with
  | Some bytes => inr bytes
  | None => inl ErrMarshal
  end.

(** [HistoryEvent] with the fields of its embedded [message.Metadata]
    that the store writes. *)
Record HistoryEvent := mkHistoryEvent {
  ID : string;
  Name : string;
  Type_ : string;   (* Type *)
  SagaStatus : string;
  Payload : Object;
  Description : string;
  OriginSource : string;
  CreatedAt : Z
}.

(** What the store reads of a saga [Instance]; [status] is
    [Status().String()]. *)
Record Instance := mkInstance {
  id : string;
  parentID : string;
  saga : Object;
  status : string;
  startedAt : option Z;
  updatedAt : option Z;
  historyEvents : list HistoryEvent
}.

(** ** The two tables *)

(** A row of [saga] without its primary key [id], which is the key of
    the table's map. *)
Record sagaRow := mkSagaRow {
  s_parent_id : string;
  s_name : string;
  s_payload : string;
  s_status : string;
  s_started_at : option Z;
  s_updated_at : option Z
}.

Record historyRow := mkHistoryRow {
  h_id : string;
  h_saga_id : string;
  h_name : string;
  h_type : string;
  h_status : string;
  h_payload : string;
  h_description : string;
  h_origin_source : string;
  h_created_at : Z
}.

(** [saga_history] is kept in the order a cursor over it yields rows. *)
Record DB := mkDB {
  saga_table : gmap string sagaRow;
  saga_history_table : list historyRow
}.

(** What the connection does to a call, apart from the constraints of
    the schema: which statements fail, and where a cursor breaks. *)
Record Faults := mkFaults {
  begin_fails : bool;
  update_fails : bool;
  query_fails : bool;
  scan_fails_at : option nat;    (* rows.Scan returns an error at this row *)
  rows_stop_at : option nat;     (* rows.Next returns false at this row *)
  insert_fails : string -> bool; (* the INSERT of this event id fails *)
  commit_fails : bool;
  rollback_fails : bool
}.

Definition no_faults : Faults :=
  mkFaults false false false None None (fun _ => false) false false.

(** ** Statements *)

(** UPDATE saga SET parent_id=?, name=?, payload=?, status=?,
    started_at=?, updated_at=? WHERE id=?; no row with that id is not
    an error. *)
Definition exec_update_saga (sagaInstance : Instance) (sagaName payload : string)
    (tx : DB) : DB :=
  mkDB (alter (fun _ => mkSagaRow (parentID sagaInstance) sagaName payload
                          (status sagaInstance) (startedAt sagaInstance)
                          (updatedAt sagaInstance))
              (id sagaInstance) (saga_table tx))
       (saga_history_table tx).

(** SELECT id FROM saga_history WHERE saga_id=?; *)
Definition select_history_ids (sagaId : string) (tx : DB) : list string :=
  h_id <$> filter (fun r => h_saga_id r = sagaId) (saga_history_table tx).

Definition history_row (sagaId : string) (m : HistoryEvent) (payload : string)
  : historyRow :=
  mkHistoryRow (ID m) sagaId (Name m) (Type_ m) (SagaStatus m) payload
               (Description m) (OriginSource m) (CreatedAt m).

(** INSERT INTO saga_history VALUES (...); the table's primary key and
    its foreign key to [saga] are checked. *)
Definition exec_insert_history (f : Faults) (r : historyRow) (tx : DB)
  : Error + DB :=
  if insert_fails f (h_id r) then inl ErrExec
  else if bool_decide (h_id r ∈ h_id <$> saga_history_table tx)
       then inl (ErrDuplicateKey (h_id r))
  else match saga_table tx !! h_saga_id r with
       | None => inl (ErrForeignKey (h_saga_id r))
       | Some _ => inr (mkDB (saga_table tx) (saga_history_table tx ++ [r])%list)
       end.

(** ** Update *)

(** [for rows.Next() { rows.Scan(&id); ids[id] = id }]. The loop ends
    when the cursor is exhausted or when [rows.Next] reports false after
    an error of the cursor; [rows.Err] is not consulted after it. *)
Fixpoint scan_ids (f : Faults) (i : nat) (rows : list string)
    (ids : gmap string string) : Error + gmap string string :=
  match rows with
  | [] => inr ids
  | row :: rest =>
      if bool_decide (rows_stop_at f = Some i) then inr ids
      else if bool_decide (scan_fails_at f = Some i) then inl ErrScan
      else scan_ids f (S i) rest (<[row := row]> ids)
  end.

(** [for _, m := range sagaInstance.HistoryEvents() { ... }] *)
Fixpoint insert_events (f : Faults) (sagaId : string) (ids : gmap string string)
    (events : list HistoryEvent) (tx : DB) : Error + DB :=
  match events with
  | [] => inr tx
  | m :: rest =>
      match ids !! ID m with
      | Some _ => insert_events f sagaId ids rest tx
      | None =>
          match Marshal (Payload m) with
          | inl err => inl err
          | inr payload =>
              match exec_insert_history f (history_row sagaId m payload) tx with
              | inl err => inl err
              | inr tx' => insert_events f sagaId ids rest tx'
              end
          end
      end
  end.

(** The statements between [db.Begin] and [tx.Commit], on the
    transaction's view of the database. *)
Definition update_body (f : Faults) (sagaInstance : Instance)
    (sagaName payload : string) (tx : DB) : Error + DB :=
  if update_fails f then inl ErrExec else
  let tx := exec_update_saga sagaInstance sagaName payload tx in
  if query_fails f then inl ErrQuery else
  match scan_ids f 0 (select_history_ids (id sagaInstance) tx) ∅ with
  | inl err => inl err
  | inr ids =>
      if bool_decide (size ids < length (historyEvents sagaInstance))
      then insert_events f (id sagaInstance) ids (historyEvents sagaInstance) tx
      else inr tx
  end.

(** [if rErr := tx.Rollback(); rErr != nil { return Wrapf(rErr, ...) };
    return WithStack(err)]: the error reported after an error inside the
    transaction. Whether or not [Rollback] itself reports an error, the
    transaction is never committed. *)
Definition rolled_back (f : Faults) (err : Error) : Error :=
  if rollback_fails f then ErrRollback err else err.

(** [mysqlStore.Update]: the error returned and the database after the
    call. A transaction that is not committed leaves the database as it
    was at [db.Begin]. *)
Definition Update (f : Faults) (db : DB) (sagaInstance : Instance)
  : option Error * DB :=
  match Marshal (saga sagaInstance) with
  | inl err => (Some err, db)
  | inr payload =>
      let sagaName := obj_name (saga sagaInstance) in
      if begin_fails f then (Some ErrBegin, db) else
      match update_body f sagaInstance sagaName payload db with
      | inl err => (Some (rolled_back f err), db)
      | inr tx =>
          if commit_fails f then (Some ErrCommit, db) else (None, tx)
      end
  end.

(** ** GetByFilter *)

Record filterOptions := mkFilterOptions {
  opt_sagaId : string;
  opt_status : string;
  opt_sagaType : string
}.

(** Modelled from the spec: the [FilterOption] constructors, which are
    not among the sources; "Recognized filters: {SagaUID, Status,
    SagaType}". A filter carries one value and, applied to the options,
    writes it to its field. *)
Inductive FilterOption :=
| FilterSagaUID (value : string)
| FilterStatus (value : string)
| FilterSagaType (value : string).

Definition filter_value (filter : FilterOption) : string :=
  match filter with
  | FilterSagaUID v | FilterStatus v | FilterSagaType v => v
  end.

Definition apply_filter (filter : FilterOption) (opts : filterOptions)
  : filterOptions :=
  match filter with
  | FilterSagaUID v => mkFilterOptions v (opt_status opts) (opt_sagaType opts)
  | FilterStatus v => mkFilterOptions (opt_sagaId opts) v (opt_sagaType opts)
  | FilterSagaType v => mkFilterOptions (opt_sagaId opts) (opt_status opts) v
  end.

(** Modelled from the spec: the table names [sagaTableName] and
    [sagaHistoryTableName], constants that are not among the sources;
    the persisted schema names the tables [saga] and [saga_history]. *)
Definition sagaTableName : string := "saga".
Definition sagaHistoryTableName : string := "saga_history".

Definition select_join : string :=
  "SELECT s.id, s.parent_id, s.name, s.payload, s.status, s.started_at, s.updated_at, sh.id, sh.name, sh.type, sh.status, sh.payload, description, sh.origin_source, sh.created_at FROM "
  +:+ sagaTableName +:+ " s LEFT JOIN " +:+ sagaHistoryTableName
  +:+ " sh ON s.id = sh.saga_id WHERE".

(** [if opts.x != "" { conditions = append(...); args = append(...) }] *)
Definition add_condition (value condition : string)
    (acc : list string * list string) : list string * list string :=
  if bool_decide (value = "") then acc
  else ((acc.1 ++ [condition])%list, (acc.2 ++ [value])%list).

Definition conditions_of (opts : filterOptions) : list string * list string :=
  add_condition (opt_sagaType opts) " s.name = ?"
    (add_condition (opt_status opts) " s.status = ?"
       (add_condition (opt_sagaId opts) " s.id = ?" ([], []))).

(** [for i, condition := range conditions { ... }], [n] being
    [len(conditions)]. *)
Fixpoint append_conditions (query : string) (i n : nat)
    (conditions : list string) : string :=
  match conditions with
  | [] => query
  | condition :: rest =>
      let query := query +:+ condition in
      let query := if bool_decide (i < n - 1) then query +:+ " AND" else query in
      let query := if bool_decide (i = n - 1) then query +:+ ";" else query in
      append_conditions query (S i) n rest
  end.

Record Query := mkQuery {
  q_text : string;
  q_args : list string
}.

(** [mysqlStore.GetByFilter] up to and including [db.QueryContext]: the
    result, and the queries sent to the database. [rows_of] stands for
    the query's execution and the decoding of its rows into instances
    (the rest of the function), which needs the type registry. *)
Definition GetByFilter {Inst : Type} (rows_of : Query -> Error + list Inst)
    (filters : list FilterOption) : (Error + list Inst) * list Query :=
  if bool_decide (length filters = 0) then (inl ErrNoFilters, []) else
  let opts := foldl (fun opts filter => apply_filter filter opts)
                    (mkFilterOptions "" "" "") filters in
  let '(conditions, args) := conditions_of opts in
  if bool_decide (length conditions = 0) then (inl ErrAllFiltersEmpty, []) else
  let query := mkQuery (append_conditions select_join 0 (length conditions) conditions)
                       args in
  (rows_of query, [query]).

(** ** What [Update] is to insert, and a stale instance *)

(** The event [m] of a saga went into the history table as the row [r]. *)
Definition inserted_as (sagaId : string) (m : HistoryEvent) (r : historyRow) : Prop :=
  exists payload, Marshal (Payload m) = inr payload /\ r = history_row sagaId m payload.

(** The events [Update] inserts, given the ids it read back: none unless
    fewer ids were read than the instance holds events. *)
Definition events_to_insert (ids : gmap string string) (events : list HistoryEvent)
  : list HistoryEvent :=
  if bool_decide (size ids < length events)
  then filter (fun m => ids !! ID m = None) events
  else [].

(** A stale instance: the store holds the events a, b and c of saga s1;
    the instance was loaded when only a was there, and d was added to it
    in memory. *)
Definition stale_db : DB :=
  mkDB {[ "s1" := mkSagaRow "" "Foo" "{}" "in_progress" None None ]}
       [ mkHistoryRow "a" "s1" "FooEvent" "event" "in_progress" "{}" "" "q" 1;
         mkHistoryRow "b" "s1" "FooEvent" "event" "in_progress" "{}" "" "q" 2;
         mkHistoryRow "c" "s1" "FooEvent" "event" "in_progress" "{}" "" "q" 3 ].

Definition stale_event (uid : string) (at_ : Z) : HistoryEvent :=
  mkHistoryEvent uid "FooEvent" "event" "in_progress"
                 (mkObject "FooEvent" (Some "{}")) "" "q" at_.

Definition stale_instance : Instance :=
  mkInstance "s1" "" (mkObject "Foo" (Some "{}")) "in_progress" None None
             [stale_event "a" 1; stale_event "d" 4].

(** An instance that the store does not know, with two events. *)
Definition fresh_instance : Instance :=
  mkInstance "s2" "" (mkObject "Foo" (Some "{}")) "created" None None
             [stale_event "x" 5; stale_event "y" 6].

(** ** Reading back: GetById and queryEvents *)

Inductive LoadError :=
| ErrQueryRow                              (* the row query failed *)
| ErrParsingStatus (sagaId : string)       (* "parsing status of %s" *)
| ErrLoadingType (name owner : string)     (* "loading type %s for ..." *)
| ErrDeserializing (name : string)         (* "error deserializing payload into ..." *)
| ErrNotASaga                              (* "Error converting %s into type Saga interface" *)
| ErrParsingMessageType (type : string)    (* "parsing message type %s" *)
| ErrQueryEvents                           (* the query of the events failed *)
| ErrScanEvent.                            (* rows.Scan failed *)

(** What the connection does to the reading calls. *)
Record ReadFaults := mkReadFaults {
  row_query_fails : bool;            (* QueryRowContext(...).Scan: an error other than ErrNoRows *)
  events_query_fails : bool;         (* db.Query *)
  events_scan_fails_at : option nat; (* rows.Scan returns an error at this row *)
  events_rows_stop_at : option nat   (* rows.Next returns false at this row, rows.Err is set *)
}.

Definition no_read_faults : ReadFaults := mkReadFaults false false None None.

Section Loading.

(** [V]: the values the type registry makes and [json.Unmarshal] fills;
    [St]: the status of a saga; [MT]: [message.Type]. *)
Context {V St MT : Type}.

(** The type registry, [json.Unmarshal], [StatusFromStr] and
    [message.ParseMessageType] are not among the sources; the store is
    given them. [LoadType name]: the registry knows the type;
    [Unmarshal name payload]: [json.Unmarshal] of the payload into the
    fresh value of that type; [is_Saga]: the type assertion
    [saga.(Saga)]. *)
Record Codec := mkCodec {
  StatusFromStr : string -> option St;
  LoadType : string -> bool;
  Unmarshal : string -> string -> option V;
  is_Saga : V -> bool;
  ParseMessageType : string -> option MT
}.

(** [HistoryEvent] as [eventFromModel] builds it. *)
Record LoadedEvent := mkLoadedEvent {
  le_Payload : V;
  le_ID : string;
  le_Name : string;
  le_Type : MT;
  le_CreatedAt : Z;
  le_OriginSource : string;
  le_SagaStatus : string;
  le_Description : string
}.

(** [sagaInstance] as [instanceFromModel] builds it. *)
Record LoadedInstance := mkLoadedInstance {
  li_id : string;
  li_status : St;
  li_parentID : string;
  li_historyEvents : list LoadedEvent;
  li_startedAt : option Z;
  li_updatedAt : option Z;
  li_saga : V
}.

Variable codec : Codec.

(** [mysqlStore.eventFromModel] *)
Definition eventFromModel (ev : historyRow) : LoadError + LoadedEvent :=
  if negb (LoadType codec (h_name ev)) then inl (ErrLoadingType (h_name ev) (h_id ev))
  else match Unmarshal codec (h_name ev) (h_payload ev) with
  | None => inl (ErrDeserializing (h_name ev))
  | Some eventPayload =>
      match ParseMessageType codec (h_type ev) with
      | None => inl (ErrParsingMessageType (h_type ev))
      | Some messageType =>
          inr (mkLoadedEvent eventPayload (h_id ev) (h_name ev) messageType
                             (h_created_at ev) (h_origin_source ev) (h_status ev)
                             (h_description ev))
      end
  end.

(** [mysqlStore.instanceFromModel], on the row of the saga [sagaId]. *)
Definition instanceFromModel (sagaId : string) (sagaData : sagaRow)
  : LoadError + LoadedInstance :=
  match StatusFromStr codec (s_status sagaData) with
  | None => inl (ErrParsingStatus sagaId)
  | Some status =>
      if negb (LoadType codec (s_name sagaData))
      then inl (ErrLoadingType (s_name sagaData) sagaId)
      else match Unmarshal codec (s_name sagaData) (s_payload sagaData) with
      | None => inl (ErrDeserializing (s_name sagaData))
      | Some saga =>
          if negb (is_Saga codec saga) then inl ErrNotASaga
          else inr (mkLoadedInstance sagaId status (s_parent_id sagaData) []
                                     (s_started_at sagaData) (s_updated_at sagaData) saga)
      end
  end.

(** ORDER BY created_at; rows of the same time stay in the order of the
    table. *)
Definition created_before (r1 r2 : historyRow) : Prop :=
  (h_created_at r1 <= h_created_at r2)%Z.

#[export] Instance created_before_dec (r1 r2 : historyRow)
  : Decision (created_before r1 r2) := Z_le_dec _ _.

(** SELECT id, name, type, status, payload, description, origin_source,
    created_at FROM saga_history WHERE saga_id=? ORDER BY created_at; *)
Definition select_events (sagaId : string) (db : DB) : list historyRow :=
  merge_sort created_before
             (filter (fun r => h_saga_id r = sagaId) (saga_history_table db)).

(** [for rows.Next() { ... messages = append(messages, *hEv) }]: an
    error, or the messages and whether the cursor broke. *)
Fixpoint scan_events (f : ReadFaults) (i : nat) (rows : list historyRow)
    (messages : list LoadedEvent) : LoadError + (bool * list LoadedEvent) :=
  match rows with
  | [] => inr (false, messages)
  | ev :: rest =>
      if bool_decide (events_rows_stop_at f = Some i) then inr (true, messages)
      else if bool_decide (events_scan_fails_at f = Some i) then inl ErrScanEvent
      else match eventFromModel ev with
           | inl err => inl err
           | inr hEv => scan_events f (Datatypes.S i) rest (messages ++ [hEv])%list
           end
  end.

(** [mysqlStore.queryEvents]. After a cursor that broke, the function
    returns [nil, errors.WithStack(err)] with the [err] of [db.Query],
    which is [nil] there: no messages and no error. *)
Definition queryEvents (f : ReadFaults) (db : DB) (sagaId : string)
  : LoadError + list LoadedEvent :=
  if events_query_fails f then inl ErrQueryEvents else
  match scan_events f 0 (select_events sagaId db) [] with
  | inl err => inl err
  | inr (true, _) => inr []
  | inr (false, messages) => inr messages
  end.

(** [mysqlStore.GetById]: [inr None] is [nil, nil]. *)
Definition GetById (f : ReadFaults) (db : DB) (sagaId : string)
  : LoadError + option LoadedInstance :=
  if row_query_fails f then inl ErrQueryRow else
  match saga_table db !! sagaId with
  | None => inr None
  | Some sagaData =>
      match instanceFromModel sagaId sagaData with
      | inl err => inl err
      | inr sagaInstance =>
          match queryEvents f db sagaId with
          | inl err => inl err
          | inr messages =>
              inr (Some (mkLoadedInstance (li_id sagaInstance) (li_status sagaInstance)
                           (li_parentID sagaInstance) messages
                           (li_startedAt sagaInstance) (li_updatedAt sagaInstance)
                           (li_saga sagaInstance)))
          end
      end
  end.

(** [sagaInstance.historyEvents = append(sagaInstance.historyEvents,
    *historyEvent)] *)
Definition append_event (sagaInstance : LoadedInstance) (historyEvent : LoadedEvent)
  : LoadedInstance :=
  mkLoadedInstance (li_id sagaInstance) (li_status sagaInstance)
                   (li_parentID sagaInstance)
                   (li_historyEvents sagaInstance ++ [historyEvent])%list
                   (li_startedAt sagaInstance) (li_updatedAt sagaInstance)
                   (li_saga sagaInstance).

(** A row of the join of [GetByFilter]: the id of the saga, the columns
    of its row, and the columns of one of its history rows; for a saga
    without history these are NULL and scan into empty strings. *)
Definition joinedRow : Type := string * sagaRow * historyRow.

(** [for rows.Next() { ... }] of [GetByFilter]: [sagas] maps the id of a
    saga to its instance, which is shared with the map when an event is
    appended. The result is an error, or the map and whether the cursor
    broke. Of [f], the faults of the cursor apply. *)
Fixpoint scan_sagas (f : ReadFaults) (i : nat) (rows : list joinedRow)
    (sagas : gmap string LoadedInstance)
  : LoadError + (bool * gmap string LoadedInstance) :=
  match rows with
  | [] => inr (false, sagas)
  | (sagaId, sagaData, ev) :: rest =>
      if bool_decide (events_rows_stop_at f = Some i) then inr (true, sagas)
      else if bool_decide (events_scan_fails_at f = Some i) then inl ErrScanEvent
      else
        let found :=
          match sagas !! sagaId with
          | Some sagaInstance => inr (sagaInstance, sagas)
          | None =>
              match instanceFromModel sagaId sagaData with
              | inl err => inl err
              | inr instance => inr (instance, <[sagaId := instance]> sagas)
              end
          end in
        match found with
        | inl err => inl err
        | inr (sagaInstance, sagas) =>
            if bool_decide (h_id ev ≠ "") then
              match eventFromModel ev with
              | inl err => inl err
              | inr historyEvent =>
                  scan_sagas f (Datatypes.S i) rest
                    (<[sagaId := append_event sagaInstance historyEvent]> sagas)
              end
            else scan_sagas f (Datatypes.S i) rest sagas
        end
  end.

(** The registry decodes a row of the join: its saga, and its event when
    it has one. *)
Definition row_decodes (r : joinedRow) : Prop :=
  (exists instance, instanceFromModel r.1.1 r.1.2 = inr instance)
  /\ (h_id r.2 <> "" -> exists historyEvent, eventFromModel r.2 = inr historyEvent).

(** [mysqlStore.GetByFilter] from the rows of its query on: the
    instances by their id; the slice the function returns holds them in
    the order in which Go ranges over the map, which is not fixed. After a
    cursor that broke the function returns [nil, errors.WithStack(err)]
    with the [err] of [db.QueryContext], which is [nil] there. *)
Definition instances_of_rows (f : ReadFaults) (rows : list joinedRow)
  : LoadError + gmap string LoadedInstance :=
  match scan_sagas f 0 rows ∅ with
  | inl err => inl err
  | inr (true, _) => inr ∅
  | inr (false, sagas) => inr sagas
  end.

End Loading.

Arguments Codec : clear implicits.
Arguments LoadedEvent : clear implicits.
Arguments LoadedInstance : clear implicits.

(** A registry that knows the saga Foo and the event FooEvent; values,
    statuses and message types are kept as their text. *)
Definition text_codec : Codec string string string :=
  mkCodec (fun status => if bool_decide (status = "") then None else Some status)
          (fun name => bool_decide (name ∈ ["Foo"; "FooEvent"]))
          (fun _ payload => Some payload)
          (fun _ => true)
          (fun type => if bool_decide (type = "") then None else Some type).

Definition text_event (r : historyRow) : LoadedEvent string string :=
  mkLoadedEvent (h_payload r) (h_id r) (h_name r) (h_type r) (h_created_at r)
                (h_origin_source r) (h_status r) (h_description r).

(** The rows of a filter query: two rows of the saga s1, which has the
    events a and b, around the row of its child s2, which has no history. *)
Definition no_event : historyRow := mkHistoryRow "" "" "" "" "" "" "" "" 0.

Definition filter_rows : list joinedRow :=
  [ ("s1", mkSagaRow "" "Foo" "{}" "in_progress" None None,
     mkHistoryRow "a" "s1" "FooEvent" "event" "in_progress" "{}" "" "q" 1);
    ("s2", mkSagaRow "s1" "Foo" "{}" "created" None None, no_event);
    ("s1", mkSagaRow "" "Foo" "{}" "in_progress" None None,
     mkHistoryRow "b" "s1" "FooEvent" "event" "in_progress" "{}" "" "q" 2) ].

(** ** The text of a filter query *)

(** The conditions of a query, one after the other with AND between
    them. *)
Fixpoint join_and (conditions : list string) : string :=
  match conditions with
  | [] => ""
  | [condition] => condition
  | condition :: rest => condition +:+ " AND" +:+ join_and rest
  end.

(** The options a list of filters leaves, applied in order to the zero
    options. *)
Definition options_of (filters : list FilterOption) : filterOptions :=
  foldl (fun opts filter => apply_filter filter opts) (mkFilterOptions "" "" "") filters.

(** The values of the options that are not empty, each with its
    condition, in the order [GetByFilter] looks at them. *)
Definition set_conditions (opts : filterOptions) : list (string * string) :=
  filter (fun p => p.1 ≠ "")
         [(opt_sagaId opts, " s.id = ?");
          (opt_status opts, " s.status = ?");
          (opt_sagaType opts, " s.name = ?")].

(** ** Create and Delete *)

(** INSERT INTO saga VALUES (?, ?, ?, ?, ?, ?, ?); the primary key of the
    table is checked. [exec_fails]: the statement fails on the
    connection. *)
Definition exec_insert_saga (exec_fails : bool) (sagaInstance : Instance)
    (sagaName payload : string) (tx : DB) : Error + DB :=
  if exec_fails then inl ErrExec
  else match saga_table tx !! id sagaInstance with
       | Some _ => inl (ErrDuplicateKey (id sagaInstance))
       | None =>
           inr (mkDB (<[id sagaInstance :=
                          mkSagaRow (parentID sagaInstance) sagaName payload
                                    (status sagaInstance) (startedAt sagaInstance)
                                    (updatedAt sagaInstance)]> (saga_table tx))
                     (saga_history_table tx))
       end.

(** [mysqlStore.Create]. History events are not persisted at this step.
    Of [f], the faults of [db.Begin], [tx.Commit] and [tx.Rollback]
    apply. *)
Definition Create (f : Faults) (exec_fails : bool) (db : DB) (sagaInstance : Instance)
  : option Error * DB :=
  match Marshal (saga sagaInstance) with
  | inl err => (Some err, db)
  | inr payload =>
      let sagaName := obj_name (saga sagaInstance) in
      if begin_fails f then (Some ErrBegin, db) else
      match exec_insert_saga exec_fails sagaInstance sagaName payload db with
      | inl err => (Some (rolled_back f err), db)
      | inr tx =>
          if commit_fails f then (Some ErrCommit, db) else (None, tx)
      end
  end.

Inductive DeleteError :=
| ErrDeleteQuery (sagaId : string)     (* "executing delete query for saga %s" *)
| ErrDeleteResponse (sagaId : string)  (* "getting response of delete query for saga %s" *)
| ErrNoSagaInstance (sagaId : string). (* "no saga instance %s found" *)

(** DELETE FROM saga WHERE id=?; the number of rows affected and the
    tables after it. The foreign key of [saga_history] is declared [on
    delete cascade] ([initMysqlTables]): the history rows of a deleted
    saga go with it. *)
Definition exec_delete_saga (sagaId : string) (db : DB) : nat * DB :=
  match saga_table db !! sagaId with
  | None => (0, db)
  | Some _ =>
      (1, mkDB (delete sagaId (saga_table db))
               (filter (fun r => h_saga_id r ≠ sagaId) (saga_history_table db)))
  end.

(** [mysqlStore.Delete]: the statement runs on the connection itself, not
    in a transaction. [exec_fails]: [ExecContext] returns an error and
    nothing is deleted; [response_fails]: [res.RowsAffected] returns an
    error, after the statement has run. *)
Definition Delete (exec_fails response_fails : bool) (db : DB) (sagaId : string)
  : option DeleteError * DB :=
  if exec_fails then (Some (ErrDeleteQuery sagaId), db) else
  let '(rows, db') := exec_delete_saga sagaId db in
  if response_fails then (Some (ErrDeleteResponse sagaId), db') else
  if bool_decide (0 < rows) then (None, db')
  else (Some (ErrNoSagaInstance sagaId), db').

(** ** The constraints of the schema *)

(** The keys [initMysqlTables] declares: [saga_history.id] is a primary
    key, and [saga_history.saga_id] references a row of [saga]. ([saga.id]
    is the key of the map itself.) *)
Definition history_ids_unique (db : DB) : Prop :=
  NoDup (h_id <$> saga_history_table db).

Definition history_refers_to_sagas (db : DB) : Prop :=
  Forall (fun r => is_Some (saga_table db !! h_saga_id r)) (saga_history_table db).

Definition constraints_hold (db : DB) : Prop :=
  history_ids_unique db /\ history_refers_to_sagas db.

(** The row [Update] writes for an event whose payload marshals. *)
Definition event_row (sagaId : string) (m : HistoryEvent) : historyRow :=
  history_row sagaId m (default "" (obj_json (Payload m))).

Definition saga_row_of (sagaInstance : Instance) (payload : string) : sagaRow :=
  mkSagaRow (parentID sagaInstance) (obj_name (saga sagaInstance)) payload
            (status sagaInstance) (startedAt sagaInstance) (updatedAt sagaInstance).

End MysqlStore.

(* ===================================================================== *)
(** * The saga events handler *)
(* ===================================================================== *)

Module SagaHandler.

(** [scheme.GroupKind] *)
Abbreviation GroupKind := (string * string)%type.

Definition systemGroup : string := "systemSaga".

(** [message.Object]: the system contracts of saga/contracts, and any
    other registered payload, given by its group and kind and its
    fields. *)
Inductive Object :=
| StartSagaCommand (SagaUID ParentUID : string) (Saga : Object)
| RecoverSagaCommand (SagaUID : string)
| CompensateSagaCommand (SagaUID : string)
| SagaCompletedEvent (SagaUID : string)
| SagaChildCompletedEvent (SagaUID : string)
| UserObject (gk : GroupKind) (fields : string).

Definition GroupKindOf (o : Object) : GroupKind :=
  match o with
  | StartSagaCommand _ _ _ => (systemGroup, "StartSagaCommand")
  | RecoverSagaCommand _ => (systemGroup, "RecoverSagaCommand")
  | CompensateSagaCommand _ => (systemGroup, "CompensateSagaCommand")
  | SagaCompletedEvent _ => (systemGroup, "SagaCompletedEvent")
  | SagaChildCompletedEvent _ => (systemGroup, "SagaChildCompletedEvent")
  | UserObject gk _ => gk
  end.

(** [message.Headers] is a Go map: whoever holds a reference to it writes
    to the same map. The header maps of the received messages live in a
    heap, a received message carries the location of its map. *)
Abbreviation Headers := (gmap string string).
Abbreviation loc := nat.

Record ReceivedMessage := mkReceivedMessage {
  msg_UID : string;
  msg_Origin : string;
  msg_Headers : loc;
  msg_Payload : Object
}.

Record OutcomingMessage := mkOutcomingMessage {
  out_Payload : Object;
  out_Headers : Headers
}.

(** Modelled from the spec: [message.NewOutcomingMessage] with
    [message.WithHeaders], which are not among the sources. "Headers are
    owned by the envelope they belong to; propagation to outgoing messages
    is by explicit copy": the message holds a copy of the map it is given,
    that is, what that map holds when the message is made. *)
Definition NewOutcomingMessage (payload : Object) (headers : Headers)
  : OutcomingMessage :=
  mkOutcomingMessage payload headers.

(** [endpoint.DeliveryOption] *)
Inductive DeliveryOption :=
| WithDelay (delay : Z).

Record Delivery := mkDelivery {
  Payload : Object;
  Options : list DeliveryOption
}.

(** Modelled from the spec: the statuses of an instance and
    [Status().Completed()]; saga/status is not among the sources. *)
Inductive Status :=
| sagaStatusCreated
| sagaStatusInProgress
| sagaStatusCompensating
| sagaStatusCompleted
| sagaStatusFailed
| sagaStatusRecovering.

Definition Completed (s : Status) : bool :=
  match s with
  | sagaStatusCompleted => true
  | _ => false
  end.

Record HistoryEvent := mkHistoryEvent {
  he_Payload : Object;
  he_SagaStatus : Status;
  he_OriginSource : string;
  he_TraceUID : string
}.

Record Instance := mkInstance {
  UID : string;
  ParentID : string;
  Saga : Object;
  status : Status;
  HistoryEvents : list HistoryEvent
}.

(** Modelled from the spec: [Instance.Progress], "InProgress --
    Progress() --> InProgress"; it returns nothing to [Handle]. *)
Definition Progress (i : Instance) : Instance :=
  mkInstance (UID i) (ParentID i) (Saga i) sagaStatusInProgress (HistoryEvents i).

(** Modelled from the spec: [Instance.AddHistoryEvent] with the options
    [WithOrigin] and [WithTraceUID]: the event is appended "with
    origin = m.Origin(), traceUID = m.UID(), status = current". *)
Definition AddHistoryEvent (i : Instance) (payload : Object)
    (origin traceUID : string) : Instance :=
  mkInstance (UID i) (ParentID i) (Saga i) (status i)
             (HistoryEvents i ++ [mkHistoryEvent payload (status i) origin traceUID])%list.

(** ** Errors and log lines *)

Inductive Site :=
| ExtractingSagaId (msgUID : string)
| Stack
| RetrievingSaga (sagaId : string)
| HandlingEvent (gk : GroupKind) (msgUID : string)
| SendingDelivery (sagaUID : string) (delivery : Delivery)
| SavingSaga (sagaUID : string).

Inductive Error :=
| ErrOther (text : string)                 (* an error of a collaborator *)
| ErrSagaUIDMissing                        (* no saga uid in the headers *)
| ErrSagaNotFound (sagaId : string)        (* "Saga %s not found" *)
| ErrSagaAlreadyCompleted (sagaId : string) (* "Saga %s already completed" *)
| Wrapf (cause : Error) (site : Site).

Inductive LogLine :=
| LogError (err : Error)
| LogHandlingFailed (gk : GroupKind) (msgUID : string) (err : Error)
| LogSendFailed (sagaUID : string) (delivery : Delivery) (err : Error)
| LogNoHandler (gk : GroupKind) (msgUID : string).

(** What a saga's event handler does with the [SagaCtx] it is given: it
    returns an error, or leaves the instance with a saga payload and a
    status of its choice and a list of dispatched deliveries. *)
Record Handled := mkHandled {
  h_saga : Object;
  h_status : Status;
  h_deliveries : list Delivery
}.

Definition Executor := Instance -> Error + Handled.

Definition after_handler (i : Instance) (h : Handled) : Instance :=
  mkInstance (UID i) (ParentID i) (h_saga h) (h_status h) (HistoryEvents i).

(** ** Collaborators *)

(** [saga.Store], as far as [Handle] uses it. *)
Class Store (S : Type) := {
  GetById : S -> string -> Error + option Instance;
  Update : S -> Instance -> option Error * S
}.

(** [mutex.Mutex] *)
Class Mutex (L : Type) := {
  Lock : L -> string -> option Error * L;
  Release : L -> string -> option Error * L
}.

(** What a turn does to the world outside [Handle], in order. A send
    records the message, with the headers it holds, and its options. *)
Inductive Event :=
| EvLock (sagaId : string)
| EvRelease (sagaId : string)
| EvGetById (sagaId : string)
| EvHandler (gk : GroupKind) (i : Instance)
| EvSend (m : OutcomingMessage) (options : list DeliveryOption)
| EvUpdate (i : Instance)
| EvLog (level : Level) (line : LogLine).

(** The calls to the mutex among the events. *)
Definition mutex_event (ev : Event) : bool :=
  match ev with
  | EvLock _ | EvRelease _ => true
  | _ => false
  end.

(** What the delivery loop sends: one message per delivery, each with
    the headers [stamped]. *)
Definition delivery_sends (stamped : Headers) (deliveries : list Delivery)
  : list Event :=
  (fun d => EvSend (mkOutcomingMessage (Payload d) stamped) (Options d)) <$> deliveries.

Section Turn.

Context {S L : Type} `{!Store S, !Mutex L}.

(** The world a turn runs in. *)
Record World := mkWorld {
  heap : gmap loc Headers;
  sagaStore : S;
  mutex : L;
  trace : list Event
}.

(** What is outside the turn's control: the handler table a saga
    builds in [Init] ([EventHandlers]), and what [execCtx.Send]
    answers. *)
Record Env := mkEnv {
  EventHandlers : Object -> gmap GroupKind Executor;
  send_result : OutcomingMessage -> list DeliveryOption -> option Error
}.

(** A computation that reads and writes the world and returns a value
    or an error. *)
Definition M (A : Type) : Type := World -> (Error + A) * World.

Definition ret {A} (a : A) : M A := fun w => (inr a, w).
Definition fail {A} (err : Error) : M A := fun w => (inl err, w).
Definition bind {A B} (m : M A) (k : A -> M B) : M B := fun w =>
  match m w with
  | (inl err, w') => (inl err, w')
  | (inr a, w') => k a w'
  end.

(** [defer]: [cleanup] runs when [body] is left, with a result or with
    an error, and what it returns is dropped. *)
Definition defer {A} (cleanup : M unit) (body : M A) : M A := fun w =>
  let '(r, w') := body w in (r, (cleanup w').2).

Definition emit (ev : Event) : M unit := fun w =>
  (inr tt, mkWorld (heap w) (sagaStore w) (mutex w) (trace w ++ [ev])).

Definition headers_at (headers : loc) (w : World) : Headers :=
  default ∅ (heap w !! headers).

(** [msg.Headers()]: what the header map of a message holds. *)
Definition read_headers (headers : loc) : M Headers := fun w =>
  (inr (headers_at headers w), w).

(** [errors.Wrapf(err, ...)] around a call. *)
Definition wrapf {A} (site : Site) (m : M A) : M A := fun w =>
  match m w with
  | (inl err, w') => (inl (Wrapf err site), w')
  | r => r
  end.

(** *** The saga uid service *)

(** Modelled from the spec: the header key of the saga uid is
    [saga_uid]; [SagaUIDService] is not among the sources. *)
Definition sagaUIDKey : string := "saga_uid".

(** Modelled from the spec: [ExtractSagaUID], "Extract sagaUID from
    m.Headers() ... Missing -> MissingSagaUID". *)
Definition ExtractSagaUID (headers : loc) : M string := fun w =>
  match headers_at headers w !! sagaUIDKey with
  | Some sagaUID => (inr sagaUID, w)
  | None => (inl ErrSagaUIDMissing, w)
  end.

(** Modelled from the spec: [AddSagaId], which stamps the saga uid
    into the headers. In [Handle] it is given the header map of a
    message and returns nothing: it writes to that map. *)
Definition AddSagaId (headers : loc) (sagaUID : string) : M unit := fun w =>
  (inr tt,
   mkWorld (<[headers := <[sagaUIDKey := sagaUID]> (headers_at headers w)]> (heap w))
           (sagaStore w) (mutex w) (trace w)).

(** *** Calls to the collaborators *)

Definition mutex_Lock (sagaId : string) : M unit := fun w =>
  let '(err, l) := Lock (mutex w) sagaId in
  let w' := mkWorld (heap w) (sagaStore w) l (trace w ++ [EvLock sagaId]) in
  match err with
  | Some err => (inl err, w')
  | None => (inr tt, w')
  end.

Definition mutex_Release (sagaId : string) : M unit := fun w =>
  let '(err, l) := Release (mutex w) sagaId in
  let w' := mkWorld (heap w) (sagaStore w) l (trace w ++ [EvRelease sagaId]) in
  match err with
  | Some err => (inl err, w')
  | None => (inr tt, w')
  end.

Definition store_GetById (sagaId : string) : M (option Instance) := fun w =>
  let w' := mkWorld (heap w) (sagaStore w) (mutex w) (trace w ++ [EvGetById sagaId]) in
  match GetById (sagaStore w) sagaId with
  | inl err => (inl err, w')
  | inr found => (inr found, w')
  end.

Definition store_Update (i : Instance) : M unit := fun w =>
  let '(err, s) := Update (sagaStore w) i in
  let w' := mkWorld (heap w) s (mutex w) (trace w ++ [EvUpdate i]) in
  match err with
  | Some err => (inl err, w')
  | None => (inr tt, w')
  end.

(** The events of the deferred release of the mutex, [l] being the
    mutex when [Handle] returns. *)
Definition release_events (sagaId : string) (l : L) : list Event :=
  EvRelease sagaId ::
  match (Release l sagaId).1 with
  | Some err => [EvLog ErrorLevel (LogError err)]
  | None => []
  end.

Variable env : Env.

(** [execCtx.Send(msg, options...)] *)
Definition Send (m : OutcomingMessage) (options : list DeliveryOption)
  : M unit := fun w =>
  let w' := mkWorld (heap w) (sagaStore w) (mutex w)
                    (trace w ++ [EvSend m options]) in
  match send_result env m options with
  | Some err => (inl err, w')
  | None => (inr tt, w')
  end.

(** A handler is run on the instance the [SagaCtx] holds. *)
Definition run_handler (gk : GroupKind) (handler : Executor) (i : Instance)
  : M Handled := fun w =>
  let w' := mkWorld (heap w) (sagaStore w) (mutex w) (trace w ++ [EvHandler gk i]) in
  match handler i with
  | inl err => (inl err, w')
  | inr h => (inr h, w')
  end.

(** *** Handle *)

#[local] Instance M_ret : MRet M := @ret.
#[local] Instance M_bind : MBind M := fun A B k m => bind m k.

(** [if err := m; err != nil { ...; return ... }] *)
Definition catch {A} (m : M A) (handle : Error -> M A) : M A := fun w =>
  match m w with
  | (inl err, w') => handle err w'
  | r => r
  end.

(** [execCtx]: the message in flight; its [Send] and [LogMessage] act
    on the world, its [Context] is what the collaborators answer to. *)
Record MessageExecutionCtx := mkExecCtx {
  Message : ReceivedMessage
}.

(** [for _, delivery := range sagaCtx.Deliveries() { ... }] *)
Fixpoint send_deliveries (execCtx : MessageExecutionCtx)
    (sagaInstance : Instance) (deliveries : list Delivery) : M unit :=
  match deliveries with
  | [] => ret tt
  | delivery :: rest =>
      AddSagaId (msg_Headers (Message execCtx)) (UID sagaInstance);;
      headers ← read_headers (msg_Headers (Message execCtx));
      let outcomingMsg := NewOutcomingMessage (Payload delivery) headers in
      catch (Send outcomingMsg (Options delivery))
        (fun err =>
           emit (EvLog ErrorLevel (LogSendFailed (UID sagaInstance) delivery err));;
           fail (Wrapf err (SendingDelivery (UID sagaInstance) delivery)));;
      send_deliveries execCtx sagaInstance rest
  end.

(** [for _, ev := range sagaCtx.Deliveries() {
      sagaInstance.AddHistoryEvent(ev.Payload) }] *)
Definition add_delivery_events (sagaInstance : Instance)
    (deliveries : list Delivery) : Instance :=
  foldl (fun i ev => AddHistoryEvent i (Payload ev) "" "") sagaInstance deliveries.

(** [if handler, exists := saga.EventHandlers()[...]; exists { ... }
    else { ... }]: the instance and the deliveries of the [SagaCtx]
    after it. *)
Definition dispatch (execCtx : MessageExecutionCtx) (saga : Object)
    (sagaInstance : Instance) : M (Instance * list Delivery) :=
  let msg := Message execCtx in
  let msgGK := GroupKindOf (msg_Payload msg) in
  match EventHandlers env saga !! msgGK with
  | Some handler =>
      h ← catch (run_handler msgGK handler sagaInstance)
            (fun err =>
               emit (EvLog ErrorLevel (LogHandlingFailed msgGK (msg_UID msg) err));;
               fail (Wrapf err (HandlingEvent msgGK (msg_UID msg))));
      let sagaInstance := after_handler sagaInstance h in
      send_deliveries execCtx sagaInstance (h_deliveries h);;
      ret (sagaInstance, h_deliveries h)
  | None =>
      emit (EvLog WarnLevel (LogNoHandler msgGK (msg_UID msg)));;
      ret (sagaInstance, [])
  end.

(** The instance [Handle] hands to [Store.Update]: the received event is
    written into the history, then what was sent out. *)
Definition with_turn_history (execCtx : MessageExecutionCtx)
    (sagaInstance : Instance) (deliveries : list Delivery) : Instance :=
  let msg := Message execCtx in
  add_delivery_events
    (AddHistoryEvent sagaInstance (msg_Payload msg) (msg_Origin msg) (msg_UID msg))
    deliveries.

(** The end of [Handle]: the instance is saved, and the completion of a
    saga that has a parent is sent to the parent. *)
Definition persist_and_notify (execCtx : MessageExecutionCtx)
    (sagaInstance : Instance) (deliveries : list Delivery) : M unit :=
  let msg := Message execCtx in
  let sagaInstance := with_turn_history execCtx sagaInstance deliveries in
  wrapf (SavingSaga (UID sagaInstance)) (store_Update sagaInstance);;
  if Completed (status sagaInstance)
  then
    if bool_decide (ParentID sagaInstance ≠ "")
    then
      AddSagaId (msg_Headers msg) (ParentID sagaInstance);;
      headers ← read_headers (msg_Headers msg);
      Send (NewOutcomingMessage (SagaChildCompletedEvent (UID sagaInstance)) headers) []
    else ret tt
  else ret tt.

(** The statements of [Handle] after the deferred release is set up. *)
Definition locked_turn (execCtx : MessageExecutionCtx) (sagaId : string)
  : M unit :=
  found ← wrapf (RetrievingSaga sagaId) (store_GetById sagaId);
  match found with
  | None => fail (ErrSagaNotFound sagaId)
  | Some sagaInstance =>
      if Completed (status sagaInstance)
      then fail (ErrSagaAlreadyCompleted sagaId)
      else
        let saga := Saga sagaInstance in
        let sagaInstance := Progress sagaInstance in
        '(sagaInstance, deliveries) ← dispatch execCtx saga sagaInstance;
        persist_and_notify execCtx sagaInstance deliveries
  end.

(** [SagaEventsHandler.Handle] *)
Definition Handle (execCtx : MessageExecutionCtx) : M unit :=
  let msg := Message execCtx in
  sagaId ← wrapf (ExtractingSagaId (msg_UID msg))
             (ExtractSagaUID (msg_Headers msg));
  (* lock saga so nobody can process events for this saga in another
     consumer's replicas *)
  wrapf Stack (mutex_Lock sagaId);;
  defer (catch (mutex_Release sagaId)
           (fun err => emit (EvLog ErrorLevel (LogError err))))
        (locked_turn execCtx sagaId).

(** A computation that leaves the mutex alone: it does not change it
    and does not call it, and of the header maps it writes at most the
    one at [l0]. *)
Definition keeps_mutex (l0 : loc) {A} (m : M A) : Prop :=
  forall w,
    mutex (m w).2 = mutex w
    /\ (forall l', l' <> l0 -> heap (m w).2 !! l' = heap w !! l')
    /\ exists evs,
         trace (m w).2 = (trace w ++ evs)%list
         /\ Forall (fun ev => mutex_event ev = false) evs.

End Turn.

Arguments World : clear implicits.
Arguments M : clear implicits.

End SagaHandler.

(* ===================================================================== *)
(** * The subscriber *)
(* ===================================================================== *)

Module Subscriber.

(** [time.Duration] counts nanoseconds. *)
Definition Second : Z := 1000000000.

Definition maxTasksInProgress : Z := 100.
Definition packageProcessingMaxTime : Z := Second * 60.
Definition gracefulShutdownTimeout : Z := Second * 120.
Definition scheduleTimeout : Z := Second * 3.

(** A [context.Context], by its deadline. *)
Record Context := mkContext {
  deadline : option Z
}.

(** [context.WithTimeout(parent, timeout)] at time [now]: the earlier of
    the parent's deadline and [now + timeout]. *)
Definition WithTimeout (parent : Context) (now timeout : Z) : Context :=
  match deadline parent with
  | Some d => if (d <? now + timeout)%Z then parent
              else mkContext (Some (now + timeout)%Z)
  | None => mkContext (Some (now + timeout)%Z)
  end.


Section Subscriber.

(** [Pkg] is [pkg.IncomingPkg], [W] the world the processor acts on,
    [Err] the errors of the processor and of the transport. *)
Context {Pkg W Err : Type}.

Variable UID : Pkg -> string.
Variable Origin : Pkg -> string.

(** The [Processor] interface. *)
Definition Processor := Context -> Pkg -> W -> option Err * W.

Inductive LogLine :=
| LogProcessingError (uid origin : string) (err : Err)
| LogAckError (uid : string) (err : Err)
| LogGracefulShutdown (tasks : nat)
| LogCanceledParentCtx
| LogWaiting (tasks : nat)
| LogAllTasksFinished.

(** The subscriber and what is around it: the processor's world, the
    clock, the packages acked so far, the log, the number of busy
    workers of the dispatcher, and the calls of [Transport.Disconnect]
    so far. *)
Record State := mkState {
  world : W;
  now : Z;
  acked : list string;
  logged : list (Level * LogLine);
  busyWorkers : nat;
  disconnects : nat
}.

(** What the transport answers. *)
Record Transport := mkTransport {
  ack_result : Pkg -> option Err;
  disconnect_result : option Err
}.

Variable processor : Processor.
Variable transport : Transport.

Definition Logf (level : Level) (line : LogLine) (st : State) : State :=
  mkState (world st) (now st) (acked st) (logged st ++ [(level, line)])
          (busyWorkers st) (disconnects st).

(** [inPkg.Ack()] *)
Definition Ack (inPkg : Pkg) (st : State) : option Err * State :=
  (ack_result transport inPkg,
   mkState (world st) (now st) (acked st ++ [UID inPkg]) (logged st)
           (busyWorkers st) (disconnects st)).

(** The context [processPackage] hands to the processor. *)
Definition processorCtx (ctx : Context) (st : State) : Context :=
  WithTimeout ctx (now st) packageProcessingMaxTime.

(** [subscriber.processPackage] *)
Definition processPackage (ctx : Context) (inPkg : Pkg) (st : State) : State :=
  let '(err, w) := processor (processorCtx ctx st) inPkg (world st) in
  let st := mkState w (now st) (acked st) (logged st)
                    (busyWorkers st) (disconnects st) in
  match err with
  | Some err =>
      Logf ErrorLevel (LogProcessingError (UID inPkg) (Origin inPkg) err) st
  | None =>
      match Ack inPkg st with
      | (Some err, st) => Logf ErrorLevel (LogAckError (UID inPkg) err) st
      | (None, st) => st
      end
  end.

(** What the [select] of [Stop] receives: the context is done, or the
    one-second ticker fires, [busy] workers being busy at that time. *)
Inductive StopEvent :=
| CtxDone
| Tick (busy : nat).

(** [Stop] has returned an error or [nil], or it is still blocked in
    its [select] when the events end. *)
Inductive Outcome :=
| Returned (err : option Err)
| Blocked.

(** The period of [waitingTicker]. *)
Definition waitingTickerPeriod : Z := Second.

(** [s.transport.Disconnect(ctx)] *)
Definition Disconnect (st : State) : option Err * State :=
  (disconnect_result transport,
   mkState (world st) (now st) (acked st) (logged st)
           (busyWorkers st) (Datatypes.S (disconnects st))).

(** [for s.workerDispatcher.busyWorkers() > 0 { select { ... } }] and
    what follows the loop. *)
Fixpoint wait_and_disconnect (events : list StopEvent) (st : State)
  : Outcome * State :=
  if bool_decide (0 < busyWorkers st) then
    match events with
    | [] => (Blocked, st)
    | CtxDone :: _ => (Returned None, Logf WarnLevel LogCanceledParentCtx st)
    | Tick busy :: rest =>
        let st := mkState (world st) (now st + waitingTickerPeriod)%Z (acked st)
                          (logged st) busy (disconnects st) in
        wait_and_disconnect rest (Logf InfoLevel (LogWaiting busy) st)
    end
  else
    let '(err, st) := Disconnect (Logf InfoLevel LogAllTasksFinished st) in
    (Returned err, st).

(** [subscriber.Stop] *)
Definition Stop (events : list StopEvent) (st : State) : Outcome * State :=
  let st := if bool_decide (0 < busyWorkers st)
            then Logf InfoLevel (LogGracefulShutdown (busyWorkers st)) st
            else st in
  wait_and_disconnect events st.

End Subscriber.

Arguments State : clear implicits.
Arguments LogLine : clear implicits.
Arguments Outcome : clear implicits.
Arguments Transport : clear implicits.
Arguments Processor : clear implicits.

End Subscriber.

(* ===================================================================== *)
(** * The processor of the saga engine *)
(* ===================================================================== *)

Module Engine.

Import SagaHandler Subscriber.

(** Modelled from the spec: the kinds of error whose envelope is acked
    all the same. The spec's table of error kinds has one, "Saga already
    completed": "fatal for turn; ack (do not redeliver)"; the envelope of
    every other kind is not acked. *)
Definition acked_all_the_same (err : Error) : bool :=
  match err with
  | ErrSagaAlreadyCompleted _ => true
  | _ => false
  end.

(** Modelled from the spec: the [Processor], which is not among the
    sources, "dispatches to handlers"; the package is the decoded
    envelope, the handler is the saga events handler. [processPackage]
    acks the envelope when the processor returns no error and only then:
    the processor returns the error of the handler, but for the kind of
    error whose envelope the spec has acked. *)
Definition sagaProcessor {S L : Type} `{!Store S, !Mutex L} (env : Env)
  : Processor ReceivedMessage (World S L) Error :=
  fun _ inPkg w =>
    match Handle env (mkExecCtx inPkg) w with
    | (inl err, w') => (if acked_all_the_same err then None else Some err, w')
    | (inr _, w') => (None, w')
    end.

(** An in-memory store: the instances by their uid. *)
#[export] Instance mapStore : Store (gmap string Instance) := {|
  GetById s sagaId := inr (s !! sagaId);
  Update s i := (None, <[UID i := i]> s)
|}.

(** An in-process mutex: the saga uids that are locked. *)
#[export] Instance listMutex : Mutex (list string) := {|
  Lock l sagaId := (None, sagaId :: l);
  Release l sagaId := (None, filter (fun x => x ≠ sagaId) l)
|}.

End Engine.

(* ===================================================================== *)
(** * A small saga and its surroundings *)
(* ===================================================================== *)

Module Demo.

Import SagaHandler Subscriber Engine.

(** A subscriber with two busy workers, whose transport disconnects
    without an error. *)
Definition quiet_transport : Transport string string := mkTransport (fun _ => None) None.

Definition two_busy : State unit string := mkState tt 0 [] [] 2 0.

Definition FooEvent : Object := UserObject ("demo", "FooEvent") "{}".
Definition BarCommand : Object := UserObject ("demo", "BarCommand") "{}".
Definition OtherEvent : Object := UserObject ("demo", "OtherEvent") "{}".
Definition Foo : Object := UserObject ("demo", "Foo") "{x:1}".

(** The saga Foo handles FooEvent: it dispatches a BarCommand and
    completes. *)
Definition complete_on_foo : Executor := fun i =>
  inr (mkHandled (Saga i) sagaStatusCompleted [mkDelivery BarCommand []]).

Definition demo_env : Env :=
  mkEnv (fun _ => {[ ("demo", "FooEvent") := complete_on_foo ]}) (fun _ _ => None).

(** The instance s1, a child of s0. *)
Definition child_s1 (st : Status) : Instance := mkInstance "s1" "s0" Foo st [].

(** The envelope m1 for the saga s1; its header map is at location 0. *)
Definition incoming (payload : Object) : ReceivedMessage :=
  mkReceivedMessage "m1" "demo.queue" 0 payload.

Definition demo_world (store : gmap string Instance)
  : World (gmap string Instance) (list string) :=
  mkWorld {[ 0 := {[ "saga_uid" := "s1"; "content-type" := "application/json" ]} ]}
          store [] [].

Definition running : gmap string Instance := {[ "s1" := child_s1 sagaStatusInProgress ]}.
Definition finished : gmap string Instance := {[ "s1" := child_s1 sagaStatusCompleted ]}.

Definition quiet : Subscriber.Transport ReceivedMessage Error :=
  Subscriber.mkTransport (fun _ => None) None.

Definition subscriber_on (store : gmap string Instance)
  : Subscriber.State (World (gmap string Instance) (list string)) Error :=
  Subscriber.mkState (demo_world store) 0 [] [] 1 0.

Definition no_deadline : Subscriber.Context := Subscriber.mkContext None.

(** The turn of the envelope m1, a FooEvent, for the running instance s1. *)
Definition completing_turn :=
  Handle demo_env (mkExecCtx (incoming FooEvent)) (demo_world running).

(** The headers of the envelope m1. *)
Definition envelope_headers : Headers :=
  {[ "saga_uid" := "s1"; "content-type" := "application/json" ]}.

(** Other handlers of FooEvent: one that fails, one that dispatches a
    BarCommand and a delayed BazCommand and leaves the saga in progress. *)
Definition BazCommand : Object := UserObject ("demo", "BazCommand") "{}".

Definition failing : Executor := fun _ => inl (ErrOther "handler failed").

Definition two_commands : Executor := fun i =>
  inr (mkHandled (Saga i) sagaStatusInProgress
         [mkDelivery BarCommand []; mkDelivery BazCommand [WithDelay 5]]).

(** An endpoint that refuses every BazCommand. *)
Definition refuses_baz (m : OutcomingMessage) (_ : list DeliveryOption)
  : option Error :=
  if bool_decide (GroupKindOf (out_Payload m) = ("demo", "BazCommand"))
  then Some (ErrOther "broker is down")
  else None.

Definition env_with (handler : Executor)
    (send : OutcomingMessage -> list DeliveryOption -> option Error) : Env :=
  mkEnv (fun _ => {[ ("demo", "FooEvent") := handler ]}) send.

(** A store that can be read and refuses every update. *)
Record readOnlyStore := mkReadOnly {
  held : gmap string Instance
}.

#[export] Instance readOnly_Store : Store readOnlyStore := {|
  GetById s sagaId := inr (held s !! sagaId);
  Update s i := (Some (ErrOther "read only"), s)
|}.

Definition read_only_world : World readOnlyStore (list string) :=
  mkWorld {[ 0 := {[ "saga_uid" := "s1"; "content-type" := "application/json" ]} ]}
          (mkReadOnly running) [] [].

Definition subscriber_read_only
  : Subscriber.State (World readOnlyStore (list string)) Error :=
  Subscriber.mkState read_only_world 0 [] [] 1 0.

(** A store that cannot be reached. *)
Inductive offlineStore := Offline.

#[export] Instance offline_Store : Store offlineStore := {|
  GetById _ _ := inl (ErrOther "store is offline");
  Update s _ := (Some (ErrOther "store is offline"), s)
|}.

Definition offline_world : World offlineStore (list string) :=
  mkWorld {[ 0 := {[ "saga_uid" := "s1"; "content-type" := "application/json" ]} ]}
          Offline [] [].

Definition subscriber_offline
  : Subscriber.State (World offlineStore (list string)) Error :=
  Subscriber.mkState offline_world 0 [] [] 1 0.

End Demo.

(* ===================================================================== *)
(** * Properties *)
(* ===================================================================== *)

(** ** AMQP send options *)

Section AmqpOptionsFacts.
Import AmqpOptions.

Lemma WithMandatory_sets_Mandatory (o : SendOptions) :
  WithMandatory (SendOptionsPtr o)
  = (None, SendOptionsPtr (mkSendOptions true (Immediate o))).
Proof. reflexivity. Qed.

Lemma WithImmediate_is_WithMandatory (options : Options) :
  WithImmediate options = WithMandatory options.
Proof. reflexivity. Qed.

(** C9: on a [SendOptions] with both flags unset, [WithImmediate] sets
    [Mandatory] and leaves [Immediate] unset, and on a connected transport
    a [Send] with that option alone publishes, whatever the package and
    whatever the broker answers, with mandatory set and immediate
    unset. *)
Theorem WithImmediate_sets_Mandatory_instead :
  WithImmediate (SendOptionsPtr (mkSendOptions false false))
  = (None, SendOptionsPtr (mkSendOptions true false))
  /\ forall (broker : AmqpTransport.Broker) (outboundPkg : AmqpTransport.OutboundPkg),
       let st := AmqpTransport.online_state in
       let published := AmqpTransport.publish_call 1 outboundPkg true false in
       AmqpTransport.Send broker outboundPkg [WithImmediate] st
       = (AmqpTransport.Done (if broker (AmqpTransport.calls st) published
                              then None else Some AmqpTransport.ErrPublish),
          AmqpTransport.mkState (AmqpTransport.transport st)
                                (AmqpTransport.calls st ++ [published])).
Proof.
  split; [reflexivity|]. intros broker outboundPkg st published.
  unfold AmqpTransport.Send, AmqpTransport.connected, AmqpTransport.publish,
    AmqpTransport.on_sendingChan, AmqpTransport.call. simpl.
  fold published. by destruct (broker _ published).
Qed.

End AmqpOptionsFacts.

(** ** The MySQL store *)

Section MysqlStoreFacts.
Import MysqlStore.

Lemma select_after_update i n p sagaId tx :
  select_history_ids sagaId (exec_update_saga i n p tx) = select_history_ids sagaId tx.
Proof. reflexivity. Qed.

Lemma scan_ids_sound f rows : forall i ids0 ids,
  scan_ids f i rows ids0 = inr ids ->
  forall x, is_Some (ids !! x) -> is_Some (ids0 !! x) \/ x ∈ rows.
Proof.
  induction rows as [|row rest IH]; intros i ids0 ids Hscan x Hx; simpl in Hscan.
  - injection Hscan as <-. by left.
  - case_bool_decide; [injection Hscan as <-; by left|].
    case_bool_decide; [discriminate|].
    destruct (IH _ _ _ Hscan x Hx) as [Hin|Hin].
    + destruct (decide (row = x)) as [->|Hne].
      * right. left.
      * rewrite lookup_insert_ne in Hin by done. by left.
    + right. by right.
Qed.

Lemma scan_ids_complete f rows : rows_stop_at f = None -> forall i ids0 ids,
  scan_ids f i rows ids0 = inr ids ->
  forall x, is_Some (ids0 !! x) \/ x ∈ rows -> is_Some (ids !! x).
Proof.
  intros Hstop.
  induction rows as [|row rest IH]; intros i ids0 ids Hscan x Hx; simpl in Hscan.
  - injection Hscan as <-. destruct Hx as [Hx|Hx]; [done|]. by apply elem_of_nil in Hx.
  - rewrite Hstop in Hscan. rewrite bool_decide_eq_false_2 in Hscan by done.
    case_bool_decide; [discriminate|].
    apply (IH _ _ _ Hscan x).
    destruct Hx as [Hx|Hx].
    + left. destruct (decide (row = x)) as [->|Hne].
      * rewrite lookup_insert_eq. by eexists.
      * by rewrite lookup_insert_ne.
    + apply elem_of_cons in Hx as [->|Hx].
      * left. rewrite lookup_insert_eq. by eexists.
      * by right.
Qed.

Lemma exec_insert_history_inr f r tx tx' :
  exec_insert_history f r tx = inr tx' ->
  saga_table tx' = saga_table tx
  /\ saga_history_table tx' = (saga_history_table tx ++ [r])%list.
Proof.
  unfold exec_insert_history. intros H.
  destruct (insert_fails f (h_id r)); [discriminate|].
  case_bool_decide; [discriminate|].
  destruct (saga_table tx !! h_saga_id r); [|discriminate].
  injection H as <-. done.
Qed.

Lemma insert_events_inr f sagaId ids events : forall tx tx',
  insert_events f sagaId ids events tx = inr tx' ->
  saga_table tx' = saga_table tx
  /\ exists rows,
       saga_history_table tx' = (saga_history_table tx ++ rows)%list
       /\ Forall2 (inserted_as sagaId)
                  (filter (fun m => ids !! ID m = None) events) rows.
Proof.
  induction events as [|m rest IH]; intros tx tx' H; simpl in H.
  - injection H as <-. split; [done|]. exists []. split; [by rewrite app_nil_r|].
    constructor.
  - destruct (ids !! ID m) as [x|] eqn:Hid.
    + destruct (IH _ _ H) as [Hs [rows [Hh Hrows]]].
      split; [done|]. exists rows. split; [done|].
      rewrite filter_cons_False; [done|]. by rewrite Hid.
    + destruct (Marshal (Payload m)) as [err|payload] eqn:Hm; [discriminate|].
      destruct (exec_insert_history f (history_row sagaId m payload) tx)
        as [err|tx1] eqn:Hins; [discriminate|].
      apply exec_insert_history_inr in Hins as [Hs1 Hh1].
      destruct (IH _ _ H) as [Hs [rows [Hh Hrows]]].
      split; [congruence|].
      exists (history_row sagaId m payload :: rows). split.
      * rewrite Hh, Hh1, <- app_assoc. done.
      * rewrite filter_cons_True by done. constructor; [|done].
        exists payload. done.
Qed.

(** C1, as amended: whenever [Update] returns an error the database is
    as it was before the call. When it returns [nil], the saga row (if
    there is one) has been overwritten with the instance's fields, and
    the history table is the old one, row for row, followed by the rows
    of the inserted events: the in-memory events whose ids were not read
    back, and none at all unless fewer ids were read back than the
    instance holds events. The ids read back are persisted ids of the
    saga, all of them when the cursor is read to its end. *)
Theorem Update_appends_unread_history (f : Faults) (db : DB) (i : Instance) :
  match Update f db i with
  | (Some _, db') => db' = db
  | (None, db') =>
      exists payload ids rows,
        Marshal (saga i) = inr payload
        /\ scan_ids f 0 (select_history_ids (id i) db) ∅ = inr ids
        /\ (forall x, is_Some (ids !! x) -> x ∈ select_history_ids (id i) db)
        /\ (rows_stop_at f = None ->
            forall x, x ∈ select_history_ids (id i) db -> is_Some (ids !! x))
        /\ saga_table db'
           = alter (fun _ => mkSagaRow (parentID i) (obj_name (saga i)) payload
                               (status i) (startedAt i) (updatedAt i))
                   (id i) (saga_table db)
        /\ saga_history_table db' = (saga_history_table db ++ rows)%list
        /\ Forall2 (inserted_as (id i)) (events_to_insert ids (historyEvents i)) rows
  end.
Proof.
  unfold Update.
  destruct (Marshal (saga i)) as [err|payload] eqn:Hm; [done|].
  destruct (begin_fails f); [done|].
  destruct (update_body f i (obj_name (saga i)) payload db) as [err|tx] eqn:Hbody;
    [done|].
  destruct (commit_fails f); [done|].
  unfold update_body in Hbody.
  destruct (update_fails f); [discriminate|].
  destruct (query_fails f); [discriminate|].
  rewrite select_after_update in Hbody.
  destruct (scan_ids f 0 (select_history_ids (id i) db) ∅) as [err|ids] eqn:Hscan;
    [discriminate|].
  assert (Hsound : forall x, is_Some (ids !! x) -> x ∈ select_history_ids (id i) db).
  { intros x Hx. destruct (scan_ids_sound _ _ _ _ _ Hscan x Hx) as [H|H]; [|done].
    rewrite lookup_empty in H. by destruct H. }
  assert (Hcomplete : rows_stop_at f = None ->
            forall x, x ∈ select_history_ids (id i) db -> is_Some (ids !! x)).
  { intros Hstop x Hx. apply (scan_ids_complete _ _ Hstop _ _ _ Hscan). by right. }
  unfold events_to_insert.
  case_bool_decide as Hlen.
  - apply insert_events_inr in Hbody as [Hs [rows [Hh Hrows]]].
    simpl in Hs, Hh. exists payload, ids, rows.
    rewrite bool_decide_eq_true_2 by done. done.
  - injection Hbody as <-. exists payload, ids, []. simpl.
    rewrite bool_decide_eq_false_2 by done.
    rewrite app_nil_r. done.
Qed.

(** C1, as stated, fails: the event d of the instance is not persisted
    for the saga, [Update] succeeds, and d is not in the history table
    afterwards. *)
Lemma Update_drops_unpersisted_event :
  ((Update no_faults stale_db stale_instance).1 = None)
  /\ ("d" ∈ ID <$> historyEvents stale_instance)
  /\ ("d" ∉ select_history_ids "s1" stale_db)
  /\ ("d" ∉ h_id <$> saga_history_table (Update no_faults stale_db stale_instance).2).
Proof.
  split; [by vm_compute|].
  repeat split; apply (bool_decide_unpack _); by vm_compute.
Qed.

(** The same instance against a store that holds only a: d is appended
    after a, and the saga row is overwritten. *)
Example Update_appends_new_event :
  let db := mkDB (saga_table stale_db) (take 1 (saga_history_table stale_db)) in
  h_id <$> saga_history_table (Update no_faults db stale_instance).2 = ["a"; "d"].
Proof. by vm_compute. Qed.

Lemma apply_filters_empty (filters : list FilterOption) :
  Forall (fun filter => filter_value filter = "") filters ->
  foldl (fun opts filter => apply_filter filter opts) (mkFilterOptions "" "" "") filters
  = mkFilterOptions "" "" "".
Proof.
  induction 1 as [|filter filters Hv _ IH]; [done|].
  simpl. destruct filter; simpl in Hv; subst; exact IH.
Qed.

(** C10: [GetByFilter] on a non-empty list of filters whose values are
    all empty returns the error "All specified filters are empty" and
    sends no query to the database. *)
Theorem GetByFilter_rejects_empty_values {Inst : Type}
    (rows_of : Query -> Error + list Inst) (filters : list FilterOption) :
  filters <> [] ->
  Forall (fun filter => filter_value filter = "") filters ->
  GetByFilter rows_of filters = (inl ErrAllFiltersEmpty, []).
Proof.
  intros Hne Hempty. unfold GetByFilter.
  rewrite bool_decide_eq_false_2 by (by destruct filters).
  rewrite apply_filters_empty by done. reflexivity.
Qed.

Lemma GetByFilter_rejects_empty_values_witness :
  [FilterSagaUID ""; FilterStatus ""] <> []
  /\ Forall (fun filter => filter_value filter = "") [FilterSagaUID ""; FilterStatus ""]
  /\ GetByFilter (Inst := Instance) (fun _ => inr [stale_instance])
                 [FilterSagaUID ""; FilterStatus ""]
     = (inl ErrAllFiltersEmpty, []).
Proof.
  assert (Hne : [FilterSagaUID ""; FilterStatus ""] <> []) by discriminate.
  assert (Hempty : Forall (fun filter => filter_value filter = "")
                          [FilterSagaUID ""; FilterStatus ""])
    by (repeat constructor).
  split; [exact Hne|]. split; [exact Hempty|].
  exact (GetByFilter_rejects_empty_values _ _ Hne Hempty).
Defined.

(** A filter with a value reaches the database. *)
Example GetByFilter_queries :
  (GetByFilter (Inst := Instance) (fun _ => inr []) [FilterSagaUID "s1"; FilterStatus ""]).2
  = [mkQuery (select_join +:+ " s.id = ?;") ["s1"]].
Proof. by vm_compute. Qed.

End MysqlStoreFacts.

(** ** The subscriber *)

Section SubscriberFacts.
Import Subscriber.

Context {Pkg W Err : Type}.
Variable UID : Pkg -> string.
Variable Origin : Pkg -> string.
Variable processor : Processor Pkg W Err.
Variable transport : Transport Pkg Err.

Local Abbreviation processPackage := (processPackage UID Origin processor transport).
Local Abbreviation Stop := (Stop (W := W) transport).
Local Abbreviation wait_and_disconnect := (wait_and_disconnect (W := W) transport).

Lemma processorCtx_deadline (ctx : Context) (st : State W Err) :
  exists d, deadline (processorCtx ctx st) = Some d
            /\ (d <= now st + packageProcessingMaxTime)%Z
            /\ (d = now st + packageProcessingMaxTime \/ deadline ctx = Some d)%Z.
Proof.
  unfold processorCtx, WithTimeout.
  destruct (deadline ctx) as [d|] eqn:Hd.
  - destruct (Z.ltb_spec d (now st + packageProcessingMaxTime)) as [Hlt|Hge].
    + exists d. rewrite Hd. split; [done|]. split; [lia|]. by right.
    + eexists. split; [done|]. split; [lia|]. by left.
  - eexists. split; [done|]. split; [lia|]. by left.
Qed.

(** C8: [processPackage] runs the processor once, on the package and
    under a context whose deadline is at most 60 seconds away (the
    parent's deadline if that is earlier); the package is acked when the
    processor returns no error, and when it returns an error the package
    is not acked and the error is logged. *)
Theorem processPackage_acks_iff_no_error
    (ctx : Context) (inPkg : Pkg) (st : State W Err) :
  let r := processor (processorCtx ctx st) inPkg (world st) in
  let st' := processPackage ctx inPkg st in
  packageProcessingMaxTime = (60 * 1000000000)%Z
  /\ (exists d, deadline (processorCtx ctx st) = Some d
               /\ (d <= now st + packageProcessingMaxTime)%Z
               /\ (d = now st + packageProcessingMaxTime \/ deadline ctx = Some d)%Z)
  /\ world st' = r.2
  /\ match r.1 with
     | None => acked st' = (acked st ++ [UID inPkg])%list
     | Some err =>
         acked st' = acked st
         /\ logged st'
            = (logged st
               ++ [(ErrorLevel, LogProcessingError (UID inPkg) (Origin inPkg) err)])%list
     end.
Proof.
  intros r st'. split; [reflexivity|]. split; [apply processorCtx_deadline|].
  subst r st'. unfold Subscriber.processPackage.
  destruct (processor (processorCtx ctx st) inPkg (world st)) as [[err|] w]; simpl.
  - done.
  - destruct (ack_result transport inPkg); done.
Qed.

Lemma wait_tick (busy : nat) (rest : list StopEvent) (st : State W Err) :
  0 < busyWorkers st ->
  wait_and_disconnect (Tick busy :: rest) st
  = wait_and_disconnect rest
      (Logf InfoLevel (LogWaiting busy)
         (mkState (world st) (now st + waitingTickerPeriod)%Z (acked st)
                  (logged st) busy (disconnects st))).
Proof. intros Hbusy. simpl. by rewrite bool_decide_eq_true_2. Qed.

Lemma wait_busy (counts : list nat) (tail : list (StopEvent)) :
  Forall (fun n => 0 < n) counts ->
  forall st : State W Err,
    0 < busyWorkers st ->
    exists st',
      wait_and_disconnect ((Tick <$> counts) ++ tail) st = wait_and_disconnect tail st'
      /\ 0 < busyWorkers st'
      /\ disconnects st' = disconnects st
      /\ now st' = (now st + Z.of_nat (length counts) * waitingTickerPeriod)%Z.
Proof.
  induction 1 as [|n counts Hn _ IH]; intros st Hbusy.
  - exists st. simpl. repeat split; try done. lia.
  - rewrite fmap_cons, <- app_comm_cons, wait_tick by done.
    match goal with |- context [wait_and_disconnect _ ?s] =>
      destruct (IH s) as [st' [Heq [Hb [Hd Hnow]]]]; [done|] end.
    exists st'. rewrite Heq. repeat split; try done.
    rewrite Hnow. simpl. lia.
Qed.

(** C7, as amended: while workers are busy [Stop] waits, one tick of
    its one-second ticker after the other. If the context is done while
    workers are still busy, [Stop] returns [nil] and does not call
    [Transport.Disconnect]; if a tick finds no worker busy, [Stop] calls
    [Transport.Disconnect] once and returns its result; with no worker
    busy at the call it does so at once. *)
Theorem Stop_disconnects_only_when_idle
    (counts : list nat) (rest : list StopEvent) (st : State W Err) :
  Forall (fun n => 0 < n) counts ->
  let expired := Stop ((Tick <$> counts) ++ CtxDone :: rest) st in
  let drained := Stop ((Tick <$> counts) ++ Tick 0 :: rest) st in
  waitingTickerPeriod = 1000000000%Z
  /\ (busyWorkers st = 0 ->
      forall events,
        (Stop events st).1 = Returned (disconnect_result transport)
        /\ disconnects (Stop events st).2 = Datatypes.S (disconnects st)
        /\ now (Stop events st).2 = now st)
  /\ (0 < busyWorkers st ->
      expired.1 = Returned None
      /\ disconnects expired.2 = disconnects st
      /\ now expired.2 = (now st + Z.of_nat (length counts) * waitingTickerPeriod)%Z)
  /\ (0 < busyWorkers st ->
      drained.1 = Returned (disconnect_result transport)
      /\ disconnects drained.2 = Datatypes.S (disconnects st)
      /\ now drained.2
         = (now st + Z.of_nat (Datatypes.S (length counts)) * waitingTickerPeriod)%Z).
Proof.
  intros Hcounts expired drained. split; [reflexivity|]. split; [|split].
  - intros Hidle events. unfold Subscriber.Stop.
    rewrite bool_decide_eq_false_2 by lia.
    destruct events as [|e events]; simpl;
      rewrite bool_decide_eq_false_2 by lia; done.
  - intros Hbusy. subst expired. unfold Subscriber.Stop.
    rewrite bool_decide_eq_true_2 by done.
    match goal with |- context [wait_and_disconnect _ ?s] =>
      destruct (wait_busy counts (CtxDone :: rest) Hcounts s)
        as [st' [Heq [Hb [Hd Hnow]]]]; [done|] end.
    rewrite Heq. simpl. rewrite bool_decide_eq_true_2 by done. simpl.
    repeat split; done.
  - intros Hbusy. subst drained. unfold Subscriber.Stop.
    rewrite bool_decide_eq_true_2 by done.
    match goal with |- context [wait_and_disconnect _ ?s] =>
      destruct (wait_busy counts (Tick 0 :: rest) Hcounts s)
        as [st' [Heq [Hb [Hd Hnow]]]]; [done|] end.
    rewrite Heq. simpl. rewrite bool_decide_eq_true_2 by done. simpl.
    destruct rest as [|e rest]; simpl; (split; [done|]); (split; [by rewrite Hd|]);
      rewrite Hnow; simpl; lia.
Qed.

End SubscriberFacts.

Section SubscriberExamples.
Import Subscriber Demo.

Lemma Stop_disconnects_only_when_idle_witness :
  Forall (fun n => 0 < n) [2; 1]
  /\ (let expired := Stop quiet_transport ((Tick <$> [2; 1]) ++ [CtxDone]) two_busy in
      expired.1 = Returned None /\ disconnects expired.2 = 0)
  /\ (let drained := Stop quiet_transport ((Tick <$> [2; 1]) ++ [Tick 0]) two_busy in
      drained.1 = Returned None /\ disconnects drained.2 = 1
      /\ now drained.2 = (3 * Second)%Z).
Proof.
  assert (Hcounts : Forall (fun n => 0 < n) [2; 1]) by (repeat constructor; lia).
  assert (Hbusy : 0 < busyWorkers two_busy) by (simpl; lia).
  destruct (Stop_disconnects_only_when_idle quiet_transport [2; 1] [] two_busy Hcounts)
    as [_ [_ [Hexpired Hdrained]]].
  split; [exact Hcounts|]. split.
  - destruct (Hexpired Hbusy) as [H1 [H2 _]]. split; [exact H1 | exact H2].
  - destruct (Hdrained Hbusy) as [H1 [H2 H3]].
    split; [exact H1|]. split; [exact H2 | exact H3].
Defined.

(** C7, as stated, fails: with a worker busy and the shutdown context
    done, [Stop] returns [nil] and [Transport.Disconnect] has not been
    called. *)
Lemma Stop_expired_does_not_disconnect :
  (Stop quiet_transport [CtxDone] two_busy).1 = Returned None
  /\ disconnects (Stop quiet_transport [CtxDone] two_busy).2 = 0.
Proof. split; reflexivity. Qed.

End SubscriberExamples.

(** ** The saga events handler *)

Section HandlerFacts.
Import SagaHandler.

Context {S L : Type} `{!Store S, !Mutex L}.
Variable env : Env.

Local Abbreviation World := (World S L).
Local Abbreviation Handle := (Handle (S := S) (L := L) env).

(** The turn up to the deferred release: the saga uid is in the
    headers and the mutex is acquired. *)
Lemma Handle_locked (execCtx : MessageExecutionCtx) (w : World)
    (sagaId : string) (l : L) :
  headers_at (msg_Headers (Message execCtx)) w !! sagaUIDKey = Some sagaId ->
  Lock (mutex w) sagaId = (None, l) ->
  Handle execCtx w
  = defer (catch (mutex_Release sagaId)
             (fun err => emit (EvLog ErrorLevel (LogError err))))
          (locked_turn env execCtx sagaId)
          (mkWorld (heap w) (sagaStore w) l (trace w ++ [EvLock sagaId])).
Proof.
  intros Huid Hlock.
  unfold SagaHandler.Handle, mbind, M_bind, bind, wrapf, ExtractSagaUID, mutex_Lock.
  rewrite Huid, Hlock. reflexivity.
Qed.

Lemma defer_release {A} (sagaId : string) (body : M S L A) (w : World) :
  defer (catch (mutex_Release sagaId)
           (fun err => emit (EvLog ErrorLevel (LogError err)))) body w
  = ((body w).1,
     mkWorld (heap (body w).2) (sagaStore (body w).2)
             (Release (mutex (body w).2) sagaId).2
             (trace (body w).2 ++ release_events sagaId (mutex (body w).2))).
Proof.
  unfold defer, catch, mutex_Release, emit, release_events.
  destruct (body w) as [r w']. simpl.
  destruct (Release (mutex w') sagaId) as [[err|] l']; simpl;
    by rewrite <- ?app_assoc.
Qed.

(** C2: once the saga uid is extracted and the mutex acquired, a turn
    for which the store holds no instance fails with the error "Saga not
    found", and a turn whose loaded instance is completed fails with
    "Saga already completed"; in both, the turn consists of the lock,
    the load and the release of the mutex: no handler is run, nothing is
    sent, and the store is not updated. *)
Theorem Handle_rejects_absent_and_completed
    (execCtx : MessageExecutionCtx) (w : World) (sagaId : string) (l : L) :
  headers_at (msg_Headers (Message execCtx)) w !! sagaUIDKey = Some sagaId ->
  Lock (mutex w) sagaId = (None, l) ->
  let r := Handle execCtx w in
  (GetById (sagaStore w) sagaId = inr None ->
     r.1 = inl (ErrSagaNotFound sagaId)
     /\ sagaStore r.2 = sagaStore w
     /\ trace r.2
        = (trace w ++ [EvLock sagaId; EvGetById sagaId] ++ release_events sagaId l)%list)
  /\ (forall sagaInstance,
        GetById (sagaStore w) sagaId = inr (Some sagaInstance) ->
        Completed (status sagaInstance) = true ->
        r.1 = inl (ErrSagaAlreadyCompleted sagaId)
        /\ sagaStore r.2 = sagaStore w
        /\ trace r.2
           = (trace w ++ [EvLock sagaId; EvGetById sagaId] ++ release_events sagaId l)%list).
Proof.
  intros Huid Hlock r. subst r.
  rewrite (Handle_locked _ _ _ _ Huid Hlock), defer_release.
  unfold locked_turn, mbind, M_bind, bind, wrapf, store_GetById, fail. simpl.
  split.
  - intros ->. simpl. by rewrite <- !app_assoc.
  - intros sagaInstance -> ->. simpl. by rewrite <- !app_assoc.
Qed.

Lemma headers_at_stamped (l : nat) (h : Headers) (w : World) (s : S) (m : L)
    (tr : list Event) :
  headers_at l (mkWorld (<[l := h]> (heap w)) s m tr) = h.
Proof. unfold headers_at. simpl. by rewrite lookup_insert_eq. Qed.

(** The delivery loop stamps the uid of the instance into the header map
    of the incoming message and sends every delivery with a copy of that
    map, until a send fails. *)
Lemma send_deliveries_spec (execCtx : MessageExecutionCtx) (i : Instance)
    (deliveries : list Delivery) : forall w : World,
  let l := msg_Headers (Message execCtx) in
  let stamped := <[sagaUIDKey := UID i]> (headers_at l w) in
  let r := send_deliveries env execCtx i deliveries w in
  sagaStore r.2 = sagaStore w
  /\ mutex r.2 = mutex w
  /\ heap r.2 = match deliveries with
                | [] => heap w
                | _ => <[l := stamped]> (heap w)
                end
  /\ match r.1 with
     | inr _ => trace r.2 = (trace w ++ delivery_sends stamped deliveries)%list
     | inl err =>
         exists n d cause,
           deliveries !! n = Some d
           /\ send_result env (mkOutcomingMessage (Payload d) stamped) (Options d)
              = Some cause
           /\ err = Wrapf cause (SendingDelivery (UID i) d)
           /\ trace r.2
              = (trace w ++ delivery_sends stamped (take (Datatypes.S n) deliveries)
                 ++ [EvLog ErrorLevel (LogSendFailed (UID i) d cause)])%list
     end.
Proof.
  induction deliveries as [|d rest IH]; intros w l stamped r.
  - subst r. simpl. unfold delivery_sends. simpl. by rewrite app_nil_r.
  - subst r. simpl.
    unfold mbind, M_bind, bind, AddSagaId, read_headers, catch, Send,
      NewOutcomingMessage, emit, fail.
    simpl. fold l. rewrite headers_at_stamped. fold stamped.
    destruct (send_result env (mkOutcomingMessage (Payload d) stamped) (Options d))
      as [cause|] eqn:Hsend; simpl.
    + repeat split; try done.
      exists 0, d, cause. repeat split; try done.
      unfold delivery_sends. simpl. by rewrite <- app_assoc.
    + match goal with |- context [send_deliveries env execCtx i rest ?w1] =>
        specialize (IH w1); set (w' := w1) in * end.
      simpl in IH. fold l in IH.
      assert (Hat : headers_at l w' = stamped) by apply headers_at_stamped.
      rewrite Hat in IH.
      assert (Hidem : <[sagaUIDKey := UID i]> stamped = stamped)
        by (unfold stamped; apply insert_insert_eq).
      rewrite Hidem in IH.
      destruct IH as [Hs [Hm [Hh Htr]]].
      repeat split; try done.
      * rewrite Hh. destruct rest; [done|]. subst w'. simpl. apply insert_insert_eq.
      * destruct (send_deliveries env execCtx i rest w').1 as [err|[]].
        -- destruct Htr as [n [d' [cause [Hn [Hc [He Ht]]]]]].
           exists (Datatypes.S n), d', cause. repeat split; try done.
           rewrite Ht. subst w'. simpl. unfold delivery_sends.
           simpl. by rewrite <- ?app_assoc.
        -- rewrite Htr. subst w'. simpl. unfold delivery_sends.
           simpl. by rewrite <- ?app_assoc.
Qed.

(** The turn up to the dispatch: the instance is loaded and it is not
    completed. *)
Lemma locked_turn_live (execCtx : MessageExecutionCtx) (w : World)
    (sagaId : string) (i : Instance) :
  GetById (sagaStore w) sagaId = inr (Some i) ->
  Completed (status i) = false ->
  locked_turn env execCtx sagaId w
  = match dispatch env execCtx (Saga i) (Progress i)
            (mkWorld (heap w) (sagaStore w) (mutex w) (trace w ++ [EvGetById sagaId])) with
    | (inl err, w') => (inl err, w')
    | (inr (i', deliveries), w') => persist_and_notify env execCtx i' deliveries w'
    end.
Proof.
  intros Hget Hlive.
  unfold locked_turn, mbind, M_bind, bind, wrapf, store_GetById.
  rewrite Hget, Hlive. simpl.
  destruct (dispatch env execCtx (Saga i) (Progress i) _) as [[err|[i' ds]] w']; done.
Qed.

Section AckOfTheTurn.

Import Engine.

Variable transport : Subscriber.Transport ReceivedMessage Error.

(** C4: a turn for a loaded, not completed instance whose saga has no
    handler for the group and kind of the incoming payload logs a warning,
    appends the incoming envelope to the history of the instance with its
    origin, its uid as trace uid and the current status, and hands that
    instance to [Store.Update]; when the update succeeds the turn returns
    no error and [processPackage] acks the envelope. *)
Theorem missing_handler_is_not_an_error
    (ctx : Subscriber.Context) (st : Subscriber.State World Error)
    (inPkg : ReceivedMessage) (sagaId : string) (l : L) (i : Instance) :
  let w := Subscriber.world st in
  let gk := GroupKindOf (msg_Payload inPkg) in
  headers_at (msg_Headers inPkg) w !! sagaUIDKey = Some sagaId ->
  Lock (mutex w) sagaId = (None, l) ->
  GetById (sagaStore w) sagaId = inr (Some i) ->
  Completed (status i) = false ->
  EventHandlers env (Saga i) !! gk = None ->
  let saved := AddHistoryEvent (Progress i) (msg_Payload inPkg)
                               (msg_Origin inPkg) (msg_UID inPkg) in
  let r := Handle (mkExecCtx inPkg) w in
  let st' := Subscriber.processPackage msg_UID msg_Origin (sagaProcessor env)
                                       transport ctx inPkg st in
  HistoryEvents saved
  = (HistoryEvents i
     ++ [mkHistoryEvent (msg_Payload inPkg) sagaStatusInProgress
                        (msg_Origin inPkg) (msg_UID inPkg)])%list
  /\ trace r.2
     = (trace w
        ++ [EvLock sagaId; EvGetById sagaId;
            EvLog WarnLevel (LogNoHandler gk (msg_UID inPkg)); EvUpdate saved]
        ++ release_events sagaId l)%list
  /\ sagaStore r.2 = (Update (sagaStore w) saved).2
  /\ ((Update (sagaStore w) saved).1 = None ->
      r.1 = inr tt
      /\ Subscriber.acked st' = (Subscriber.acked st ++ [msg_UID inPkg])%list).
Proof.
  intros w gk Huid Hlock Hget Hlive Hnone saved r st'.
  split; [reflexivity|].
  assert (Hr : r = ((match (Update (sagaStore w) saved).1 with
                     | Some err => inl (Wrapf err (SavingSaga (UID saved)))
                     | None => inr tt
                     end),
                    mkWorld (heap w) (Update (sagaStore w) saved).2
                            (Release l sagaId).2
                            (trace w
                             ++ [EvLock sagaId; EvGetById sagaId;
                                 EvLog WarnLevel (LogNoHandler gk (msg_UID inPkg));
                                 EvUpdate saved]
                             ++ release_events sagaId l)%list)).
  { subst r. rewrite (Handle_locked (mkExecCtx inPkg) w sagaId l Huid Hlock).
    rewrite defer_release.
    rewrite (locked_turn_live (mkExecCtx inPkg)
               (mkWorld (heap w) (sagaStore w) l (trace w ++ [EvLock sagaId]))
               sagaId i Hget Hlive).
    unfold dispatch. simpl. fold gk. rewrite Hnone.
    unfold mbind, M_bind, bind, emit, ret. simpl.
    unfold persist_and_notify, with_turn_history, mbind, M_bind, bind, wrapf,
      store_Update. simpl. fold saved.
    destruct (Update (sagaStore w) saved) as [[err|] s']; simpl;
      by rewrite <- !app_assoc. }
  split; [by rewrite Hr|]. split; [by rewrite Hr|].
  intros Hok. split; [by rewrite Hr, Hok|].
  subst st'. unfold Subscriber.processPackage, sagaProcessor. fold w. fold r.
  rewrite Hr, Hok. simpl. by destruct (Subscriber.ack_result transport inPkg).
Qed.

(** C3: a turn for an instance that is already completed is fatal: once
    the mutex is acquired [Handle] returns the error "Saga already
    completed" after the lock, the load and the release, no handler is
    run, nothing is sent and the store is not updated. The envelope is
    acked: [processPackage] acks when the Processor returns no error, and
    the Processor of the spec returns none for this kind of error. *)
Theorem completed_saga_is_acked
    (ctx : Subscriber.Context) (st : Subscriber.State World Error)
    (inPkg : ReceivedMessage) (sagaId : string) (l : L) (i : Instance) :
  let w := Subscriber.world st in
  headers_at (msg_Headers inPkg) w !! sagaUIDKey = Some sagaId ->
  Lock (mutex w) sagaId = (None, l) ->
  GetById (sagaStore w) sagaId = inr (Some i) ->
  Completed (status i) = true ->
  let r := Handle (mkExecCtx inPkg) w in
  let st' := Subscriber.processPackage msg_UID msg_Origin (sagaProcessor env)
                                       transport ctx inPkg st in
  r.1 = inl (ErrSagaAlreadyCompleted sagaId)
  /\ trace r.2
     = (trace w ++ [EvLock sagaId; EvGetById sagaId] ++ release_events sagaId l)%list
  /\ sagaStore r.2 = sagaStore w
  /\ Subscriber.world st' = r.2
  /\ Subscriber.acked st' = (Subscriber.acked st ++ [msg_UID inPkg])%list.
Proof.
  intros w Huid Hlock Hget Hdone r st'.
  assert (Hr : r = (inl (ErrSagaAlreadyCompleted sagaId),
                    mkWorld (heap w) (sagaStore w) (Release l sagaId).2
                            (trace w ++ [EvLock sagaId; EvGetById sagaId]
                             ++ release_events sagaId l))).
  { subst r. rewrite (Handle_locked (mkExecCtx inPkg) w sagaId l Huid Hlock).
    rewrite defer_release.
    unfold locked_turn, mbind, M_bind, bind, wrapf, store_GetById, fail. simpl.
    rewrite Hget, Hdone. simpl. by rewrite <- !app_assoc. }
  split; [by rewrite Hr|]. split; [by rewrite Hr|]. split; [by rewrite Hr|].
  subst st'. unfold Subscriber.processPackage, sagaProcessor. fold w. fold r.
  rewrite Hr. simpl. by destruct (Subscriber.ack_result transport inPkg).
Qed.

End AckOfTheTurn.

Lemma dispatch_handled (execCtx : MessageExecutionCtx) (saga : Object)
    (i : Instance) (handler : Executor) (h : Handled) (w : World) :
  let gk := GroupKindOf (msg_Payload (Message execCtx)) in
  EventHandlers env saga !! gk = Some handler ->
  handler i = inr h ->
  dispatch env execCtx saga i w
  = match send_deliveries env execCtx (after_handler i h) (h_deliveries h)
            (mkWorld (heap w) (sagaStore w) (mutex w) (trace w ++ [EvHandler gk i])) with
    | (inl err, w') => (inl err, w')
    | (inr _, w') => (inr (after_handler i h, h_deliveries h), w')
    end.
Proof.
  intros gk Hfound Hrun. unfold dispatch. fold gk. rewrite Hfound.
  unfold mbind, M_bind, bind, catch, run_handler, ret. rewrite Hrun. simpl.
  destruct (send_deliveries env execCtx (after_handler i h) (h_deliveries h) _)
    as [[err|u] w']; done.
Qed.

Lemma add_delivery_events_fields (deliveries : list Delivery) : forall i : Instance,
  UID (add_delivery_events i deliveries) = UID i
  /\ ParentID (add_delivery_events i deliveries) = ParentID i
  /\ status (add_delivery_events i deliveries) = status i
  /\ HistoryEvents (add_delivery_events i deliveries)
     = (HistoryEvents i
        ++ ((fun d => mkHistoryEvent (Payload d) (status i) "" "") <$> deliveries))%list.
Proof.
  induction deliveries as [|d rest IH]; intros i; simpl.
  - by rewrite app_nil_r.
  - destruct (IH (AddHistoryEvent i (Payload d) "" "")) as [Hu [Hp [Hs Hh]]].
    unfold add_delivery_events in *. rewrite Hu, Hp, Hs, Hh. simpl.
    by rewrite <- app_assoc.
Qed.

(** Within a turn the history grows by the received event, then by the
    deliveries in the order they were dispatched, all with the status the
    handler left. *)
Lemma with_turn_history_fields (execCtx : MessageExecutionCtx) (i : Instance)
    (deliveries : list Delivery) :
  let msg := Message execCtx in
  let saved := with_turn_history execCtx i deliveries in
  UID saved = UID i
  /\ ParentID saved = ParentID i
  /\ status saved = status i
  /\ HistoryEvents saved
     = (HistoryEvents i
        ++ mkHistoryEvent (msg_Payload msg) (status i) (msg_Origin msg) (msg_UID msg)
           :: ((fun d => mkHistoryEvent (Payload d) (status i) "" "") <$> deliveries))%list.
Proof.
  intros msg saved. subst saved. unfold with_turn_history. fold msg.
  destruct (add_delivery_events_fields deliveries
              (AddHistoryEvent i (msg_Payload msg) (msg_Origin msg) (msg_UID msg)))
    as [Hu [Hp [Hs Hh]]].
  rewrite Hu, Hp, Hs, Hh. simpl. by rewrite <- app_assoc.
Qed.

(** Whatever comes of it, the end of the turn starts with the update of
    the store. *)
Lemma persist_and_notify_trace (execCtx : MessageExecutionCtx) (i : Instance)
    (deliveries : list Delivery) (w : World) :
  let r := persist_and_notify env execCtx i deliveries w in
  mutex r.2 = mutex w
  /\ exists tail,
       trace r.2
       = (trace w ++ EvUpdate (with_turn_history execCtx i deliveries) :: tail)%list.
Proof.
  intros r. subst r.
  unfold persist_and_notify, mbind, M_bind, bind, wrapf, store_Update.
  destruct (Update (sagaStore w) (with_turn_history execCtx i deliveries)) as [[err|] s'];
    simpl.
  - split; [done|]. by exists [].
  - destruct (Completed _); [|split; [done|]; by exists []].
    case_bool_decide; [|split; [done|]; by exists []].
    unfold AddSagaId, Send. simpl.
    destruct (send_result env _ _); simpl; (split; [done|]);
      rewrite <- app_assoc; by eexists.
Qed.

(** The end of the turn for a completed instance that has a parent, when
    the update succeeds. *)
Lemma persist_and_notify_parent (execCtx : MessageExecutionCtx) (i : Instance)
    (deliveries : list Delivery) (w : World) (s' : S) :
  let l0 := msg_Headers (Message execCtx) in
  let saved := with_turn_history execCtx i deliveries in
  let to_parent := <[sagaUIDKey := ParentID i]> (headers_at l0 w) in
  let child := mkOutcomingMessage (SagaChildCompletedEvent (UID i)) to_parent in
  Update (sagaStore w) saved = (None, s') ->
  Completed (status i) = true ->
  ParentID i <> "" ->
  persist_and_notify env execCtx i deliveries w
  = (match send_result env child [] with
     | Some err => inl err
     | None => inr tt
     end,
     mkWorld (<[l0 := to_parent]> (heap w)) s' (mutex w)
             (trace w ++ [EvUpdate saved; EvSend child []])).
Proof.
  intros l0 saved to_parent child Hupd Hdone Hparent.
  destruct (with_turn_history_fields execCtx i deliveries) as [Hu [Hp [Hs _]]].
  fold saved in Hu, Hp, Hs.
  unfold persist_and_notify. fold saved. fold l0.
  unfold mbind, M_bind, bind, wrapf, store_Update. rewrite Hupd. simpl.
  rewrite Hs, Hdone, Hp, Hu. rewrite bool_decide_eq_true_2 by done.
  unfold AddSagaId, read_headers, Send, NewOutcomingMessage. simpl.
  rewrite headers_at_stamped. unfold headers_at. simpl.
  fold (headers_at l0 w). fold to_parent. fold child.
  destruct (send_result env child []); by rewrite <- app_assoc.
Qed.

(** The turn from its start to the end of the delivery loop, when a
    handler is found and returns no error. *)
Lemma Handle_handled (execCtx : MessageExecutionCtx) (w : World)
    (sagaId : string) (l : L) (i : Instance) (handler : Executor) (h : Handled) :
  let gk := GroupKindOf (msg_Payload (Message execCtx)) in
  headers_at (msg_Headers (Message execCtx)) w !! sagaUIDKey = Some sagaId ->
  Lock (mutex w) sagaId = (None, l) ->
  GetById (sagaStore w) sagaId = inr (Some i) ->
  Completed (status i) = false ->
  EventHandlers env (Saga i) !! gk = Some handler ->
  handler (Progress i) = inr h ->
  let body :=
    match send_deliveries env execCtx (after_handler (Progress i) h) (h_deliveries h)
            (mkWorld (heap w) (sagaStore w) l
               (trace w ++ [EvLock sagaId; EvGetById sagaId; EvHandler gk (Progress i)]))
    with
    | (inl err, w') => (inl err, w')
    | (inr _, w') =>
        persist_and_notify env execCtx (after_handler (Progress i) h) (h_deliveries h) w'
    end in
  Handle execCtx w
  = (body.1,
     mkWorld (heap body.2) (sagaStore body.2) (Release (mutex body.2) sagaId).2
             (trace body.2 ++ release_events sagaId (mutex body.2))).
Proof.
  intros gk Huid Hlock Hget Hlive Hfound Hrun body.
  rewrite (Handle_locked _ _ _ _ Huid Hlock), defer_release.
  rewrite (locked_turn_live execCtx
             (mkWorld (heap w) (sagaStore w) l (trace w ++ [EvLock sagaId]))
             sagaId i Hget Hlive).
  rewrite (dispatch_handled execCtx (Saga i) (Progress i) handler h _ Hfound Hrun).
  simpl. fold gk. rewrite <- !app_assoc. simpl.
  subst body.
  destruct (send_deliveries env execCtx (after_handler (Progress i) h) (h_deliveries h) _)
    as [[err|u] w']; done.
Qed.

(** When the store returns the instance it was asked for, the stamping of
    the delivery loop writes the value the incoming map already holds. *)
Lemma stamping_own_uid_keeps_contents (l0 : nat) (w : World) (sagaId : string)
    (i : Instance) :
  headers_at l0 w !! sagaUIDKey = Some sagaId ->
  UID i = sagaId ->
  <[sagaUIDKey := UID i]> (headers_at l0 w) = headers_at l0 w.
Proof. intros Huid ->. by apply insert_id. Qed.

(** C5, as amended: when the handler leaves the instance completed, the
    instance has a parent, every delivery is sent and the store is
    updated, the turn then sends one [SagaChildCompletedEvent] and nothing
    else; the message holds the headers of the incoming envelope, whose
    saga uid is by then the uid of the parent, and its payload carries the
    uid of the completed instance itself. *)
Theorem completed_child_notifies_parent
    (execCtx : MessageExecutionCtx) (w : World) (sagaId : string) (l : L)
    (i : Instance) (handler : Executor) (h : Handled) (s' : S) :
  let gk := GroupKindOf (msg_Payload (Message execCtx)) in
  let l0 := msg_Headers (Message execCtx) in
  headers_at l0 w !! sagaUIDKey = Some sagaId ->
  Lock (mutex w) sagaId = (None, l) ->
  GetById (sagaStore w) sagaId = inr (Some i) ->
  Completed (status i) = false ->
  EventHandlers env (Saga i) !! gk = Some handler ->
  handler (Progress i) = inr h ->
  h_status h = sagaStatusCompleted ->
  ParentID i <> "" ->
  let stamped := <[sagaUIDKey := UID i]> (headers_at l0 w) in
  Forall (fun d => send_result env (mkOutcomingMessage (Payload d) stamped) (Options d)
                   = None)
         (h_deliveries h) ->
  let saved := with_turn_history execCtx (after_handler (Progress i) h) (h_deliveries h) in
  Update (sagaStore w) saved = (None, s') ->
  let to_parent := <[sagaUIDKey := ParentID i]> (headers_at l0 w) in
  let child := mkOutcomingMessage (SagaChildCompletedEvent (UID i)) to_parent in
  let r := Handle execCtx w in
  trace r.2
  = (trace w
     ++ [EvLock sagaId; EvGetById sagaId; EvHandler gk (Progress i)]
     ++ delivery_sends stamped (h_deliveries h)
     ++ [EvUpdate saved; EvSend child []]
     ++ release_events sagaId l)%list
  /\ out_Headers child !! sagaUIDKey = Some (ParentID i)
  /\ out_Payload child = SagaChildCompletedEvent (UID i)
  /\ status saved = sagaStatusCompleted
  /\ r.1 = match send_result env child [] with
           | Some err => inl err
           | None => inr tt
           end.
Proof.
  intros gk l0 Huid Hlock Hget Hlive Hfound Hrun Hdone Hparent stamped Hsends saved Hupd
    to_parent child r.
  assert (Hstatus : status saved = sagaStatusCompleted).
  { subst saved.
    destruct (with_turn_history_fields execCtx (after_handler (Progress i) h)
                (h_deliveries h)) as [_ [_ [Hs _]]].
    rewrite Hs. exact Hdone. }
  subst r.
  rewrite (Handle_handled execCtx w sagaId l i handler h Huid Hlock Hget Hlive Hfound Hrun).
  fold gk.
  match goal with |- context [send_deliveries env execCtx ?i1 ?ds ?w1] =>
    pose proof (send_deliveries_spec execCtx i1 ds w1) as Hloop;
    destruct (send_deliveries env execCtx i1 ds w1) as [[err|u] w2] end;
    simpl in Hloop; fold l0 in Hloop;
    unfold headers_at in Hloop; simpl in Hloop; fold (headers_at l0 w) in Hloop;
    fold stamped in Hloop.
  { destruct Hloop as [_ [_ [_ [n [d [cause [Hn [Hc _]]]]]]]].
    exfalso. apply list_elem_of_lookup_2 in Hn.
    rewrite Forall_forall in Hsends. specialize (Hsends d Hn). congruence. }
  destruct Hloop as [Hs [Hm [Hh Htr]]].
  assert (Hupd' : Update (sagaStore w2) saved = (None, s')) by (by rewrite Hs).
  assert (Hdone' : Completed (status (after_handler (Progress i) h)) = true)
    by (simpl; by rewrite Hdone).
  rewrite (persist_and_notify_parent execCtx (after_handler (Progress i) h)
             (h_deliveries h) w2 s' Hupd' Hdone' Hparent).
  simpl. fold l0. fold saved.
  assert (Hto : <[sagaUIDKey := ParentID i]> (headers_at l0 w2) = to_parent).
  { unfold headers_at. rewrite Hh. destruct (h_deliveries h).
    - done.
    - rewrite lookup_insert_eq. simpl. apply insert_insert_eq. }
  rewrite Hto. fold child.
  split; [|split; [apply lookup_insert_eq|split; [done|split; [done|done]]]].
  rewrite Htr, Hm. by rewrite <- !app_assoc.
Qed.

End HandlerFacts.

(** ** Turns of a small saga *)

Section HandlerExamples.
Import SagaHandler Engine Demo.

Lemma Handle_rejects_absent_and_completed_witness :
  headers_at 0 (demo_world ∅) !! sagaUIDKey = Some "s1"
  /\ Lock (mutex (demo_world ∅)) "s1" = (None, ["s1"])
  /\ (Handle demo_env (mkExecCtx (incoming FooEvent)) (demo_world ∅)).1
     = inl (ErrSagaNotFound "s1")
  /\ (Handle demo_env (mkExecCtx (incoming FooEvent)) (demo_world finished)).1
     = inl (ErrSagaAlreadyCompleted "s1")
  /\ sagaStore (Handle demo_env (mkExecCtx (incoming FooEvent)) (demo_world finished)).2
     = finished.
Proof.
  assert (Huid : headers_at 0 (demo_world ∅) !! sagaUIDKey = Some "s1")
    by (vm_compute; reflexivity).
  assert (Hlock : Lock (mutex (demo_world ∅)) "s1" = (None, ["s1"])) by reflexivity.
  split; [exact Huid|]. split; [exact Hlock|].
  destruct (Handle_rejects_absent_and_completed demo_env
              (mkExecCtx (incoming FooEvent)) (demo_world ∅) "s1" ["s1"] Huid Hlock)
    as [Habsent _].
  destruct (Handle_rejects_absent_and_completed demo_env
              (mkExecCtx (incoming FooEvent)) (demo_world finished) "s1" ["s1"] Huid Hlock)
    as [_ Hdone].
  destruct (Habsent eq_refl) as [H1 _].
  destruct (Hdone (child_s1 sagaStatusCompleted) eq_refl eq_refl) as [H2 [H3 _]].
  split; [exact H1|]. split; [exact H2 | exact H3].
Defined.

Lemma completed_saga_is_acked_witness :
  headers_at 0 (demo_world finished) !! sagaUIDKey = Some "s1"
  /\ Lock (mutex (demo_world finished)) "s1" = (None, ["s1"])
  /\ GetById (sagaStore (demo_world finished)) "s1"
     = inr (Some (child_s1 sagaStatusCompleted))
  /\ Completed (status (child_s1 sagaStatusCompleted)) = true
  /\ (Handle demo_env (mkExecCtx (incoming FooEvent)) (demo_world finished)).1
     = inl (ErrSagaAlreadyCompleted "s1")
  /\ Subscriber.acked
       (Subscriber.processPackage msg_UID msg_Origin (sagaProcessor demo_env) quiet
          no_deadline (incoming FooEvent) (subscriber_on finished))
     = ["m1"].
Proof.
  assert (Huid : headers_at 0 (demo_world finished) !! sagaUIDKey = Some "s1")
    by (vm_compute; reflexivity).
  assert (Hlock : Lock (mutex (demo_world finished)) "s1" = (None, ["s1"]))
    by reflexivity.
  assert (Hget : GetById (sagaStore (demo_world finished)) "s1"
                 = inr (Some (child_s1 sagaStatusCompleted))) by reflexivity.
  split; [exact Huid|]. split; [exact Hlock|]. split; [exact Hget|].
  split; [reflexivity|].
  destruct (completed_saga_is_acked demo_env quiet no_deadline
              (subscriber_on finished) (incoming FooEvent) "s1" ["s1"]
              (child_s1 sagaStatusCompleted) Huid Hlock Hget eq_refl)
    as [Herr [_ [_ [_ Hack]]]].
  split; [exact Herr | exact Hack].
Defined.

Lemma missing_handler_is_not_an_error_witness :
  headers_at 0 (demo_world running) !! sagaUIDKey = Some "s1"
  /\ Lock (mutex (demo_world running)) "s1" = (None, ["s1"])
  /\ GetById (sagaStore (demo_world running)) "s1"
     = inr (Some (child_s1 sagaStatusInProgress))
  /\ Completed (status (child_s1 sagaStatusInProgress)) = false
  /\ EventHandlers demo_env Foo !! GroupKindOf OtherEvent = None
  /\ (Handle demo_env (mkExecCtx (incoming OtherEvent)) (demo_world running)).1 = inr tt
  /\ Subscriber.acked
       (Subscriber.processPackage msg_UID msg_Origin (sagaProcessor demo_env) quiet
          no_deadline (incoming OtherEvent) (subscriber_on running))
     = ["m1"].
Proof.
  assert (Huid : headers_at 0 (demo_world running) !! sagaUIDKey = Some "s1")
    by (vm_compute; reflexivity).
  assert (Hlock : Lock (mutex (demo_world running)) "s1" = (None, ["s1"])) by reflexivity.
  assert (Hget : GetById (sagaStore (demo_world running)) "s1"
                 = inr (Some (child_s1 sagaStatusInProgress))) by reflexivity.
  assert (Hnone : EventHandlers demo_env Foo !! GroupKindOf OtherEvent = None)
    by (vm_compute; reflexivity).
  split; [exact Huid|]. split; [exact Hlock|]. split; [exact Hget|].
  split; [reflexivity|]. split; [exact Hnone|].
  destruct (missing_handler_is_not_an_error demo_env quiet no_deadline
              (subscriber_on running) (incoming OtherEvent) "s1" ["s1"]
              (child_s1 sagaStatusInProgress) Huid Hlock Hget eq_refl Hnone)
    as [_ [_ [_ Hok]]].
  exact (Hok eq_refl).
Defined.

Lemma completed_child_notifies_parent_witness :
  headers_at 0 (demo_world running) !! sagaUIDKey = Some "s1"
  /\ Lock (mutex (demo_world running)) "s1" = (None, ["s1"])
  /\ GetById (sagaStore (demo_world running)) "s1"
     = inr (Some (child_s1 sagaStatusInProgress))
  /\ Completed (status (child_s1 sagaStatusInProgress)) = false
  /\ EventHandlers demo_env Foo !! GroupKindOf FooEvent = Some complete_on_foo
  /\ h_status (mkHandled Foo sagaStatusCompleted [mkDelivery BarCommand []])
     = sagaStatusCompleted
  /\ ParentID (child_s1 sagaStatusInProgress) <> ""
  /\ Forall (fun d => send_result demo_env
                        (mkOutcomingMessage (Payload d)
                           (<[sagaUIDKey := "s1"]> (headers_at 0 (demo_world running))))
                        (Options d)
                      = None)
            [mkDelivery BarCommand []]
  /\ completing_turn.1 = inr tt
  /\ trace completing_turn.2 !! 5
     = Some (EvSend (mkOutcomingMessage (SagaChildCompletedEvent "s1")
                       (<[sagaUIDKey := "s0"]> (headers_at 0 (demo_world running))))
                    []).
Proof.
  assert (Huid : headers_at 0 (demo_world running) !! sagaUIDKey = Some "s1")
    by (vm_compute; reflexivity).
  assert (Hlock : Lock (mutex (demo_world running)) "s1" = (None, ["s1"])) by reflexivity.
  assert (Hget : GetById (sagaStore (demo_world running)) "s1"
                 = inr (Some (child_s1 sagaStatusInProgress))) by reflexivity.
  assert (Hfound : EventHandlers demo_env Foo !! GroupKindOf FooEvent
                   = Some complete_on_foo) by (vm_compute; reflexivity).
  assert (Hparent : ParentID (child_s1 sagaStatusInProgress) <> "") by discriminate.
  assert (Hsends : Forall (fun d => send_result demo_env
                                      (mkOutcomingMessage (Payload d)
                                         (<[sagaUIDKey := "s1"]>
                                            (headers_at 0 (demo_world running))))
                                      (Options d)
                                    = None)
                          [mkDelivery BarCommand []]) by (repeat constructor).
  split; [exact Huid|]. split; [exact Hlock|]. split; [exact Hget|].
  split; [reflexivity|]. split; [exact Hfound|]. split; [reflexivity|].
  split; [exact Hparent|]. split; [exact Hsends|].
  set (saved := with_turn_history (mkExecCtx (incoming FooEvent))
                  (after_handler (Progress (child_s1 sagaStatusInProgress))
                     (mkHandled Foo sagaStatusCompleted [mkDelivery BarCommand []]))
                  [mkDelivery BarCommand []]).
  assert (Hupd : Update (sagaStore (demo_world running)) saved
                 = (None, <[UID saved := saved]> running)) by reflexivity.
  destruct (completed_child_notifies_parent demo_env (mkExecCtx (incoming FooEvent))
              (demo_world running) "s1" ["s1"] (child_s1 sagaStatusInProgress)
              complete_on_foo (mkHandled Foo sagaStatusCompleted [mkDelivery BarCommand []])
              (<[UID saved := saved]> running)
              Huid Hlock Hget eq_refl Hfound eq_refl eq_refl Hparent Hsends Hupd)
    as [Htrace [_ [_ [_ Hres]]]].
  split; [exact Hres|].
  unfold completing_turn. rewrite Htrace. reflexivity.
Defined.

(** C5, as stated, fails: the instance s1 completes, its parent is s0, and
    the one [SagaChildCompletedEvent] the turn sends carries the uid s1 in
    its payload, not the uid of the parent; its saga uid header is s0. *)
Lemma child_completed_event_carries_child_uid :
  (completing_turn.1 = inr tt)
  /\ (ParentID (child_s1 sagaStatusInProgress) = "s0")
  /\ match trace completing_turn.2 !! 5 with
     | Some (EvSend m _) =>
         out_Payload m = SagaChildCompletedEvent "s1"
         /\ out_Payload m <> SagaChildCompletedEvent "s0"
         /\ out_Headers m !! sagaUIDKey = Some "s0"
     | _ => False
     end.
Proof.
  split; [vm_compute; reflexivity|]. split; [reflexivity|].
  vm_compute. split; [reflexivity|]. split; [discriminate|reflexivity].
Qed.

End HandlerExamples.

(** ** The MySQL store: Create, Delete, and how the operations compose *)

Section MysqlStoreOperations.
Import MysqlStore.

(** X1: whenever [Create] returns an error the database is as it was.
    When it returns [nil], no saga had the instance's id, the saga table
    has gained exactly the instance's row, and the history table is as it
    was, whatever history the instance holds. *)
Theorem Create_inserts_the_saga_row_only
    (f : Faults) (exec_fails : bool) (db : DB) (i : Instance) :
  match Create f exec_fails db i with
  | (Some _, db') => db' = db
  | (None, db') =>
      saga_table db !! id i = None
      /\ exists payload,
           Marshal (saga i) = inr payload
           /\ saga_table db' = <[id i := saga_row_of i payload]> (saga_table db)
           /\ saga_history_table db' = saga_history_table db
  end.
Proof.
  unfold Create.
  destruct (Marshal (saga i)) as [err|payload] eqn:Hm; [done|].
  destruct (begin_fails f); [done|].
  unfold exec_insert_saga.
  destruct exec_fails; [done|].
  destruct (saga_table db !! id i) eqn:Hid; [done|].
  destruct (commit_fails f); [done|].
  split; [done|]. by exists payload.
Qed.

(** X2: creating an instance whose id is already in the saga table
    fails, whatever else happens, and leaves the database as it was; when
    nothing fails on the connection, the error is the duplicate key. *)
Theorem Create_rejects_an_existing_id
    (f : Faults) (exec_fails : bool) (db : DB) (i : Instance) :
  is_Some (saga_table db !! id i) ->
  (exists err, Create f exec_fails db i = (Some err, db))
  /\ (is_Some (obj_json (saga i)) ->
      Create no_faults false db i = (Some (ErrDuplicateKey (id i)), db)).
Proof.
  intros [row Hrow]. unfold Create, Marshal, exec_insert_saga. split.
  - destruct (obj_json (saga i)); [|by eexists].
    destruct (begin_fails f); [by eexists|].
    destruct exec_fails; [by eexists|].
    rewrite Hrow. by eexists.
  - intros [payload ->]. simpl. by rewrite Hrow.
Qed.

Lemma Create_rejects_an_existing_id_witness :
  is_Some (saga_table stale_db !! id stale_instance)
  /\ Create no_faults false stale_db stale_instance
     = (Some (ErrDuplicateKey "s1"), stale_db).
Proof.
  assert (Hid : is_Some (saga_table stale_db !! id stale_instance))
    by (by eexists; vm_compute).
  split; [exact Hid|].
  destruct (Create_rejects_an_existing_id no_faults false stale_db stale_instance Hid)
    as [_ Hdup].
  apply Hdup. by eexists.
Defined.

Lemma insert_events_none_inserted (f : Faults) (sagaId : string)
    (ids : gmap string string) (events : list HistoryEvent) (tx tx' : DB) :
  (forall m payload tx1,
      m ∈ events ->
      exec_insert_history f (history_row sagaId m payload) tx = inr tx1 -> False) ->
  insert_events f sagaId ids events tx = inr tx' ->
  tx' = tx.
Proof.
  induction events as [|m rest IH]; intros Hfail H; simpl in H.
  - by injection H as <-.
  - destruct (ids !! ID m).
    + apply IH; [|done]. intros m' p tx1 Hin. apply Hfail. by right.
    + destruct (Marshal (Payload m)) as [err|payload]; [discriminate|].
      destruct (exec_insert_history f (history_row sagaId m payload) tx)
        as [err|tx1] eqn:Hins; [discriminate|].
      exfalso. eapply Hfail; [left|exact Hins].
Qed.

Lemma alter_missing_row (row : sagaRow) (sagaId : string) (m : gmap string sagaRow) :
  m !! sagaId = None -> alter (fun _ => row) sagaId m = m.
Proof. intros Hnone. apply alter_id. intros x Hx. congruence. Qed.

Lemma Update_ok_body (f : Faults) (db db' : DB) (i : Instance) :
  Update f db i = (None, db') ->
  exists payload,
    Marshal (saga i) = inr payload
    /\ update_body f i (obj_name (saga i)) payload db = inr db'.
Proof.
  unfold Update. intros H.
  destruct (Marshal (saga i)) as [err|payload]; [discriminate|].
  destruct (begin_fails f); [discriminate|].
  destruct (update_body f i (obj_name (saga i)) payload db) as [err|tx] eqn:Hbody;
    [discriminate|].
  destruct (commit_fails f); [discriminate|].
  injection H as <-. by exists payload.
Qed.

Lemma Update_error_keeps (f : Faults) (db db' : DB) (i : Instance) (err : Error) :
  Update f db i = (Some err, db') -> db' = db.
Proof.
  unfold Update. intros H.
  destruct (Marshal (saga i)) as [e|payload]; [by injection H as _ <-|].
  destruct (begin_fails f); [by injection H as _ <-|].
  destruct (update_body f i (obj_name (saga i)) payload db) as [e|tx];
    [by injection H as _ <-|].
  destruct (commit_fails f); [by injection H as _ <-|discriminate].
Qed.

(** X3: an [Update] for an id that has no row in the saga table never
    changes the database: there is no row to overwrite, and every insert
    into the history breaks the foreign key. With nothing to insert it
    returns [nil] all the same. *)
Theorem Update_of_an_unknown_saga_changes_nothing
    (f : Faults) (db : DB) (i : Instance) :
  saga_table db !! id i = None ->
  (Update f db i).2 = db
  /\ (historyEvents i = [] -> is_Some (obj_json (saga i)) ->
      Update no_faults db i = (None, db)).
Proof.
  intros Hnone. split.
  - destruct (Update f db i) as [[err|] db'] eqn:HU; simpl.
    + by apply Update_error_keeps in HU.
    + apply Update_ok_body in HU as [payload [_ Hbody]].
      unfold update_body in Hbody.
      destruct (update_fails f); [discriminate|].
      destruct (query_fails f); [discriminate|].
      destruct (scan_ids f 0 _ ∅) as [err|ids]; [discriminate|].
      assert (Hsame : exec_update_saga i (obj_name (saga i)) payload db = db).
      { unfold exec_update_saga. rewrite alter_missing_row by done. by destruct db. }
      rewrite Hsame in Hbody.
      case_bool_decide; [|by injection Hbody as <-].
      eapply insert_events_none_inserted; [|exact Hbody].
      intros m p tx1 _. unfold exec_insert_history. simpl.
      destruct (insert_fails f (ID m)); [done|].
      case_bool_decide; [done|]. by rewrite Hnone.
  - intros Hnil [payload Hp]. unfold Update, Marshal, update_body. rewrite Hp. simpl.
    rewrite Hnil. simpl.
    destruct (scan_ids no_faults 0 _ ∅) as [err|ids] eqn:Hscan.
    + exfalso. revert Hscan. generalize (∅ : gmap string string). generalize 0.
      induction (select_history_ids _ _) as [|r rows IH]; intros n ids0; simpl; [done|].
      apply IH.
    + simpl. unfold exec_update_saga. rewrite alter_missing_row by done. by destruct db.
Qed.

Lemma scan_ids_full (f : Faults) (rows : list string) :
  rows_stop_at f = None -> forall i ids0 ids,
  scan_ids f i rows ids0 = inr ids ->
  ids = foldl (fun acc row => <[row := row]> acc) ids0 rows.
Proof.
  intros Hstop. induction rows as [|row rest IH]; intros i ids0 ids H; simpl in H.
  - by injection H as <-.
  - rewrite Hstop in H. rewrite bool_decide_eq_false_2 in H by done.
    case_bool_decide; [discriminate|]. simpl. by eapply IH.
Qed.

Lemma insert_events_all_in_table (f : Faults) (sagaId : string)
    (ids : gmap string string) (events : list HistoryEvent) (tx tx' : DB) :
  (forall m, m ∈ events -> ID m ∈ h_id <$> saga_history_table tx) ->
  insert_events f sagaId ids events tx = inr tx' ->
  tx' = tx.
Proof.
  intros Hin. apply insert_events_none_inserted.
  intros m p tx1 Hm. unfold exec_insert_history. simpl.
  destruct (insert_fails f (ID m)); [done|].
  rewrite bool_decide_eq_true_2 by (by apply Hin). done.
Qed.

Lemma update_saga_twice (i : Instance) (n p : string) (tx : DB) :
  exec_update_saga i n p (exec_update_saga i n p tx) = exec_update_saga i n p tx.
Proof.
  unfold exec_update_saga. simpl. f_equal.
  apply map_eq. intros k. rewrite !lookup_alter.
  repeat case_decide; try done.
  match goal with |- context [saga_table ?t !! ?j] => by destruct (saga_table t !! j) end.
Qed.

(** X4: saving the same instance a second time never changes the store.
    After an [Update] that returned [nil], another [Update] of the same
    instance leaves the database as the first left it, whichever of its
    statements fails, provided both cursors over the persisted ids are
    read to their end. *)
Theorem Update_twice_changes_nothing
    (f1 f2 : Faults) (db db1 : DB) (i : Instance) :
  rows_stop_at f1 = None ->
  rows_stop_at f2 = None ->
  Update f1 db i = (None, db1) ->
  (Update f2 db1 i).2 = db1.
Proof.
  intros Hstop1 Hstop2 HU1.
  destruct (Update f2 db1 i) as [[err|] db2] eqn:HU2; simpl;
    [by apply Update_error_keeps in HU2|].
  apply Update_ok_body in HU1 as [payload [Hm Hbody1]].
  apply Update_ok_body in HU2 as [payload2 [Hm2 Hbody2]].
  assert (payload2 = payload) as -> by congruence.
  unfold update_body in Hbody1, Hbody2.
  destruct (update_fails f1); [discriminate|].
  destruct (query_fails f1); [discriminate|].
  destruct (update_fails f2); [discriminate|].
  destruct (query_fails f2); [discriminate|].
  rewrite select_after_update in Hbody1, Hbody2.
  destruct (scan_ids f1 0 (select_history_ids (id i) db) ∅) as [e|ids1] eqn:Hscan1;
    [discriminate|].
  destruct (scan_ids f2 0 (select_history_ids (id i) db1) ∅) as [e|ids2] eqn:Hscan2;
    [discriminate|].
  set (tx := exec_update_saga i (obj_name (saga i)) payload db) in *.
  destruct (bool_decide (size ids1 < length (historyEvents i))) eqn:Hguard1.
  - (* the first update inserted what was missing: every event is in the table *)
    pose proof Hbody1 as Hins.
    apply insert_events_inr in Hins as [Hs [rows [Hh Hrows]]].
    assert (Hall : forall m, m ∈ historyEvents i ->
                             ID m ∈ h_id <$> saga_history_table db1).
    { intros m Hin. rewrite Hh, fmap_app, elem_of_app.
      destruct (ids1 !! ID m) as [x|] eqn:Hid.
      - left. assert (Hsel : ID m ∈ select_history_ids (id i) db).
        { destruct (scan_ids_sound _ _ _ _ _ Hscan1 (ID m)) as [H|H];
            [by eexists| |done]. rewrite lookup_empty in H. by destruct H. }
        unfold select_history_ids in Hsel.
        apply list_elem_of_fmap in Hsel as [r [-> Hr]].
        apply list_elem_of_filter in Hr as [_ Hr].
        apply list_elem_of_fmap. by exists r.
      - right.
        assert (Hm' : m ∈ filter (fun m => ids1 !! ID m = None) (historyEvents i))
          by (by apply list_elem_of_filter).
        apply list_elem_of_lookup in Hm' as [k Hk].
        destruct (Forall2_lookup_l _ _ _ _ _ Hrows Hk) as [r [Hr [p [_ ->]]]].
        apply list_elem_of_fmap. exists (history_row (id i) m p).
        split; [done|]. by apply list_elem_of_lookup_2 in Hr. }
    assert (Hsame : exec_update_saga i (obj_name (saga i)) payload db1 = db1).
    { unfold exec_update_saga. destruct db1 as [st1 ht1]. simpl in *.
      f_equal. rewrite Hs. subst tx. simpl.
      apply map_eq. intros k. rewrite !lookup_alter.
      repeat case_decide; try done.
      all: by destruct (saga_table db !! id i). }
    rewrite Hsame in Hbody2.
    case_bool_decide; [|by injection Hbody2 as <-].
    by eapply insert_events_all_in_table.
  - (* the first update inserted nothing, and the second reads the same ids *)
    injection Hbody1 as <-.
    assert (Hsel : select_history_ids (id i) tx = select_history_ids (id i) db)
      by reflexivity.
    rewrite Hsel in Hscan2.
    apply (scan_ids_full _ _ Hstop1) in Hscan1.
    apply (scan_ids_full _ _ Hstop2) in Hscan2.
    assert (ids2 = ids1) as -> by congruence.
    rewrite Hguard1 in Hbody2. injection Hbody2 as <-.
    subst tx. apply update_saga_twice.
Qed.

Lemma Update_twice_changes_nothing_witness :
  rows_stop_at no_faults = None
  /\ (Update no_faults stale_db stale_instance).1 = None
  /\ (Update no_faults (Update no_faults stale_db stale_instance).2 stale_instance).2
     = (Update no_faults stale_db stale_instance).2.
Proof.
  assert (HU : Update no_faults stale_db stale_instance
               = (None, (Update no_faults stale_db stale_instance).2))
    by (by vm_compute).
  split; [reflexivity|]. split; [by vm_compute|].
  exact (Update_twice_changes_nothing no_faults no_faults stale_db _ stale_instance
           eq_refl eq_refl HU).
Defined.

Lemma Create_ok_inv (f : Faults) (exec_fails : bool) (db db1 : DB) (i : Instance) :
  Create f exec_fails db i = (None, db1) ->
  saga_table db !! id i = None
  /\ exists payload,
       Marshal (saga i) = inr payload
       /\ db1 = mkDB (<[id i := saga_row_of i payload]> (saga_table db))
                     (saga_history_table db).
Proof.
  unfold Create, exec_insert_saga. intros H.
  destruct (Marshal (saga i)) as [err|payload]; [discriminate|].
  destruct (begin_fails f); [discriminate|].
  destruct exec_fails; [discriminate|].
  destruct (saga_table db !! id i); [discriminate|].
  destruct (commit_fails f); [discriminate|].
  injection H as <-. split; [done|]. by exists payload.
Qed.

Lemma Create_error_keeps (f : Faults) (exec_fails : bool) (db db1 : DB)
    (i : Instance) (err : Error) :
  Create f exec_fails db i = (Some err, db1) -> db1 = db.
Proof.
  unfold Create, exec_insert_saga. intros H.
  destruct (Marshal (saga i)) as [e|payload]; [by injection H as _ <-|].
  destruct (begin_fails f); [by injection H as _ <-|].
  destruct exec_fails; [by injection H as _ <-|].
  destruct (saga_table db !! id i); [by injection H as _ <-|].
  destruct (commit_fails f); [by injection H as _ <-|discriminate].
Qed.

(** No history row refers to a saga that has no row. *)
Lemma no_history_of_an_unknown_saga (db : DB) (sagaId : string) :
  history_refers_to_sagas db ->
  saga_table db !! sagaId = None ->
  filter (fun r => h_saga_id r = sagaId) (saga_history_table db) = []
  /\ filter (fun r => h_saga_id r ≠ sagaId) (saga_history_table db)
     = saga_history_table db.
Proof.
  unfold history_refers_to_sagas. intros Hfk Hnone.
  induction Hfk as [|r rows Hr _ IH]; [done|].
  assert (Hne : h_saga_id r ≠ sagaId).
  { intros Heq. rewrite Heq, Hnone in Hr. by destruct Hr. }
  destruct IH as [IH1 IH2]. split.
  - by rewrite filter_cons_False.
  - rewrite filter_cons_True by done. by rewrite IH2.
Qed.

Lemma insert_events_fresh (sagaId : string) (events : list HistoryEvent) :
  forall tx : DB,
  is_Some (saga_table tx !! sagaId) ->
  Forall (fun m => is_Some (obj_json (Payload m))) events ->
  NoDup (ID <$> events) ->
  (forall m, m ∈ events -> ID m ∉ h_id <$> saga_history_table tx) ->
  insert_events no_faults sagaId ∅ events tx
  = inr (mkDB (saga_table tx)
              (saga_history_table tx ++ (event_row sagaId <$> events))).
Proof.
  induction events as [|m rest IH]; intros tx Hsaga Hmarshal Hnodup Hfresh; simpl.
  - rewrite app_nil_r. by destruct tx.
  - rewrite lookup_empty.
    apply Forall_cons in Hmarshal as [[payload Hp] Hmarshal].
    rewrite fmap_cons in Hnodup. apply NoDup_cons in Hnodup as [Hm Hnodup].
    unfold Marshal. rewrite Hp.
    unfold exec_insert_history. simpl.
    rewrite bool_decide_eq_false_2 by (apply Hfresh; left).
    destruct Hsaga as [row Hrow]. rewrite Hrow.
    rewrite IH; simpl.
    + unfold event_row at 2. rewrite Hp. simpl. by rewrite <- app_assoc.
    + by eexists.
    + done.
    + done.
    + intros m' Hin. rewrite fmap_app, elem_of_app. intros [Hold|Hnew].
      * by apply (Hfresh m'); [right|].
      * simpl in Hnew. apply list_elem_of_singleton in Hnew.
        apply Hm. rewrite <- Hnew. by apply list_elem_of_fmap_2.
Qed.

Lemma Create_then_Update_result (db : DB) (i : Instance) :
  history_refers_to_sagas db ->
  saga_table db !! id i = None ->
  is_Some (obj_json (saga i)) ->
  Forall (fun m => is_Some (obj_json (Payload m))) (historyEvents i) ->
  NoDup (ID <$> historyEvents i) ->
  (forall m, m ∈ historyEvents i -> ID m ∉ h_id <$> saga_history_table db) ->
  exists payload db1,
    Marshal (saga i) = inr payload
    /\ Create no_faults false db i = (None, db1)
    /\ Update no_faults db1 i
       = (None,
          mkDB (<[id i := saga_row_of i payload]> (saga_table db))
               (saga_history_table db ++ (event_row (id i) <$> historyEvents i))).
Proof.
  intros Hfk Hnew [payload Hp] Hmarshal Hnodup Hfresh.
  exists payload, (mkDB (<[id i := saga_row_of i payload]> (saga_table db))
                        (saga_history_table db)).
  split; [unfold Marshal; by rewrite Hp|].
  split.
  { unfold Create, Marshal, exec_insert_saga. rewrite Hp. simpl. by rewrite Hnew. }
  set (db1 := mkDB (<[id i := saga_row_of i payload]> (saga_table db))
                   (saga_history_table db)).
  assert (Htx : exec_update_saga i (obj_name (saga i)) payload db1 = db1).
  { unfold exec_update_saga, db1. simpl. by rewrite alter_insert_eq. }
  assert (Hids : select_history_ids (id i) db1 = []).
  { unfold select_history_ids, db1. simpl.
    destruct (no_history_of_an_unknown_saga db (id i) Hfk Hnew) as [Hnone _].
    by rewrite Hnone. }
  unfold Update, Marshal. rewrite Hp. simpl.
  unfold update_body. simpl. rewrite Htx, Hids. simpl.
  destruct (historyEvents i) as [|m rest] eqn:Hev.
  - simpl. by rewrite app_nil_r.
  - rewrite bool_decide_eq_true_2 by (rewrite map_size_empty; simpl; lia).
    rewrite <- Hev in *.
    rewrite insert_events_fresh; simpl; try done.
    by rewrite lookup_insert_eq.
Qed.

(** X5: after a [Create], an [Update] of the same instance persists its
    whole history. For an instance whose id is new, whose saga and events
    marshal, and whose event ids are distinct and not yet in the history
    table, [Create] then [Update], with nothing failing on the
    connection, leave the saga's row and, after the rows that were there,
    one history row per event, in the order of the events. *)
Theorem Create_then_Update_persists_the_history (db : DB) (i : Instance) :
  history_refers_to_sagas db ->
  saga_table db !! id i = None ->
  is_Some (obj_json (saga i)) ->
  Forall (fun m => is_Some (obj_json (Payload m))) (historyEvents i) ->
  NoDup (ID <$> historyEvents i) ->
  (forall m, m ∈ historyEvents i -> ID m ∉ h_id <$> saga_history_table db) ->
  exists payload db1,
    Marshal (saga i) = inr payload
    /\ Create no_faults false db i = (None, db1)
    /\ Update no_faults db1 i
       = (None,
          mkDB (<[id i := saga_row_of i payload]> (saga_table db))
               (saga_history_table db ++ (event_row (id i) <$> historyEvents i))).
Proof. apply Create_then_Update_result. Qed.

Lemma Create_then_Update_persists_the_history_witness :
  history_refers_to_sagas stale_db
  /\ saga_table stale_db !! id fresh_instance = None
  /\ NoDup (ID <$> historyEvents fresh_instance)
  /\ (h_id <$> saga_history_table
                (Update no_faults (Create no_faults false stale_db fresh_instance).2
                        fresh_instance).2)
     = ["a"; "b"; "c"; "x"; "y"].
Proof.
  assert (Hfk : history_refers_to_sagas stale_db)
    by (repeat constructor; by eexists; vm_compute).
  assert (Hnew : saga_table stale_db !! id fresh_instance = None) by (by vm_compute).
  assert (Hmarshal : Forall (fun m => is_Some (obj_json (Payload m)))
                            (historyEvents fresh_instance))
    by (repeat constructor; by eexists).
  assert (Hnodup : NoDup (ID <$> historyEvents fresh_instance))
    by (apply (bool_decide_unpack _); by vm_compute).
  assert (Hfresh : forall m, m ∈ historyEvents fresh_instance ->
                             ID m ∉ h_id <$> saga_history_table stale_db).
  { intros m Hin. simpl in Hin.
    apply elem_of_cons in Hin as [->|Hin];
      [apply (bool_decide_unpack _); by vm_compute|].
    apply list_elem_of_singleton in Hin as ->.
    apply (bool_decide_unpack _); by vm_compute. }
  split; [exact Hfk|]. split; [exact Hnew|]. split; [exact Hnodup|].
  destruct (Create_then_Update_persists_the_history stale_db fresh_instance
              Hfk Hnew ltac:(by eexists) Hmarshal Hnodup Hfresh)
    as [payload [db1 [_ [HC HU]]]].
  rewrite HC. simpl. rewrite HU. reflexivity.
Defined.

Lemma filter_twice {A} (P : A -> Prop) `{forall x, Decision (P x)} (l : list A) :
  filter P (filter P l) = filter P l.
Proof.
  induction l as [|x l IH]; [done|].
  rewrite (filter_cons P x l). destruct (decide (P x)); [|done].
  rewrite filter_cons_True by done. by rewrite IH.
Qed.

Lemma filter_out_then_in {A} (P : A -> Prop) `{forall x, Decision (P x)} (l : list A) :
  filter P (filter (fun x => ¬ P x) l) = [].
Proof.
  induction l as [|x l IH]; [done|].
  rewrite (filter_cons (fun x => ¬ P x) x l). destruct (decide (¬ P x)); [|done].
  by rewrite filter_cons_False.
Qed.

(** X6: [Delete] never touches the row or the history of another saga.
    When the statement runs, no row of the saga is left, and the history
    rows of a saga that was there are gone with it, also when reading the
    number of deleted rows then fails; it returns [nil] exactly when a row
    was there (and nothing fails). For an id that has no row nothing
    changes. *)
Theorem Delete_removes_the_saga_and_its_history
    (exec_fails response_fails : bool) (db : DB) (sagaId : string) :
  let r := Delete exec_fails response_fails db sagaId in
  (forall k, k <> sagaId -> saga_table r.2 !! k = saga_table db !! k)
  /\ filter (fun row => h_saga_id row ≠ sagaId) (saga_history_table r.2)
     = filter (fun row => h_saga_id row ≠ sagaId) (saga_history_table db)
  /\ (exec_fails = false ->
      saga_table r.2 !! sagaId = None
      /\ (is_Some (saga_table db !! sagaId) ->
          filter (fun row => h_saga_id row = sagaId) (saga_history_table r.2) = []))
  /\ (exec_fails = false -> response_fails = false ->
      (r.1 = None <-> is_Some (saga_table db !! sagaId)))
  /\ (saga_table db !! sagaId = None -> r.2 = db).
Proof.
  intros r. subst r. unfold Delete, exec_delete_saga.
  destruct exec_fails; simpl.
  { repeat split; try done. }
  destruct (saga_table db !! sagaId) as [row|] eqn:Hrow.
  - pose proof (filter_out_then_in (fun row => h_saga_id row = sagaId)
                  (saga_history_table db)) as Hgone.
    pose proof (filter_twice (fun row => h_saga_id row ≠ sagaId)
                  (saga_history_table db)) as Hkeep.
    destruct response_fails; simpl.
    all: split; [intros k Hk; by rewrite lookup_delete_ne|].
    all: split; [exact Hkeep|].
    all: split; [intros _; split; [apply lookup_delete_eq|intros _; exact Hgone]|].
    all: split; [|discriminate].
    + discriminate.
    + intros _ _. split; [by eexists|done].
  - destruct response_fails; simpl.
    all: split; [done|].
    all: split; [done|].
    all: split; [intros _; split; [done|by intros [x Hx]]|].
    all: split; [|done].
    + discriminate.
    + intros _ _. split; [done|by intros [x Hx]].
Qed.

Lemma insert_history_keeps_constraints (f : Faults) (r : historyRow) (tx tx' : DB) :
  constraints_hold tx ->
  exec_insert_history f r tx = inr tx' ->
  saga_table tx' = saga_table tx /\ constraints_hold tx'.
Proof.
  intros [Hpk Hfk] H. unfold exec_insert_history in H.
  destruct (insert_fails f (h_id r)); [discriminate|].
  case_bool_decide as Hfresh; [discriminate|].
  destruct (saga_table tx !! h_saga_id r) as [row|] eqn:Hrow; [|discriminate].
  injection H as <-. split; [done|]. split.
  - unfold history_ids_unique in *. simpl. rewrite fmap_app. simpl.
    apply NoDup_app. split; [done|]. split; [|apply NoDup_singleton].
    intros x Hx Hin. apply list_elem_of_singleton in Hin. by subst.
  - unfold history_refers_to_sagas in *. simpl.
    apply Forall_app. split; [done|]. constructor; [|done]. by eexists.
Qed.

Lemma insert_events_keep_constraints (f : Faults) (sagaId : string)
    (ids : gmap string string) (events : list HistoryEvent) : forall tx tx',
  constraints_hold tx ->
  insert_events f sagaId ids events tx = inr tx' ->
  constraints_hold tx'.
Proof.
  induction events as [|m rest IH]; intros tx tx' Hc H; simpl in H.
  - by injection H as <-.
  - destruct (ids !! ID m); [by eapply IH|].
    destruct (Marshal (Payload m)) as [err|payload]; [discriminate|].
    destruct (exec_insert_history f (history_row sagaId m payload) tx)
      as [err|tx1] eqn:Hins; [discriminate|].
    apply (insert_history_keeps_constraints _ _ _ _ Hc) in Hins as [_ Hc1].
    by eapply IH.
Qed.

(** X7: the store's operations keep the keys of the schema. If the ids of
    the history rows are unique and every history row refers to a row of
    the saga table, this still holds after [Create], after [Update] and
    after [Delete], whatever they return. *)
Theorem store_operations_keep_the_constraints
    (f : Faults) (exec_fails response_fails : bool) (db : DB) (i : Instance)
    (sagaId : string) :
  constraints_hold db ->
  constraints_hold (Create f exec_fails db i).2
  /\ constraints_hold (Update f db i).2
  /\ constraints_hold (Delete exec_fails response_fails db sagaId).2.
Proof.
  intros Hc. split; [|split].
  - destruct (Create f exec_fails db i) as [[err|] db1] eqn:HC; simpl.
    + by rewrite (Create_error_keeps _ _ _ _ _ _ HC).
    + apply Create_ok_inv in HC as [_ [payload [_ ->]]].
      destruct Hc as [Hpk Hfk]. split; [done|].
      unfold history_refers_to_sagas in *. simpl.
      eapply Forall_impl; [exact Hfk|]. intros r [row Hr]. simpl.
      destruct (decide (id i = h_saga_id r)) as [->|Hne].
      * rewrite lookup_insert_eq. by eexists.
      * rewrite lookup_insert_ne by done. by eexists.
  - destruct (Update f db i) as [[err|] db1] eqn:HU; simpl.
    + by rewrite (Update_error_keeps _ _ _ _ _ HU).
    + apply Update_ok_body in HU as [payload [_ Hbody]].
      unfold update_body in Hbody.
      destruct (update_fails f); [discriminate|].
      destruct (query_fails f); [discriminate|].
      destruct (scan_ids f 0 _ ∅) as [err|ids]; [discriminate|].
      assert (Hc1 : constraints_hold (exec_update_saga i (obj_name (saga i)) payload db)).
      { destruct Hc as [Hpk Hfk]. split; [done|].
        unfold history_refers_to_sagas in *. simpl.
        eapply Forall_impl; [exact Hfk|]. intros r [row Hr]. simpl.
        destruct (decide (id i = h_saga_id r)) as [Heq|Hne].
        - rewrite Heq, lookup_alter_eq, Hr. by eexists.
        - rewrite lookup_alter_ne by done. by eexists. }
      case_bool_decide; [|by injection Hbody as <-].
      by eapply insert_events_keep_constraints.
  - unfold Delete, exec_delete_saga.
    destruct exec_fails; [done|].
    destruct (saga_table db !! sagaId) as [row|] eqn:Hrow.
    + assert (Hc1 : constraints_hold
                      (mkDB (delete sagaId (saga_table db))
                            (filter (fun r => h_saga_id r ≠ sagaId)
                                    (saga_history_table db)))).
      { destruct Hc as [Hpk Hfk]. split.
        - unfold history_ids_unique in *. simpl.
          apply (sublist_NoDup _ (h_id <$> saga_history_table db));
            [exact Hpk|apply fmap_sublist, sublist_filter].
        - unfold history_refers_to_sagas in *. simpl.
          apply Forall_forall. intros r Hr.
          apply list_elem_of_filter in Hr as [Hne Hr].
          rewrite Forall_forall in Hfk. specialize (Hfk r Hr).
          by rewrite lookup_delete_ne. }
      destruct response_fails; [done|]. simpl. done.
    + destruct response_fails; done.
Qed.

Lemma store_operations_keep_the_constraints_witness :
  constraints_hold stale_db
  /\ constraints_hold (Update no_faults stale_db stale_instance).2
  /\ constraints_hold (Delete false false stale_db "s1").2.
Proof.
  assert (Hc : constraints_hold stale_db).
  { split.
    - apply (bool_decide_unpack _). by vm_compute.
    - repeat constructor; by eexists; vm_compute. }
  split; [exact Hc|].
  exact (proj2 (store_operations_keep_the_constraints no_faults false false stale_db
                  stale_instance "s1" Hc)).
Defined.

(** X8: deleting a saga that has just been created gives back the
    database as it was before the creation, when every history row
    referred to a saga. *)
Theorem Create_then_Delete_restores_the_database
    (f : Faults) (exec_fails : bool) (db db1 : DB) (i : Instance) :
  history_refers_to_sagas db ->
  Create f exec_fails db i = (None, db1) ->
  Delete false false db1 (id i) = (None, db).
Proof.
  intros Hfk HC. apply Create_ok_inv in HC as [Hnew [payload [_ ->]]].
  unfold Delete, exec_delete_saga. simpl. rewrite lookup_insert_eq. simpl.
  rewrite delete_insert_eq, delete_id by done.
  destruct (no_history_of_an_unknown_saga db (id i) Hfk Hnew) as [_ Hkeep].
  rewrite Hkeep. by destruct db.
Qed.

Lemma Create_then_Delete_restores_the_database_witness :
  history_refers_to_sagas stale_db
  /\ (Create no_faults false stale_db fresh_instance).1 = None
  /\ Delete false false (Create no_faults false stale_db fresh_instance).2 "s2"
     = (None, stale_db).
Proof.
  assert (Hfk : history_refers_to_sagas stale_db)
    by (repeat constructor; by eexists; vm_compute).
  assert (HC : Create no_faults false stale_db fresh_instance
               = (None, (Create no_faults false stale_db fresh_instance).2))
    by (by vm_compute).
  split; [exact Hfk|]. split; [by vm_compute|].
  exact (Create_then_Delete_restores_the_database no_faults false stale_db _
           fresh_instance Hfk HC).
Defined.

Lemma append_assoc3 (a b c : string) : (a +:+ b) +:+ c = a +:+ (b +:+ c).
Proof.
  induction a as [|ch a IH]; [reflexivity|].
  change (String ch ((a +:+ b) +:+ c) = String ch (a +:+ (b +:+ c))).
  by rewrite IH.
Qed.

Lemma append_conditions_step (query c : string) (i n : nat) (rest : list string) :
  append_conditions query i n (c :: rest)
  = append_conditions
      (if bool_decide (i = n - 1)
       then (if bool_decide (i < n - 1) then (query +:+ c) +:+ " AND" else query +:+ c)
            +:+ ";"
       else if bool_decide (i < n - 1) then (query +:+ c) +:+ " AND" else query +:+ c)
      (Datatypes.S i) n rest.
Proof. reflexivity. Qed.

(** The loop over the conditions puts AND after every condition but the
    last and a semicolon after the last. *)
Lemma append_conditions_joins (conditions : list string) : forall query i n,
  conditions <> [] ->
  i + length conditions = n ->
  append_conditions query i n conditions = query +:+ join_and conditions +:+ ";".
Proof.
  induction conditions as [|c rest IH]; intros query i n Hne Hn; [done|].
  rewrite append_conditions_step. simpl in Hn. destruct rest as [|c' rest'].
  - simpl in *.
    rewrite (bool_decide_eq_true_2 (i = n - 1)) by lia.
    rewrite (bool_decide_eq_false_2 (i < n - 1)) by lia.
    by rewrite append_assoc3.
  - simpl in Hn.
    rewrite (bool_decide_eq_true_2 (i < n - 1)) by lia.
    rewrite (bool_decide_eq_false_2 (i = n - 1)) by lia.
    rewrite (IH _ (Datatypes.S i) n) by (done || (simpl; lia)).
    cbn [join_and]. by rewrite !append_assoc3.
Qed.

Lemma conditions_of_set (opts : filterOptions) :
  conditions_of opts = (snd <$> set_conditions opts, fst <$> set_conditions opts).
Proof.
  unfold conditions_of, set_conditions, add_condition.
  rewrite !filter_cons, filter_nil. simpl.
  repeat case_bool_decide; repeat case_decide; simpl in *; done.
Qed.

(** X9: when the filters leave at least one option that is not empty,
    [GetByFilter] sends exactly one query: the join, then one condition
    per option that is set, in the order id, status, type, with AND
    between them and a semicolon at the end; its arguments are the values
    of these options, one per condition. The result is what the rows of
    that query give. *)
Theorem GetByFilter_sends_one_query {Inst : Type}
    (rows_of : Query -> Error + list Inst) (filters : list FilterOption) :
  filters <> [] ->
  set_conditions (options_of filters) <> [] ->
  let set := set_conditions (options_of filters) in
  let query := mkQuery (select_join +:+ join_and (snd <$> set) +:+ ";") (fst <$> set) in
  GetByFilter rows_of filters = (rows_of query, [query])
  /\ length (q_args query) = length (snd <$> set)
  /\ Forall (fun arg => arg <> "") (q_args query).
Proof.
  intros Hne Hset set query. split; [|split].
  - unfold GetByFilter. rewrite bool_decide_eq_false_2 by (by destruct filters).
    fold (options_of filters). rewrite conditions_of_set. fold set.
    assert (Hconds : snd <$> set <> []).
    { intros H. apply fmap_nil_inv in H. by apply Hset. }
    rewrite bool_decide_eq_false_2 by (intros H; by apply nil_length_inv in H).
    by rewrite append_conditions_joins.
  - subst query. simpl. by rewrite !length_fmap.
  - subst query set. simpl. apply Forall_fmap.
    unfold set_conditions. apply Forall_forall. intros p Hp.
    by apply list_elem_of_filter in Hp as [Hp _].
Qed.

Lemma GetByFilter_sends_one_query_witness :
  [FilterStatus "failed"; FilterSagaUID ""; FilterSagaType "Foo"; FilterStatus "completed"]
  <> []
  /\ (GetByFilter (Inst := Instance) (fun _ => inr [])
         [FilterStatus "failed"; FilterSagaUID ""; FilterSagaType "Foo";
          FilterStatus "completed"]).2
     = [mkQuery (select_join +:+ " s.status = ? AND s.name = ?;") ["completed"; "Foo"]].
Proof.
  assert (Hne : [FilterStatus "failed"; FilterSagaUID ""; FilterSagaType "Foo";
                 FilterStatus "completed"] <> []) by discriminate.
  split; [exact Hne|].
  destruct (GetByFilter_sends_one_query (Inst := Instance) (fun _ => inr [])
              [FilterStatus "failed"; FilterSagaUID ""; FilterSagaType "Foo";
               FilterStatus "completed"] Hne ltac:(by vm_compute))
    as [HG _].
  rewrite HG. by vm_compute.
Defined.

End MysqlStoreOperations.

(** ** The MySQL store: reading back *)

Section MysqlStoreLoading.
Import MysqlStore.

Context {V St MT : Type}.
Variable codec : Codec V St MT.

#[local] Instance created_before_total : Total created_before.
Proof. intros r1 r2. unfold created_before. lia. Qed.

#[local] Instance created_before_trans : Transitive created_before.
Proof. intros r1 r2 r3. unfold created_before. lia. Qed.

(** The loop of [queryEvents] decodes the rows in their order, up to the
    row where the cursor breaks. *)
Lemma scan_events_decodes (f : ReadFaults) (rows : list historyRow) :
  forall i messages broke result,
  scan_events codec f i rows messages = inr (broke, result) ->
  exists decoded n,
    result = (messages ++ decoded)%list
    /\ Forall2 (fun r e => eventFromModel codec r = inr e) (take n rows) decoded
    /\ (broke = false -> n = length rows)
    /\ (broke = true -> is_Some (events_rows_stop_at f)).
Proof.
  induction rows as [|r rest IH]; intros i messages broke result H; simpl in H.
  - injection H as <- <-. exists [], 0. rewrite app_nil_r.
    repeat split; first [done | constructor].
  - case_bool_decide as Hstop.
    { injection H as <- <-. exists [], 0. rewrite app_nil_r.
      repeat split; first [done | constructor | intros _; rewrite Hstop; by eexists]. }
    case_bool_decide; [discriminate|].
    destruct (eventFromModel codec r) as [err|e] eqn:He; [discriminate|].
    destruct (IH _ _ _ _ H) as [decoded [n [-> [Hdec [Hall Hbroke]]]]].
    exists (e :: decoded), (Datatypes.S n). rewrite <- app_assoc. simpl.
    repeat split; try done.
    + by constructor.
    + intros Hb. by rewrite (Hall Hb).
Qed.

Lemma eventFromModel_fields (r : historyRow) (e : LoadedEvent V MT) :
  eventFromModel codec r = inr e ->
  le_ID e = h_id r /\ le_CreatedAt e = h_created_at r
  /\ Unmarshal codec (h_name r) (h_payload r) = Some (le_Payload e).
Proof.
  unfold eventFromModel. intros H.
  destruct (LoadType codec (h_name r)); [|discriminate]. simpl in H.
  destruct (Unmarshal codec (h_name r) (h_payload r)); [|discriminate].
  destruct (ParseMessageType codec (h_type r)); [|discriminate].
  by injection H as <-.
Qed.

Lemma decoded_sorted (rows : list historyRow) (events : list (LoadedEvent V MT)) :
  StronglySorted created_before rows ->
  Forall2 (fun r e => eventFromModel codec r = inr e) rows events ->
  StronglySorted (fun e1 e2 => (le_CreatedAt e1 <= le_CreatedAt e2)%Z) events.
Proof.
  intros Hsorted Hdec. revert Hsorted.
  induction Hdec as [|r e rows events He Hdec IH]; intros Hsorted; [constructor|].
  apply StronglySorted_inv in Hsorted as [Hrest Hr].
  constructor; [by apply IH|].
  apply eventFromModel_fields in He as [_ [Hat _]].
  clear IH Hrest. induction Hdec as [|r' e' rows events He' Hdec IH]; [constructor|].
  apply Forall_cons in Hr as [Hr' Hr].
  constructor; [|by apply IH].
  apply eventFromModel_fields in He' as [_ [Hat' _]].
  unfold created_before in Hr'. lia.
Qed.

Lemma take_sorted {A} (R : relation A) (n : nat) (l : list A) :
  StronglySorted R l -> StronglySorted R (take n l).
Proof.
  intros H. rewrite <- (take_drop n l) in H. by apply StronglySorted_app_1_l in H.
Qed.

Lemma scan_events_reads (f : ReadFaults) (rows : list historyRow)
    (events : list (LoadedEvent V MT)) :
  events_scan_fails_at f = None ->
  events_rows_stop_at f = None ->
  Forall2 (fun r e => eventFromModel codec r = inr e) rows events ->
  forall i messages,
    scan_events codec f i rows messages = inr (false, (messages ++ events)%list).
Proof.
  intros Hscan Hstop Hdec.
  induction Hdec as [|r e rows events He Hdec IH]; intros i messages; simpl.
  - by rewrite app_nil_r.
  - rewrite Hscan, Hstop. rewrite !bool_decide_eq_false_2 by done.
    rewrite He, IH. by rewrite <- app_assoc.
Qed.

(** X10: what [GetById] returns. When the query of the row fails it
    returns that error; else, for an id that has no row, it returns
    neither an instance nor an error. When the row is there, the registry
    decodes it and every history row of the saga, and nothing fails on
    the connection, it returns the instance with the id asked for, the
    parent and the times of the row, the decoded status and saga, and the
    decoded history rows of the saga in the order of their creation.
    Whenever it returns an instance, the instance has these fields, its
    history is ordered by creation time, every event of it is decoded from
    a history row of that saga, and unless the cursor broke there is one
    event per such row; whenever it returns an error, the query of the
    row, the decoding of the row or the reading of the events failed with
    it. *)
Theorem GetById_reads_the_row_and_its_history
    (f : ReadFaults) (db : DB) (sagaId : string) :
  (row_query_fails f = true -> GetById codec f db sagaId = inl ErrQueryRow)
  /\ (row_query_fails f = false -> saga_table db !! sagaId = None ->
      GetById codec f db sagaId = inr None)
  /\ (forall row inst events,
        row_query_fails f = false ->
        saga_table db !! sagaId = Some row ->
        instanceFromModel codec sagaId row = inr inst ->
        events_query_fails f = false ->
        events_scan_fails_at f = None ->
        events_rows_stop_at f = None ->
        Forall2 (fun r e => eventFromModel codec r = inr e)
                (select_events sagaId db) events ->
        GetById codec f db sagaId
        = inr (Some (mkLoadedInstance sagaId (li_status inst) (s_parent_id row) events
                       (s_started_at row) (s_updated_at row) (li_saga inst))))
  /\ match GetById codec f db sagaId with
     | inl err =>
         (row_query_fails f = true /\ err = ErrQueryRow)
         \/ (exists row,
               saga_table db !! sagaId = Some row
               /\ (instanceFromModel codec sagaId row = inl err
                   \/ queryEvents codec f db sagaId = inl err))
     | inr None => row_query_fails f = false /\ saga_table db !! sagaId = None
     | inr (Some li) =>
         exists row,
           saga_table db !! sagaId = Some row
           /\ li_id li = sagaId
           /\ li_parentID li = s_parent_id row
           /\ li_startedAt li = s_started_at row
           /\ li_updatedAt li = s_updated_at row
           /\ StatusFromStr codec (s_status row) = Some (li_status li)
           /\ Unmarshal codec (s_name row) (s_payload row) = Some (li_saga li)
           /\ is_Saga codec (li_saga li) = true
           /\ StronglySorted (fun e1 e2 => (le_CreatedAt e1 <= le_CreatedAt e2)%Z)
                             (li_historyEvents li)
           /\ Forall (fun e => exists r,
                                 r ∈ saga_history_table db /\ h_saga_id r = sagaId
                                 /\ eventFromModel codec r = inr e)
                     (li_historyEvents li)
           /\ (events_rows_stop_at f = None ->
               length (li_historyEvents li)
               = length (filter (fun r => h_saga_id r = sagaId) (saga_history_table db)))
     end.
Proof.
  split; [|split; [|split]].
  - intros Hfails. unfold GetById. by rewrite Hfails.
  - intros Hquery Hnone. unfold GetById. by rewrite Hquery, Hnone.
  - intros row inst events Hquery Hrow Hinst Hevents Hscan Hstop Hdec.
    unfold GetById, queryEvents. rewrite Hquery, Hrow, Hinst, Hevents.
    rewrite (scan_events_reads f _ events Hscan Hstop Hdec). simpl.
    unfold instanceFromModel in Hinst.
    destruct (StatusFromStr codec (s_status row)); [|discriminate].
    destruct (LoadType codec (s_name row)); [|discriminate]. simpl in Hinst.
    destruct (Unmarshal codec (s_name row) (s_payload row)); [|discriminate].
    destruct (is_Saga codec v); [|discriminate]. simpl in Hinst.
    by injection Hinst as <-.
  - unfold GetById.
    destruct (row_query_fails f); [by left|].
    destruct (saga_table db !! sagaId) as [row|] eqn:Hrow; [|done].
    destruct (instanceFromModel codec sagaId row) as [err|inst] eqn:Hinst.
    { right. exists row. split; [done|]. by left. }
    destruct (queryEvents codec f db sagaId) as [err|messages] eqn:Hquery.
    { right. exists row. split; [done|]. by right. }
    unfold instanceFromModel in Hinst.
    destruct (StatusFromStr codec (s_status row)) as [st|] eqn:Hst; [|discriminate].
    destruct (LoadType codec (s_name row)); [|discriminate]. simpl in Hinst.
    destruct (Unmarshal codec (s_name row) (s_payload row)) as [v|] eqn:Hv;
      [|discriminate].
    destruct (is_Saga codec v) eqn:Hsaga; [|discriminate]. simpl in Hinst.
    injection Hinst as <-. simpl.
    unfold queryEvents in Hquery.
    destruct (events_query_fails f); [discriminate|].
    destruct (scan_events codec f 0 (select_events sagaId db) []) as [err|[broke result]]
      eqn:Hscan; [discriminate|].
    assert (Hsorted : StronglySorted created_before (select_events sagaId db))
      by (unfold select_events; apply StronglySorted_merge_sort; apply _).
    assert (Hperm : select_events sagaId db
                    ≡ₚ filter (fun r => h_saga_id r = sagaId) (saga_history_table db))
      by apply merge_sort_Permutation.
    apply scan_events_decodes in Hscan as [decoded [n [-> [Hdec [Hall Hbroke]]]]].
    simpl in *.
    destruct broke.
    { injection Hquery as <-.
      exists row. repeat split; try done; simpl; try constructor.
      intros Hstop. destruct (Hbroke eq_refl) as [k Hk]. congruence. }
    injection Hquery as <-.
    exists row. simpl. repeat split; try done.
    + eapply decoded_sorted; [|exact Hdec]. by apply take_sorted.
    + apply Forall_forall. intros e He.
      apply list_elem_of_lookup in He as [k Hk].
      destruct (Forall2_lookup_r _ _ _ _ _ Hdec Hk) as [r [Hr Her]].
      exists r. apply list_elem_of_lookup_2 in Hr.
      apply (fun H => elem_of_sublist _ _ _ H (sublist_take _ _)) in Hr.
      rewrite Hperm in Hr. apply list_elem_of_filter in Hr as [Hid Hr]. done.
    + intros _. rewrite <- (Forall2_length _ _ _ Hdec), (Hall eq_refl).
      rewrite firstn_all. by rewrite Hperm.
Qed.

Lemma scan_events_all (decode : historyRow -> LoadedEvent V MT)
    (rows : list historyRow) : forall i messages,
  (forall r, r ∈ rows -> eventFromModel codec r = inr (decode r)) ->
  scan_events codec no_read_faults i rows messages
  = inr (false, (messages ++ (decode <$> rows))%list).
Proof.
  induction rows as [|r rest IH]; intros i messages Hdec; simpl.
  - by rewrite app_nil_r.
  - rewrite (Hdec r) by left.
    rewrite IH by (intros r' Hr'; apply Hdec; by right).
    by rewrite <- app_assoc.
Qed.

(** X11: what [Create] wrote, [GetById] reads back, without any history.
    After a [Create] that returned [nil], and when the registry decodes
    the saga and its status, [GetById] returns the instance with its id,
    parent, times, status and saga, and with an empty history, also when
    the created instance held history events. *)
Theorem Create_then_GetById_reads_it_back
    (f : Faults) (exec_fails : bool) (db db1 : DB) (i : Instance) (st : St) (v : V) :
  history_refers_to_sagas db ->
  Create f exec_fails db i = (None, db1) ->
  StatusFromStr codec (status i) = Some st ->
  LoadType codec (obj_name (saga i)) = true ->
  (forall payload, Marshal (saga i) = inr payload ->
                   Unmarshal codec (obj_name (saga i)) payload = Some v) ->
  is_Saga codec v = true ->
  GetById codec no_read_faults db1 (id i)
  = inr (Some (mkLoadedInstance (id i) st (parentID i) [] (startedAt i) (updatedAt i) v)).
Proof.
  intros Hfk HC Hst Hload Hdec Hsaga.
  apply Create_ok_inv in HC as [Hnew [payload [Hm ->]]].
  unfold GetById. simpl. rewrite lookup_insert_eq.
  unfold instanceFromModel, saga_row_of. simpl.
  rewrite Hst, Hload, (Hdec _ Hm), Hsaga. simpl.
  unfold queryEvents, select_events. simpl.
  destruct (no_history_of_an_unknown_saga db (id i) Hfk Hnew) as [-> _].
  reflexivity.
Qed.

(** X12: what [Create] and [Update] wrote, [GetById] reads back. In the
    setting of X5, and when the registry decodes the saga, its status and
    the row of every event, [GetById] then returns the instance with its
    saga and status and with one decoded event per event of the instance,
    ordered by creation time. *)
Theorem saved_history_is_read_back
    (db : DB) (i : Instance) (st : St) (v : V)
    (decode : historyRow -> LoadedEvent V MT) :
  history_refers_to_sagas db ->
  saga_table db !! id i = None ->
  is_Some (obj_json (saga i)) ->
  Forall (fun m => is_Some (obj_json (Payload m))) (historyEvents i) ->
  NoDup (ID <$> historyEvents i) ->
  (forall m, m ∈ historyEvents i -> ID m ∉ h_id <$> saga_history_table db) ->
  StatusFromStr codec (status i) = Some st ->
  LoadType codec (obj_name (saga i)) = true ->
  (forall payload, Marshal (saga i) = inr payload ->
                   Unmarshal codec (obj_name (saga i)) payload = Some v) ->
  is_Saga codec v = true ->
  (forall m, m ∈ historyEvents i ->
             eventFromModel codec (event_row (id i) m)
             = inr (decode (event_row (id i) m))) ->
  exists db1 db2 history,
    Create no_faults false db i = (None, db1)
    /\ Update no_faults db1 i = (None, db2)
    /\ GetById codec no_read_faults db2 (id i)
       = inr (Some (mkLoadedInstance (id i) st (parentID i) history
                                     (startedAt i) (updatedAt i) v))
    /\ history ≡ₚ decode <$> (event_row (id i) <$> historyEvents i)
    /\ StronglySorted (fun e1 e2 => (le_CreatedAt e1 <= le_CreatedAt e2)%Z) history.
Proof.
  intros Hfk Hnew Hsj Hmarshal Hnodup Hfresh Hst Hload Hdec Hsaga Hevents.
  destruct (Create_then_Update_result db i Hfk Hnew Hsj Hmarshal Hnodup Hfresh)
    as [payload [db1 [Hm [HC HU]]]].
  set (rows := event_row (id i) <$> historyEvents i) in *.
  exists db1, (mkDB (<[id i := saga_row_of i payload]> (saga_table db))
                    (saga_history_table db ++ rows)),
    (decode <$> merge_sort created_before rows).
  split; [exact HC|]. split; [exact HU|].
  assert (Hsel : select_events (id i)
                   (mkDB (<[id i := saga_row_of i payload]> (saga_table db))
                         (saga_history_table db ++ rows))
                 = merge_sort created_before rows).
  { unfold select_events. simpl. rewrite filter_app.
    destruct (no_history_of_an_unknown_saga db (id i) Hfk Hnew) as [-> _]. simpl.
    f_equal. subst rows. clear. induction (historyEvents i) as [|m l IH]; [done|].
    rewrite fmap_cons, filter_cons_True by done. by rewrite IH. }
  assert (Hrows : forall r, r ∈ merge_sort created_before rows ->
                            eventFromModel codec r = inr (decode r)).
  { intros r Hr. rewrite merge_sort_Permutation in Hr.
    apply list_elem_of_fmap in Hr as [m [-> Hm']]. by apply Hevents. }
  split; [|split].
  - unfold GetById. simpl. rewrite lookup_insert_eq.
    unfold instanceFromModel, saga_row_of. simpl.
    rewrite Hst, Hload, (Hdec _ Hm), Hsaga. simpl.
    unfold queryEvents. simpl. fold (saga_row_of i payload). rewrite Hsel.
    by rewrite (scan_events_all decode).
  - by rewrite merge_sort_Permutation.
  - eapply decoded_sorted.
    + apply StronglySorted_merge_sort; apply _.
    + apply Forall2_fmap_r, Forall_Forall2_diag, Forall_forall. exact Hrows.
Qed.

End MysqlStoreLoading.

Section MysqlStoreLoadingExamples.
Import MysqlStore.

Lemma Create_then_GetById_reads_it_back_witness :
  history_refers_to_sagas stale_db
  /\ (Create no_faults false stale_db fresh_instance).1 = None
  /\ historyEvents fresh_instance <> []
  /\ GetById text_codec no_read_faults
             (Create no_faults false stale_db fresh_instance).2 "s2"
     = inr (Some (mkLoadedInstance "s2" "created" "" [] None None "{}")).
Proof.
  assert (Hfk : history_refers_to_sagas stale_db)
    by (repeat constructor; by eexists; vm_compute).
  assert (HC : Create no_faults false stale_db fresh_instance
               = (None, (Create no_faults false stale_db fresh_instance).2))
    by (by vm_compute).
  split; [exact Hfk|]. split; [by vm_compute|]. split; [discriminate|].
  apply (Create_then_GetById_reads_it_back text_codec no_faults false stale_db _
           fresh_instance "created" "{}" Hfk HC); try reflexivity.
  intros payload Hp. vm_compute in Hp. by injection Hp as <-.
Defined.

Lemma saved_history_is_read_back_witness :
  history_refers_to_sagas stale_db
  /\ saga_table stale_db !! id fresh_instance = None
  /\ NoDup (ID <$> historyEvents fresh_instance)
  /\ exists db1 db2 history,
       Create no_faults false stale_db fresh_instance = (None, db1)
       /\ Update no_faults db1 fresh_instance = (None, db2)
       /\ GetById text_codec no_read_faults db2 "s2"
          = inr (Some (mkLoadedInstance "s2" "created" "" history None None "{}"))
       /\ history ≡ₚ text_event <$> (event_row "s2" <$> historyEvents fresh_instance)
       /\ StronglySorted (fun e1 e2 => (le_CreatedAt e1 <= le_CreatedAt e2)%Z) history.
Proof.
  assert (Hfk : history_refers_to_sagas stale_db)
    by (repeat constructor; by eexists; vm_compute).
  assert (Hnew : saga_table stale_db !! id fresh_instance = None) by (by vm_compute).
  assert (Hmarshal : Forall (fun m => is_Some (obj_json (Payload m)))
                            (historyEvents fresh_instance))
    by (repeat constructor; by eexists).
  assert (Hnodup : NoDup (ID <$> historyEvents fresh_instance))
    by (apply (bool_decide_unpack _); by vm_compute).
  assert (Hfresh : forall m, m ∈ historyEvents fresh_instance ->
                             ID m ∉ h_id <$> saga_history_table stale_db).
  { intros m Hin. simpl in Hin.
    apply elem_of_cons in Hin as [->|Hin];
      [apply (bool_decide_unpack _); by vm_compute|].
    apply list_elem_of_singleton in Hin as ->.
    apply (bool_decide_unpack _); by vm_compute. }
  assert (Hevents : forall m, m ∈ historyEvents fresh_instance ->
                      eventFromModel text_codec (event_row (id fresh_instance) m)
                      = inr (text_event (event_row (id fresh_instance) m))).
  { intros m Hin. simpl in Hin.
    apply elem_of_cons in Hin as [->|Hin]; [by vm_compute|].
    apply list_elem_of_singleton in Hin as ->. by vm_compute. }
  split; [exact Hfk|]. split; [exact Hnew|]. split; [exact Hnodup|].
  apply (saved_history_is_read_back text_codec stale_db fresh_instance "created" "{}"
           text_event Hfk Hnew ltac:(by eexists) Hmarshal Hnodup Hfresh);
    try reflexivity; [|exact Hevents].
  intros payload Hp. vm_compute in Hp. by injection Hp as <-.
Defined.

Lemma GetById_reads_the_row_and_its_history_witness :
  saga_table stale_db !! "s9" = None
  /\ GetById text_codec no_read_faults stale_db "s9" = inr None
  /\ GetById text_codec (mkReadFaults true false None None) stale_db "s9"
     = inl ErrQueryRow
  /\ GetById text_codec no_read_faults stale_db "s1"
     = inr (Some (mkLoadedInstance "s1" "in_progress" ""
                    (text_event <$> saga_history_table stale_db) None None "{}")).
Proof.
  assert (Hnone : saga_table stale_db !! "s9" = None) by (by vm_compute).
  destruct (GetById_reads_the_row_and_its_history text_codec no_read_faults stale_db "s9")
    as [_ [Habsent _]].
  destruct (GetById_reads_the_row_and_its_history text_codec
              (mkReadFaults true false None None) stale_db "s9")
    as [Hfails _].
  destruct (GetById_reads_the_row_and_its_history text_codec no_read_faults stale_db "s1")
    as [_ [_ [Hreads _]]].
  split; [exact Hnone|]. split; [exact (Habsent eq_refl Hnone)|].
  split; [exact (Hfails eq_refl)|].
  apply (Hreads (mkSagaRow "" "Foo" "{}" "in_progress" None None)
                (mkLoadedInstance "s1" "in_progress" "" [] None None "{}")
                (text_event <$> saga_history_table stale_db));
    try reflexivity; try (by vm_compute).
  vm_compute. repeat constructor.
Defined.

End MysqlStoreLoadingExamples.

(** ** The saga events handler: how a turn ends *)

Section HandlerTurns.
Import SagaHandler Engine.

Context {S L : Type} `{!Store S, !Mutex L}.
Variable env : Env.
Variable transport : Subscriber.Transport ReceivedMessage Error.

Local Abbreviation World := (World S L).
Local Abbreviation Handle := (Handle (S := S) (L := L) env).

(** [processPackage] acks exactly when the turn returns no error, or an
    error of the kind that is acked all the same. *)
Lemma processPackage_of_the_turn (ctx : Subscriber.Context)
    (st : Subscriber.State World Error) (inPkg : ReceivedMessage) :
  Subscriber.acked
    (Subscriber.processPackage msg_UID msg_Origin (sagaProcessor env) transport
       ctx inPkg st)
  = match (Handle (mkExecCtx inPkg) (Subscriber.world st)).1 with
    | inl err => if acked_all_the_same err
                 then (Subscriber.acked st ++ [msg_UID inPkg])%list
                 else Subscriber.acked st
    | inr _ => (Subscriber.acked st ++ [msg_UID inPkg])%list
    end.
Proof.
  unfold Subscriber.processPackage, sagaProcessor.
  destruct (Handle (mkExecCtx inPkg) (Subscriber.world st)) as [[err|u] w']; simpl.
  - destruct (acked_all_the_same err); simpl; [|done].
    by destruct (Subscriber.ack_result transport inPkg).
  - by destruct (Subscriber.ack_result transport inPkg).
Qed.

(** X13: a turn that does not get the mutex does nothing. Without a saga
    uid in the headers the turn fails and the world is as it was; when
    [Lock] fails the mutex is asked once and nothing else happens: the
    store is not read, nothing is sent, and the mutex is not released. In
    both cases the envelope is not acked. *)
Theorem turn_without_the_mutex_does_nothing
    (ctx : Subscriber.Context) (st : Subscriber.State World Error)
    (inPkg : ReceivedMessage) :
  let w := Subscriber.world st in
  let r := Handle (mkExecCtx inPkg) w in
  let st' := Subscriber.processPackage msg_UID msg_Origin (sagaProcessor env)
                                       transport ctx inPkg st in
  (headers_at (msg_Headers inPkg) w !! sagaUIDKey = None ->
   r = (inl (Wrapf ErrSagaUIDMissing (ExtractingSagaId (msg_UID inPkg))), w)
   /\ Subscriber.acked st' = Subscriber.acked st)
  /\ (forall sagaId err l,
        headers_at (msg_Headers inPkg) w !! sagaUIDKey = Some sagaId ->
        Lock (mutex w) sagaId = (Some err, l) ->
        r = (inl (Wrapf err Stack),
             mkWorld (heap w) (sagaStore w) l (trace w ++ [EvLock sagaId]))
        /\ Subscriber.acked st' = Subscriber.acked st).
Proof.
  intros w r st'. split.
  - intros Hnone.
    assert (Hr : r = (inl (Wrapf ErrSagaUIDMissing (ExtractingSagaId (msg_UID inPkg))), w)).
    { subst r. unfold SagaHandler.Handle, mbind, M_bind, bind, wrapf, ExtractSagaUID.
      simpl. by rewrite Hnone. }
    split; [done|]. subst st'. rewrite processPackage_of_the_turn. fold w. fold r.
    by rewrite Hr.
  - intros sagaId err l Huid Hlock.
    assert (Hr : r = (inl (Wrapf err Stack),
                      mkWorld (heap w) (sagaStore w) l (trace w ++ [EvLock sagaId]))).
    { subst r. unfold SagaHandler.Handle, mbind, M_bind, bind, wrapf, ExtractSagaUID,
        mutex_Lock. simpl. by rewrite Huid, Hlock. }
    split; [done|]. subst st'. rewrite processPackage_of_the_turn. fold w. fold r.
    by rewrite Hr.
Qed.

(** X30: when the store fails to load the instance the turn stops
    there: the error is returned, wrapped; no handler is run, nothing is
    sent, the store is not updated, the mutex is released, and the
    envelope is not acked. *)
Theorem failed_load_aborts_the_turn
    (ctx : Subscriber.Context) (st : Subscriber.State World Error)
    (inPkg : ReceivedMessage) (sagaId : string) (l : L) (err : Error) :
  let w := Subscriber.world st in
  headers_at (msg_Headers inPkg) w !! sagaUIDKey = Some sagaId ->
  Lock (mutex w) sagaId = (None, l) ->
  GetById (sagaStore w) sagaId = inl err ->
  let r := Handle (mkExecCtx inPkg) w in
  let st' := Subscriber.processPackage msg_UID msg_Origin (sagaProcessor env)
                                       transport ctx inPkg st in
  r.1 = inl (Wrapf err (RetrievingSaga sagaId))
  /\ trace r.2
     = (trace w ++ [EvLock sagaId; EvGetById sagaId] ++ release_events sagaId l)%list
  /\ sagaStore r.2 = sagaStore w
  /\ heap r.2 = heap w
  /\ Subscriber.acked st' = Subscriber.acked st.
Proof.
  intros w Huid Hlock Hget r st'.
  assert (Hr : r = (inl (Wrapf err (RetrievingSaga sagaId)),
                    mkWorld (heap w) (sagaStore w) (Release l sagaId).2
                            (trace w ++ [EvLock sagaId; EvGetById sagaId]
                             ++ release_events sagaId l))).
  { subst r.
    rewrite (Handle_locked env (mkExecCtx inPkg) w sagaId l Huid Hlock), defer_release.
    unfold locked_turn, mbind, M_bind, bind, wrapf, store_GetById. simpl.
    rewrite Hget. simpl. by rewrite <- !app_assoc. }
  subst st'. rewrite processPackage_of_the_turn. fold w. fold r.
  rewrite Hr. done.
Qed.

(** The turn from its start to the handler's answer. *)
Lemma Handle_handler_failed (execCtx : MessageExecutionCtx) (w : World)
    (sagaId : string) (l : L) (i : Instance) (handler : Executor) (err : Error) :
  let gk := GroupKindOf (msg_Payload (Message execCtx)) in
  headers_at (msg_Headers (Message execCtx)) w !! sagaUIDKey = Some sagaId ->
  Lock (mutex w) sagaId = (None, l) ->
  GetById (sagaStore w) sagaId = inr (Some i) ->
  Completed (status i) = false ->
  EventHandlers env (Saga i) !! gk = Some handler ->
  handler (Progress i) = inl err ->
  Handle execCtx w
  = (inl (Wrapf err (HandlingEvent gk (msg_UID (Message execCtx)))),
     mkWorld (heap w) (sagaStore w) (Release l sagaId).2
             (trace w
              ++ [EvLock sagaId; EvGetById sagaId; EvHandler gk (Progress i);
                  EvLog ErrorLevel
                    (LogHandlingFailed gk (msg_UID (Message execCtx)) err)]
              ++ release_events sagaId l)).
Proof.
  intros gk Huid Hlock Hget Hlive Hfound Hrun.
  rewrite (Handle_locked env execCtx w sagaId l Huid Hlock), defer_release.
  rewrite (locked_turn_live env execCtx
             (mkWorld (heap w) (sagaStore w) l (trace w ++ [EvLock sagaId]))
             sagaId i Hget Hlive).
  unfold dispatch. fold gk. rewrite Hfound.
  unfold mbind, M_bind, bind, catch, run_handler, emit, fail. rewrite Hrun. simpl.
  by rewrite <- !app_assoc.
Qed.

(** X14: when the saga's handler returns an error the turn stops there:
    the error is logged and returned, wrapped; nothing is sent, the store
    is not updated, the headers are not written, the mutex is released,
    and the envelope is not acked. *)
Theorem handler_error_aborts_the_turn
    (ctx : Subscriber.Context) (st : Subscriber.State World Error)
    (inPkg : ReceivedMessage) (sagaId : string) (l : L) (i : Instance)
    (handler : Executor) (err : Error) :
  let w := Subscriber.world st in
  let gk := GroupKindOf (msg_Payload inPkg) in
  headers_at (msg_Headers inPkg) w !! sagaUIDKey = Some sagaId ->
  Lock (mutex w) sagaId = (None, l) ->
  GetById (sagaStore w) sagaId = inr (Some i) ->
  Completed (status i) = false ->
  EventHandlers env (Saga i) !! gk = Some handler ->
  handler (Progress i) = inl err ->
  let r := Handle (mkExecCtx inPkg) w in
  let st' := Subscriber.processPackage msg_UID msg_Origin (sagaProcessor env)
                                       transport ctx inPkg st in
  r.1 = inl (Wrapf err (HandlingEvent gk (msg_UID inPkg)))
  /\ trace r.2
     = (trace w
        ++ [EvLock sagaId; EvGetById sagaId; EvHandler gk (Progress i);
            EvLog ErrorLevel (LogHandlingFailed gk (msg_UID inPkg) err)]
        ++ release_events sagaId l)%list
  /\ sagaStore r.2 = sagaStore w
  /\ heap r.2 = heap w
  /\ Subscriber.acked st' = Subscriber.acked st.
Proof.
  intros w gk Huid Hlock Hget Hlive Hfound Hrun r st'.
  pose proof (Handle_handler_failed (mkExecCtx inPkg) w sagaId l i handler err
                Huid Hlock Hget Hlive Hfound Hrun) as Hr.
  fold r in Hr. simpl in Hr. fold gk in Hr.
  subst st'. rewrite processPackage_of_the_turn. fold w. fold r.
  rewrite Hr. done.
Qed.

(** The delivery loop when every send succeeds. *)
Lemma send_deliveries_sent (execCtx : MessageExecutionCtx) (i : Instance)
    (deliveries : list Delivery) (w : World) :
  let l0 := msg_Headers (Message execCtx) in
  let stamped := <[sagaUIDKey := UID i]> (headers_at l0 w) in
  Forall (fun d => send_result env (mkOutcomingMessage (Payload d) stamped) (Options d)
                   = None)
         deliveries ->
  send_deliveries env execCtx i deliveries w
  = (inr tt,
     mkWorld (match deliveries with
              | [] => heap w
              | _ => <[l0 := stamped]> (heap w)
              end)
             (sagaStore w) (mutex w)
             (trace w ++ delivery_sends stamped deliveries)).
Proof.
  intros l0 stamped Hsends.
  pose proof (send_deliveries_spec env execCtx i deliveries w) as Hloop.
  destruct (send_deliveries env execCtx i deliveries w) as [[err|[]] w2];
    simpl in Hloop; fold l0 in Hloop; fold stamped in Hloop.
  - destruct Hloop as [_ [_ [_ [n [d [cause [Hn [Hc _]]]]]]]].
    exfalso. apply list_elem_of_lookup_2 in Hn.
    rewrite Forall_forall in Hsends. specialize (Hsends d Hn). congruence.
  - destruct Hloop as [Hs [Hm [Hh Htr]]]. destruct w2 as [hp st mx tr].
    simpl in *. by subst.
Qed.

(** The delivery loop when a send fails after [sent] went out. *)
Lemma send_deliveries_stops (execCtx : MessageExecutionCtx) (i : Instance)
    (d : Delivery) (rest : list Delivery) (cause : Error) (stamped : Headers)
    (sent : list Delivery) :
  let l0 := msg_Headers (Message execCtx) in
  Forall (fun d => send_result env (mkOutcomingMessage (Payload d) stamped) (Options d)
                   = None)
         sent ->
  send_result env (mkOutcomingMessage (Payload d) stamped) (Options d) = Some cause ->
  forall w : World,
    <[sagaUIDKey := UID i]> (headers_at l0 w) = stamped ->
    send_deliveries env execCtx i (sent ++ d :: rest) w
    = (inl (Wrapf cause (SendingDelivery (UID i) d)),
       mkWorld (<[l0 := stamped]> (heap w)) (sagaStore w) (mutex w)
               (trace w ++ delivery_sends stamped (sent ++ [d])
                ++ [EvLog ErrorLevel (LogSendFailed (UID i) d cause)])).
Proof.
  intros l0 Hsent Hfail.
  induction sent as [|d0 sent IH]; intros w Hstamped.
  - simpl.
    unfold mbind, M_bind, bind, AddSagaId, read_headers, catch, Send,
      NewOutcomingMessage, emit, fail.
    simpl. fold l0. rewrite headers_at_stamped, Hstamped, Hfail. simpl.
    unfold delivery_sends. simpl. by rewrite <- !app_assoc.
  - apply Forall_cons in Hsent as [Hd0 Hsent]. simpl.
    unfold mbind, M_bind, bind, AddSagaId, read_headers, catch, Send,
      NewOutcomingMessage, emit, fail.
    simpl. fold l0. rewrite headers_at_stamped, Hstamped, Hd0. simpl.
    match goal with |- context [send_deliveries env execCtx i _ ?w1] =>
      specialize (IH Hsent w1); set (w' := w1) in * end.
    assert (Hat : <[sagaUIDKey := UID i]> (headers_at l0 w') = stamped).
    { subst w'. rewrite headers_at_stamped. rewrite <- Hstamped.
      apply insert_insert_eq. }
    rewrite (IH Hat). subst w'. simpl.
    rewrite insert_insert_eq. unfold delivery_sends. simpl.
    by rewrite <- !app_assoc.
Qed.

(** X15: when the send of a delivery fails, the turn stops there. The
    deliveries before it have been sent and stay sent, the ones after it
    are not sent, the failure is logged and returned, wrapped; the store
    is not updated, so the history keeps no trace of what was sent; the
    mutex is released and the envelope is not acked. *)
Theorem failed_send_aborts_the_turn
    (ctx : Subscriber.Context) (st : Subscriber.State World Error)
    (inPkg : ReceivedMessage) (sagaId : string) (l : L) (i : Instance)
    (handler : Executor) (h : Handled)
    (sent : list Delivery) (d : Delivery) (rest : list Delivery) (cause : Error) :
  let w := Subscriber.world st in
  let gk := GroupKindOf (msg_Payload inPkg) in
  let l0 := msg_Headers inPkg in
  headers_at l0 w !! sagaUIDKey = Some sagaId ->
  Lock (mutex w) sagaId = (None, l) ->
  GetById (sagaStore w) sagaId = inr (Some i) ->
  Completed (status i) = false ->
  EventHandlers env (Saga i) !! gk = Some handler ->
  handler (Progress i) = inr h ->
  h_deliveries h = (sent ++ d :: rest)%list ->
  let stamped := <[sagaUIDKey := UID i]> (headers_at l0 w) in
  Forall (fun d => send_result env (mkOutcomingMessage (Payload d) stamped) (Options d)
                   = None)
         sent ->
  send_result env (mkOutcomingMessage (Payload d) stamped) (Options d) = Some cause ->
  let r := Handle (mkExecCtx inPkg) w in
  let st' := Subscriber.processPackage msg_UID msg_Origin (sagaProcessor env)
                                       transport ctx inPkg st in
  r.1 = inl (Wrapf cause (SendingDelivery (UID i) d))
  /\ trace r.2
     = (trace w
        ++ [EvLock sagaId; EvGetById sagaId; EvHandler gk (Progress i)]
        ++ delivery_sends stamped (sent ++ [d])
        ++ [EvLog ErrorLevel (LogSendFailed (UID i) d cause)]
        ++ release_events sagaId l)%list
  /\ sagaStore r.2 = sagaStore w
  /\ Subscriber.acked st' = Subscriber.acked st.
Proof.
  intros w gk l0 Huid Hlock Hget Hlive Hfound Hrun Hds stamped Hsent Hfail r st'.
  assert (Hr : r = (inl (Wrapf cause (SendingDelivery (UID i) d)),
                    mkWorld (<[l0 := stamped]> (heap w)) (sagaStore w)
                            (Release l sagaId).2
                            (trace w
                             ++ [EvLock sagaId; EvGetById sagaId; EvHandler gk (Progress i)]
                             ++ delivery_sends stamped (sent ++ [d])
                             ++ [EvLog ErrorLevel (LogSendFailed (UID i) d cause)]
                             ++ release_events sagaId l))).
  { subst r.
    rewrite (Handle_handled env (mkExecCtx inPkg) w sagaId l i handler h
               Huid Hlock Hget Hlive Hfound Hrun).
    rewrite Hds.
    match goal with |- context [send_deliveries env _ _ _ ?w1] =>
      rewrite (send_deliveries_stops (mkExecCtx inPkg) (after_handler (Progress i) h)
                 d rest cause stamped sent Hsent Hfail w1 eq_refl) end.
    simpl. fold l0. fold gk. by rewrite <- !app_assoc. }
  subst st'. rewrite processPackage_of_the_turn. fold w. fold r.
  rewrite Hr. done.
Qed.

(** The turn from its start to the update of the store, when the handler
    returns no error and every delivery is sent. *)
Lemma Handle_sent (execCtx : MessageExecutionCtx) (w : World)
    (sagaId : string) (l : L) (i : Instance) (handler : Executor) (h : Handled) :
  let gk := GroupKindOf (msg_Payload (Message execCtx)) in
  let l0 := msg_Headers (Message execCtx) in
  let stamped := <[sagaUIDKey := UID i]> (headers_at l0 w) in
  headers_at l0 w !! sagaUIDKey = Some sagaId ->
  Lock (mutex w) sagaId = (None, l) ->
  GetById (sagaStore w) sagaId = inr (Some i) ->
  Completed (status i) = false ->
  EventHandlers env (Saga i) !! gk = Some handler ->
  handler (Progress i) = inr h ->
  Forall (fun d => send_result env (mkOutcomingMessage (Payload d) stamped) (Options d)
                   = None)
         (h_deliveries h) ->
  let body :=
    persist_and_notify env execCtx (after_handler (Progress i) h) (h_deliveries h)
      (mkWorld (match h_deliveries h with
                | [] => heap w
                | _ => <[l0 := stamped]> (heap w)
                end)
               (sagaStore w) l
               (trace w
                ++ [EvLock sagaId; EvGetById sagaId; EvHandler gk (Progress i)]
                ++ delivery_sends stamped (h_deliveries h))) in
  Handle execCtx w
  = (body.1,
     mkWorld (heap body.2) (sagaStore body.2) (Release (mutex body.2) sagaId).2
             (trace body.2 ++ release_events sagaId (mutex body.2))).
Proof.
  intros gk l0 stamped Huid Hlock Hget Hlive Hfound Hrun Hsends body.
  rewrite (Handle_handled env execCtx w sagaId l i handler h
             Huid Hlock Hget Hlive Hfound Hrun).
  match goal with |- context [send_deliveries env _ _ _ ?w1] =>
    rewrite (send_deliveries_sent execCtx (after_handler (Progress i) h)
               (h_deliveries h) w1 Hsends) end.
  subst body. simpl. fold l0. fold gk. unfold headers_at. simpl.
  fold (headers_at l0 w). fold stamped. by rewrite <- !app_assoc.
Qed.

Lemma add_delivery_events_saga (deliveries : list Delivery) : forall i : Instance,
  Saga (add_delivery_events i deliveries) = Saga i.
Proof.
  induction deliveries as [|d rest IH]; intros i; [done|].
  unfold add_delivery_events in *. simpl. by rewrite IH.
Qed.

Lemma with_turn_history_saga_aux (execCtx : MessageExecutionCtx) (i : Instance)
    (deliveries : list Delivery) :
  Saga (with_turn_history execCtx i deliveries) = Saga i.
Proof. unfold with_turn_history. by rewrite add_delivery_events_saga. Qed.

(** The end of the turn when the store fails to save the instance. *)
Lemma persist_and_notify_failed (execCtx : MessageExecutionCtx) (i : Instance)
    (deliveries : list Delivery) (w : World) (err : Error) (s' : S) :
  let saved := with_turn_history execCtx i deliveries in
  Update (sagaStore w) saved = (Some err, s') ->
  persist_and_notify env execCtx i deliveries w
  = (inl (Wrapf err (SavingSaga (UID i))),
     mkWorld (heap w) s' (mutex w) (trace w ++ [EvUpdate saved])).
Proof.
  intros saved Hupd.
  destruct (with_turn_history_fields execCtx i deliveries) as [Hu _].
  fold saved in Hu.
  unfold persist_and_notify. fold saved.
  unfold mbind, M_bind, bind, wrapf, store_Update. rewrite Hupd. simpl.
  by rewrite Hu.
Qed.

(** The end of the turn when the instance is saved and there is nobody to
    notify. *)
Lemma persist_and_notify_quiet (execCtx : MessageExecutionCtx) (i : Instance)
    (deliveries : list Delivery) (w : World) (s' : S) :
  let saved := with_turn_history execCtx i deliveries in
  Update (sagaStore w) saved = (None, s') ->
  Completed (status i) = false \/ ParentID i = "" ->
  persist_and_notify env execCtx i deliveries w
  = (inr tt, mkWorld (heap w) s' (mutex w) (trace w ++ [EvUpdate saved])).
Proof.
  intros saved Hupd Hquiet.
  destruct (with_turn_history_fields execCtx i deliveries) as [_ [Hp [Hs _]]].
  fold saved in Hp, Hs.
  unfold persist_and_notify. fold saved.
  unfold mbind, M_bind, bind, wrapf, store_Update, ret. rewrite Hupd. simpl.
  rewrite Hs, Hp. destruct Hquiet as [-> | ->]; [done|].
  rewrite bool_decide_eq_false_2 by (intros Hne; by apply Hne).
  by destruct (Completed (status i)).
Qed.

(** X16: in a turn whose handler returned no error and whose deliveries
    were all sent, the store is asked, right after the last send, to save
    the instance with the saga and the status the handler left and with a
    history that is the loaded one, then the received event with the
    origin and the uid of its envelope, then one event per delivery in the
    order of dispatch, all of them with the status the handler left. *)
Theorem turn_saves_the_history_in_order
    (execCtx : MessageExecutionCtx) (w : World) (sagaId : string) (l : L)
    (i : Instance) (handler : Executor) (h : Handled) :
  let msg := Message execCtx in
  let gk := GroupKindOf (msg_Payload msg) in
  let l0 := msg_Headers msg in
  headers_at l0 w !! sagaUIDKey = Some sagaId ->
  Lock (mutex w) sagaId = (None, l) ->
  GetById (sagaStore w) sagaId = inr (Some i) ->
  Completed (status i) = false ->
  EventHandlers env (Saga i) !! gk = Some handler ->
  handler (Progress i) = inr h ->
  let stamped := <[sagaUIDKey := UID i]> (headers_at l0 w) in
  Forall (fun d => send_result env (mkOutcomingMessage (Payload d) stamped) (Options d)
                   = None)
         (h_deliveries h) ->
  let r := Handle execCtx w in
  exists saved tail,
    trace r.2
    = (trace w
       ++ [EvLock sagaId; EvGetById sagaId; EvHandler gk (Progress i)]
       ++ delivery_sends stamped (h_deliveries h)
       ++ EvUpdate saved :: tail)%list
    /\ UID saved = UID i
    /\ ParentID saved = ParentID i
    /\ Saga saved = h_saga h
    /\ status saved = h_status h
    /\ HistoryEvents saved
       = (HistoryEvents i
          ++ mkHistoryEvent (msg_Payload msg) (h_status h) (msg_Origin msg) (msg_UID msg)
             :: ((fun d => mkHistoryEvent (Payload d) (h_status h) "" "")
                   <$> h_deliveries h))%list.
Proof.
  intros msg gk l0 Huid Hlock Hget Hlive Hfound Hrun stamped Hsends r. subst r.
  rewrite (Handle_sent execCtx w sagaId l i handler h
             Huid Hlock Hget Hlive Hfound Hrun Hsends).
  fold msg. fold l0. fold gk.
  match goal with |- context [persist_and_notify env execCtx ?i1 ?ds ?w1] =>
    destruct (persist_and_notify_trace env execCtx i1 ds w1) as [_ [tail Htail]];
    destruct (with_turn_history_fields execCtx i1 ds) as [Hu [Hp [Hs Hh]]];
    pose proof (with_turn_history_saga_aux execCtx i1 ds) as Hsaga
  end.
  match goal with |- context [persist_and_notify env execCtx ?i1 ?ds ?w1] =>
    exists (with_turn_history execCtx i1 ds),
      (tail ++ release_events sagaId
                 (mutex (persist_and_notify env execCtx i1 ds w1).2))%list
  end.
  cbn [snd trace]. rewrite Htail. cbn [trace].
  split; [by rewrite <- !app_assoc|].
  repeat split; try done.
Qed.

(** X17: a turn that sends its deliveries and saves the instance, and
    leaves the saga not completed or completes a saga that has no parent,
    sends nothing else: after the update the mutex is released and the
    turn returns no error, the store is what [Update] left, and the
    envelope is acked. *)
Theorem saved_turn_without_parent_is_acked
    (ctx : Subscriber.Context) (st : Subscriber.State World Error)
    (inPkg : ReceivedMessage) (sagaId : string) (l : L) (i : Instance)
    (handler : Executor) (h : Handled) (s' : S) :
  let w := Subscriber.world st in
  let execCtx := mkExecCtx inPkg in
  let gk := GroupKindOf (msg_Payload inPkg) in
  let l0 := msg_Headers inPkg in
  headers_at l0 w !! sagaUIDKey = Some sagaId ->
  Lock (mutex w) sagaId = (None, l) ->
  GetById (sagaStore w) sagaId = inr (Some i) ->
  Completed (status i) = false ->
  EventHandlers env (Saga i) !! gk = Some handler ->
  handler (Progress i) = inr h ->
  let stamped := <[sagaUIDKey := UID i]> (headers_at l0 w) in
  Forall (fun d => send_result env (mkOutcomingMessage (Payload d) stamped) (Options d)
                   = None)
         (h_deliveries h) ->
  let saved := with_turn_history execCtx (after_handler (Progress i) h) (h_deliveries h) in
  Update (sagaStore w) saved = (None, s') ->
  Completed (h_status h) = false \/ ParentID i = "" ->
  let r := Handle execCtx w in
  let st' := Subscriber.processPackage msg_UID msg_Origin (sagaProcessor env)
                                       transport ctx inPkg st in
  r.1 = inr tt
  /\ trace r.2
     = (trace w
        ++ [EvLock sagaId; EvGetById sagaId; EvHandler gk (Progress i)]
        ++ delivery_sends stamped (h_deliveries h)
        ++ [EvUpdate saved]
        ++ release_events sagaId l)%list
  /\ sagaStore r.2 = s'
  /\ Subscriber.acked st' = (Subscriber.acked st ++ [msg_UID inPkg])%list.
Proof.
  intros w execCtx gk l0 Huid Hlock Hget Hlive Hfound Hrun stamped Hsends saved Hupd Hquiet r st'.
  assert (Hr : r.1 = inr tt
               /\ trace r.2
                  = (trace w
                     ++ [EvLock sagaId; EvGetById sagaId; EvHandler gk (Progress i)]
                     ++ delivery_sends stamped (h_deliveries h)
                     ++ [EvUpdate saved]
                     ++ release_events sagaId l)%list
               /\ sagaStore r.2 = s').
  { subst r.
    rewrite (Handle_sent execCtx w sagaId l i handler h
               Huid Hlock Hget Hlive Hfound Hrun Hsends).
    match goal with |- context [persist_and_notify env execCtx ?i1 ?ds ?w1] =>
      rewrite (persist_and_notify_quiet execCtx i1 ds w1 s' Hupd Hquiet) end.
    simpl. fold l0. fold gk. fold saved. split; [done|]. split; [|done].
    by rewrite <- !app_assoc. }
  destruct Hr as [Hok [Htr Hst]]. repeat split; try done.
  subst st'. rewrite processPackage_of_the_turn. fold w. fold execCtx. fold r.
  by rewrite Hok.
Qed.

(** X18: when the store fails to save the instance the turn returns that
    error, wrapped, right after the update: the parent of a completed saga
    is not notified, the mutex is released and the envelope is not acked --
    although the deliveries of the turn have been sent. *)
Theorem failed_update_aborts_the_turn
    (ctx : Subscriber.Context) (st : Subscriber.State World Error)
    (inPkg : ReceivedMessage) (sagaId : string) (l : L) (i : Instance)
    (handler : Executor) (h : Handled) (err : Error) (s' : S) :
  let w := Subscriber.world st in
  let execCtx := mkExecCtx inPkg in
  let gk := GroupKindOf (msg_Payload inPkg) in
  let l0 := msg_Headers inPkg in
  headers_at l0 w !! sagaUIDKey = Some sagaId ->
  Lock (mutex w) sagaId = (None, l) ->
  GetById (sagaStore w) sagaId = inr (Some i) ->
  Completed (status i) = false ->
  EventHandlers env (Saga i) !! gk = Some handler ->
  handler (Progress i) = inr h ->
  let stamped := <[sagaUIDKey := UID i]> (headers_at l0 w) in
  Forall (fun d => send_result env (mkOutcomingMessage (Payload d) stamped) (Options d)
                   = None)
         (h_deliveries h) ->
  let saved := with_turn_history execCtx (after_handler (Progress i) h) (h_deliveries h) in
  Update (sagaStore w) saved = (Some err, s') ->
  let r := Handle execCtx w in
  let st' := Subscriber.processPackage msg_UID msg_Origin (sagaProcessor env)
                                       transport ctx inPkg st in
  r.1 = inl (Wrapf err (SavingSaga (UID i)))
  /\ trace r.2
     = (trace w
        ++ [EvLock sagaId; EvGetById sagaId; EvHandler gk (Progress i)]
        ++ delivery_sends stamped (h_deliveries h)
        ++ [EvUpdate saved]
        ++ release_events sagaId l)%list
  /\ Subscriber.acked st' = Subscriber.acked st.
Proof.
  intros w execCtx gk l0 Huid Hlock Hget Hlive Hfound Hrun stamped Hsends saved Hupd r st'.
  assert (Hr : r.1 = inl (Wrapf err (SavingSaga (UID i)))
               /\ trace r.2
                  = (trace w
                     ++ [EvLock sagaId; EvGetById sagaId; EvHandler gk (Progress i)]
                     ++ delivery_sends stamped (h_deliveries h)
                     ++ [EvUpdate saved]
                     ++ release_events sagaId l)%list).
  { subst r.
    rewrite (Handle_sent execCtx w sagaId l i handler h
               Huid Hlock Hget Hlive Hfound Hrun Hsends).
    match goal with |- context [persist_and_notify env execCtx ?i1 ?ds ?w1] =>
      rewrite (persist_and_notify_failed execCtx i1 ds w1 err s' Hupd) end.
    simpl. fold l0. fold gk. fold saved. split; [done|].
    by rewrite <- !app_assoc. }
  destruct Hr as [Herr Htr]. repeat split; try done.
  subst st'. rewrite processPackage_of_the_turn. fold w. fold execCtx. fold r.
  by rewrite Herr.
Qed.

(** *** The headers of the deliveries *)




(** *** The mutex during a turn *)

Lemma keeps_mutex_ret {A} (l0 : loc) (a : A) : keeps_mutex (S := S) (L := L) l0 (ret a).
Proof. intros w. repeat split; try done. exists []. by rewrite app_nil_r. Qed.

Lemma keeps_mutex_fail {A} (l0 : loc) (err : Error) :
  keeps_mutex (S := S) (L := L) l0 (fail (A := A) err).
Proof. intros w. repeat split; try done. exists []. by rewrite app_nil_r. Qed.

Lemma keeps_mutex_emit (l0 : loc) (ev : Event) :
  mutex_event ev = false -> keeps_mutex (S := S) (L := L) l0 (emit ev).
Proof.
  intros Hev w. repeat split; try done. exists [ev]. split; [done|].
  by apply Forall_singleton.
Qed.

Lemma keeps_mutex_bind {A B} (l0 : loc) (m : M S L A) (k : A -> M S L B) :
  keeps_mutex l0 m -> (forall a, keeps_mutex l0 (k a)) -> keeps_mutex l0 (bind m k).
Proof.
  intros Hm Hk w. unfold bind.
  destruct (Hm w) as [Hmx [Hhp [evs [Htr Hevs]]]].
  destruct (m w) as [[err|a] w1]; simpl in *.
  - repeat split; try done. by exists evs.
  - destruct (Hk a w1) as [Hmx' [Hhp' [evs' [Htr' Hevs']]]].
    split; [congruence|]. split.
    + intros l' Hl'. by rewrite Hhp', Hhp.
    + exists (evs ++ evs')%list. split.
      * by rewrite Htr', Htr, <- app_assoc.
      * by apply Forall_app.
Qed.

Lemma keeps_mutex_catch {A} (l0 : loc) (m : M S L A) (handle : Error -> M S L A) :
  keeps_mutex l0 m -> (forall err, keeps_mutex l0 (handle err)) ->
  keeps_mutex l0 (catch m handle).
Proof.
  intros Hm Hk w. unfold catch.
  destruct (Hm w) as [Hmx [Hhp [evs [Htr Hevs]]]].
  destruct (m w) as [[err|a] w1]; simpl in *.
  - destruct (Hk err w1) as [Hmx' [Hhp' [evs' [Htr' Hevs']]]].
    split; [congruence|]. split.
    + intros l' Hl'. by rewrite Hhp', Hhp.
    + exists (evs ++ evs')%list. split.
      * by rewrite Htr', Htr, <- app_assoc.
      * by apply Forall_app.
  - repeat split; try done. by exists evs.
Qed.

Lemma keeps_mutex_wrapf {A} (l0 : loc) (site : Site) (m : M S L A) :
  keeps_mutex l0 m -> keeps_mutex l0 (wrapf site m).
Proof.
  intros Hm w. unfold wrapf. specialize (Hm w).
  by destruct (m w) as [[err|a] w1].
Qed.

Lemma keeps_mutex_AddSagaId (l0 : loc) (sagaUID : string) :
  keeps_mutex (S := S) (L := L) l0 (AddSagaId l0 sagaUID).
Proof.
  intros w. unfold AddSagaId. simpl. split; [done|]. split.
  - intros l' Hl'. by rewrite lookup_insert_ne.
  - exists []. by rewrite app_nil_r.
Qed.

Lemma keeps_mutex_read_headers (l0 headers : loc) :
  keeps_mutex (S := S) (L := L) l0 (read_headers headers).
Proof. intros w. repeat split; try done. exists []. by rewrite app_nil_r. Qed.

Lemma keeps_mutex_Send (l0 : loc) (m : OutcomingMessage) (options : list DeliveryOption) :
  keeps_mutex (S := S) (L := L) l0 (Send env m options).
Proof.
  intros w. unfold Send.
  destruct (send_result env m options); simpl; repeat split; try done;
    eexists [_]; (split; [done|]); by apply Forall_singleton.
Qed.

Lemma keeps_mutex_store_GetById (l0 : loc) (sagaId : string) :
  keeps_mutex (S := S) (L := L) l0 (store_GetById sagaId).
Proof.
  intros w. unfold store_GetById.
  destruct (GetById (sagaStore w) sagaId); simpl; repeat split; try done;
    eexists [_]; (split; [done|]); by apply Forall_singleton.
Qed.

Lemma keeps_mutex_store_Update (l0 : loc) (i : Instance) :
  keeps_mutex (S := S) (L := L) l0 (store_Update i).
Proof.
  intros w. unfold store_Update.
  destruct (Update (sagaStore w) i) as [[err|] s']; simpl; repeat split; try done;
    eexists [_]; (split; [done|]); by apply Forall_singleton.
Qed.

Lemma keeps_mutex_run_handler (l0 : loc) (gk : GroupKind) (handler : Executor)
    (i : Instance) :
  keeps_mutex (S := S) (L := L) l0 (run_handler gk handler i).
Proof.
  intros w. unfold run_handler.
  destruct (handler i); simpl; repeat split; try done;
    eexists [_]; (split; [done|]); by apply Forall_singleton.
Qed.

Lemma keeps_mutex_send_deliveries (execCtx : MessageExecutionCtx) (i : Instance)
    (deliveries : list Delivery) :
  keeps_mutex (S := S) (L := L) (msg_Headers (Message execCtx)) (send_deliveries env execCtx i deliveries).
Proof.
  induction deliveries as [|d rest IH]; simpl.
  - apply keeps_mutex_ret.
  - apply keeps_mutex_bind; [apply keeps_mutex_AddSagaId|]. intros _.
    apply keeps_mutex_bind; [apply keeps_mutex_read_headers|]. intros headers.
    apply keeps_mutex_bind; [|by intros _].
    apply keeps_mutex_catch; [apply keeps_mutex_Send|]. intros err.
    apply keeps_mutex_bind; [by apply keeps_mutex_emit|]. intros _.
    apply keeps_mutex_fail.
Qed.

Lemma keeps_mutex_dispatch (execCtx : MessageExecutionCtx) (saga : Object)
    (i : Instance) :
  keeps_mutex (S := S) (L := L) (msg_Headers (Message execCtx)) (dispatch env execCtx saga i).
Proof.
  unfold dispatch. destruct (EventHandlers env saga !! _) as [handler|].
  - apply keeps_mutex_bind.
    + apply keeps_mutex_catch; [apply keeps_mutex_run_handler|]. intros err.
      apply keeps_mutex_bind; [by apply keeps_mutex_emit|]. intros _.
      apply keeps_mutex_fail.
    + intros h. apply keeps_mutex_bind; [apply keeps_mutex_send_deliveries|].
      intros _. apply keeps_mutex_ret.
  - apply keeps_mutex_bind; [by apply keeps_mutex_emit|]. intros _.
    apply keeps_mutex_ret.
Qed.

Lemma keeps_mutex_persist_and_notify (execCtx : MessageExecutionCtx) (i : Instance)
    (deliveries : list Delivery) :
  keeps_mutex (S := S) (L := L) (msg_Headers (Message execCtx))
              (persist_and_notify env execCtx i deliveries).
Proof.
  unfold persist_and_notify.
  apply keeps_mutex_bind; [apply keeps_mutex_wrapf, keeps_mutex_store_Update|].
  intros _. destruct (Completed _); [|apply keeps_mutex_ret].
  case_bool_decide; [|apply keeps_mutex_ret].
  apply keeps_mutex_bind; [apply keeps_mutex_AddSagaId|]. intros _.
  apply keeps_mutex_bind; [apply keeps_mutex_read_headers|]. intros headers.
  apply keeps_mutex_Send.
Qed.

Lemma keeps_mutex_locked_turn (execCtx : MessageExecutionCtx) (sagaId : string) :
  keeps_mutex (S := S) (L := L) (msg_Headers (Message execCtx)) (locked_turn env execCtx sagaId).
Proof.
  unfold locked_turn.
  apply keeps_mutex_bind; [apply keeps_mutex_wrapf, keeps_mutex_store_GetById|].
  intros [i|]; [|apply keeps_mutex_fail].
  destruct (Completed (status i)); [apply keeps_mutex_fail|].
  apply keeps_mutex_bind; [apply keeps_mutex_dispatch|].
  intros [i' ds]. apply keeps_mutex_persist_and_notify.
Qed.

(** X19: once the mutex is acquired it is released exactly once, after
    everything else the turn does, whatever the store, the handler and
    the sends answer (a panic aside): between the lock and the release
    the turn never calls the mutex, and the mutex [Handle] leaves is the
    one [Release] returns. The only header map the turn may write is the
    one of the incoming envelope. *)
Theorem mutex_is_released_once_at_the_end
    (execCtx : MessageExecutionCtx) (w : World) (sagaId : string) (l : L) :
  let l0 := msg_Headers (Message execCtx) in
  headers_at l0 w !! sagaUIDKey = Some sagaId ->
  Lock (mutex w) sagaId = (None, l) ->
  let r := Handle execCtx w in
  mutex r.2 = (Release l sagaId).2
  /\ (exists body,
        trace r.2 = (trace w ++ EvLock sagaId :: body ++ release_events sagaId l)%list
        /\ Forall (fun ev => mutex_event ev = false) body)
  /\ (forall l', l' <> l0 -> heap r.2 !! l' = heap w !! l').
Proof.
  intros l0 Huid Hlock r. subst r.
  rewrite (Handle_locked env execCtx w sagaId l Huid Hlock), defer_release.
  destruct (keeps_mutex_locked_turn execCtx sagaId
              (mkWorld (heap w) (sagaStore w) l (trace w ++ [EvLock sagaId])))
    as [Hmx [Hhp [body [Htr Hbody]]]].
  simpl in *. rewrite Hmx. split; [done|]. split.
  - exists body. split; [|done]. rewrite Htr. by rewrite <- !app_assoc.
  - intros l' Hl'. by apply Hhp.
Qed.

End HandlerTurns.

(** ** Turns of a small saga that fail, and one that goes on *)

Section HandlerTurnExamples.
Import SagaHandler Engine Demo.

Lemma handler_error_aborts_the_turn_witness :
  headers_at 0 (demo_world running) !! sagaUIDKey = Some "s1"
  /\ Lock (mutex (demo_world running)) "s1" = (None, ["s1"])
  /\ GetById (sagaStore (demo_world running)) "s1"
     = inr (Some (child_s1 sagaStatusInProgress))
  /\ Completed (status (child_s1 sagaStatusInProgress)) = false
  /\ EventHandlers (env_with failing (fun _ _ => None)) Foo !! GroupKindOf FooEvent
     = Some failing
  /\ failing (Progress (child_s1 sagaStatusInProgress)) = inl (ErrOther "handler failed")
  /\ (Handle (env_with failing (fun _ _ => None)) (mkExecCtx (incoming FooEvent))
        (demo_world running)).1
     = inl (Wrapf (ErrOther "handler failed") (HandlingEvent ("demo", "FooEvent") "m1"))
  /\ sagaStore (Handle (env_with failing (fun _ _ => None)) (mkExecCtx (incoming FooEvent))
                  (demo_world running)).2
     = running
  /\ Subscriber.acked
       (Subscriber.processPackage msg_UID msg_Origin
          (sagaProcessor (env_with failing (fun _ _ => None))) quiet
          no_deadline (incoming FooEvent) (subscriber_on running))
     = [].
Proof.
  assert (Huid : headers_at 0 (demo_world running) !! sagaUIDKey = Some "s1")
    by (vm_compute; reflexivity).
  assert (Hlock : Lock (mutex (demo_world running)) "s1" = (None, ["s1"])) by reflexivity.
  assert (Hget : GetById (sagaStore (demo_world running)) "s1"
                 = inr (Some (child_s1 sagaStatusInProgress))) by reflexivity.
  assert (Hfound : EventHandlers (env_with failing (fun _ _ => None)) Foo
                     !! GroupKindOf FooEvent
                   = Some failing) by (vm_compute; reflexivity).
  split; [exact Huid|]. split; [exact Hlock|]. split; [exact Hget|].
  split; [reflexivity|]. split; [exact Hfound|]. split; [reflexivity|].
  destruct (handler_error_aborts_the_turn (env_with failing (fun _ _ => None)) quiet
              no_deadline (subscriber_on running) (incoming FooEvent) "s1" ["s1"]
              (child_s1 sagaStatusInProgress) failing (ErrOther "handler failed")
              Huid Hlock Hget eq_refl Hfound eq_refl)
    as [Herr [_ [Hstore [_ Hack]]]].
  split; [exact Herr|]. split; [exact Hstore | exact Hack].
Defined.

Lemma failed_send_aborts_the_turn_witness :
  headers_at 0 (demo_world running) !! sagaUIDKey = Some "s1"
  /\ Lock (mutex (demo_world running)) "s1" = (None, ["s1"])
  /\ GetById (sagaStore (demo_world running)) "s1"
     = inr (Some (child_s1 sagaStatusInProgress))
  /\ Completed (status (child_s1 sagaStatusInProgress)) = false
  /\ EventHandlers (env_with two_commands refuses_baz) Foo !! GroupKindOf FooEvent
     = Some two_commands
  /\ Forall (fun d => send_result (env_with two_commands refuses_baz)
                        (mkOutcomingMessage (Payload d) envelope_headers) (Options d) = None)
            [mkDelivery BarCommand []]
  /\ send_result (env_with two_commands refuses_baz)
       (mkOutcomingMessage BazCommand envelope_headers) [WithDelay 5]
     = Some (ErrOther "broker is down")
  /\ (Handle (env_with two_commands refuses_baz) (mkExecCtx (incoming FooEvent))
        (demo_world running)).1
     = inl (Wrapf (ErrOther "broker is down")
              (SendingDelivery "s1" (mkDelivery BazCommand [WithDelay 5])))
  /\ sagaStore (Handle (env_with two_commands refuses_baz) (mkExecCtx (incoming FooEvent))
                  (demo_world running)).2
     = running
  /\ Subscriber.acked
       (Subscriber.processPackage msg_UID msg_Origin
          (sagaProcessor (env_with two_commands refuses_baz)) quiet
          no_deadline (incoming FooEvent) (subscriber_on running))
     = [].
Proof.
  assert (Huid : headers_at 0 (demo_world running) !! sagaUIDKey = Some "s1")
    by (vm_compute; reflexivity).
  assert (Hlock : Lock (mutex (demo_world running)) "s1" = (None, ["s1"])) by reflexivity.
  assert (Hget : GetById (sagaStore (demo_world running)) "s1"
                 = inr (Some (child_s1 sagaStatusInProgress))) by reflexivity.
  assert (Hfound : EventHandlers (env_with two_commands refuses_baz) Foo
                     !! GroupKindOf FooEvent
                   = Some two_commands) by (vm_compute; reflexivity).
  assert (Hsent : Forall (fun d => send_result (env_with two_commands refuses_baz)
                                     (mkOutcomingMessage (Payload d) envelope_headers) (Options d) = None)
                         [mkDelivery BarCommand []])
    by (repeat constructor).
  assert (Hfail : send_result (env_with two_commands refuses_baz)
                    (mkOutcomingMessage BazCommand envelope_headers) [WithDelay 5]
                  = Some (ErrOther "broker is down")) by (vm_compute; reflexivity).
  split; [exact Huid|]. split; [exact Hlock|]. split; [exact Hget|].
  split; [reflexivity|]. split; [exact Hfound|]. split; [exact Hsent|].
  split; [exact Hfail|].
  destruct (failed_send_aborts_the_turn (env_with two_commands refuses_baz) quiet
              no_deadline (subscriber_on running) (incoming FooEvent) "s1" ["s1"]
              (child_s1 sagaStatusInProgress) two_commands
              (mkHandled Foo sagaStatusInProgress
                 [mkDelivery BarCommand []; mkDelivery BazCommand [WithDelay 5]])
              [mkDelivery BarCommand []] (mkDelivery BazCommand [WithDelay 5]) []
              (ErrOther "broker is down")
              Huid Hlock Hget eq_refl Hfound eq_refl eq_refl Hsent Hfail)
    as [Herr [_ [Hstore Hack]]].
  split; [exact Herr|]. split; [exact Hstore | exact Hack].
Defined.

Lemma turn_saves_the_history_in_order_witness :
  headers_at 0 (demo_world running) !! sagaUIDKey = Some "s1"
  /\ Lock (mutex (demo_world running)) "s1" = (None, ["s1"])
  /\ GetById (sagaStore (demo_world running)) "s1"
     = inr (Some (child_s1 sagaStatusInProgress))
  /\ Completed (status (child_s1 sagaStatusInProgress)) = false
  /\ EventHandlers (env_with two_commands (fun _ _ => None)) Foo !! GroupKindOf FooEvent
     = Some two_commands
  /\ Forall (fun d => send_result (env_with two_commands (fun _ _ => None))
                        (mkOutcomingMessage (Payload d) envelope_headers) (Options d) = None)
            [mkDelivery BarCommand []; mkDelivery BazCommand [WithDelay 5]]
  /\ exists saved tail,
       trace (Handle (env_with two_commands (fun _ _ => None))
                (mkExecCtx (incoming FooEvent)) (demo_world running)).2
       = ([EvLock "s1"; EvGetById "s1";
           EvHandler ("demo", "FooEvent") (Progress (child_s1 sagaStatusInProgress))]
          ++ delivery_sends envelope_headers
               [mkDelivery BarCommand []; mkDelivery BazCommand [WithDelay 5]]
          ++ EvUpdate saved :: tail)%list
       /\ HistoryEvents saved
          = [mkHistoryEvent FooEvent sagaStatusInProgress "demo.queue" "m1";
             mkHistoryEvent BarCommand sagaStatusInProgress "" "";
             mkHistoryEvent BazCommand sagaStatusInProgress "" ""].
Proof.
  assert (Huid : headers_at 0 (demo_world running) !! sagaUIDKey = Some "s1")
    by (vm_compute; reflexivity).
  assert (Hlock : Lock (mutex (demo_world running)) "s1" = (None, ["s1"])) by reflexivity.
  assert (Hget : GetById (sagaStore (demo_world running)) "s1"
                 = inr (Some (child_s1 sagaStatusInProgress))) by reflexivity.
  assert (Hfound : EventHandlers (env_with two_commands (fun _ _ => None)) Foo
                     !! GroupKindOf FooEvent
                   = Some two_commands) by (vm_compute; reflexivity).
  assert (Hsends : Forall (fun d => send_result (env_with two_commands (fun _ _ => None))
                                      (mkOutcomingMessage (Payload d) envelope_headers) (Options d) = None)
                          [mkDelivery BarCommand []; mkDelivery BazCommand [WithDelay 5]])
    by (repeat constructor).
  split; [exact Huid|]. split; [exact Hlock|]. split; [exact Hget|].
  split; [reflexivity|]. split; [exact Hfound|]. split; [exact Hsends|].
  destruct (turn_saves_the_history_in_order (env_with two_commands (fun _ _ => None))
              (mkExecCtx (incoming FooEvent)) (demo_world running) "s1" ["s1"]
              (child_s1 sagaStatusInProgress) two_commands
              (mkHandled Foo sagaStatusInProgress
                 [mkDelivery BarCommand []; mkDelivery BazCommand [WithDelay 5]])
              Huid Hlock Hget eq_refl Hfound eq_refl Hsends)
    as [saved [tail [Htrace [_ [_ [_ [_ Hhist]]]]]]].
  exists saved, tail. split; [exact Htrace | exact Hhist].
Defined.

Lemma saved_turn_without_parent_is_acked_witness :
  headers_at 0 (demo_world running) !! sagaUIDKey = Some "s1"
  /\ Lock (mutex (demo_world running)) "s1" = (None, ["s1"])
  /\ GetById (sagaStore (demo_world running)) "s1"
     = inr (Some (child_s1 sagaStatusInProgress))
  /\ Completed (status (child_s1 sagaStatusInProgress)) = false
  /\ EventHandlers (env_with two_commands (fun _ _ => None)) Foo !! GroupKindOf FooEvent
     = Some two_commands
  /\ Forall (fun d => send_result (env_with two_commands (fun _ _ => None))
                        (mkOutcomingMessage (Payload d) envelope_headers) (Options d) = None)
            [mkDelivery BarCommand []; mkDelivery BazCommand [WithDelay 5]]
  /\ (Completed sagaStatusInProgress = false \/ ParentID (child_s1 sagaStatusInProgress) = "")
  /\ (Handle (env_with two_commands (fun _ _ => None)) (mkExecCtx (incoming FooEvent))
        (demo_world running)).1 = inr tt
  /\ Subscriber.acked
       (Subscriber.processPackage msg_UID msg_Origin
          (sagaProcessor (env_with two_commands (fun _ _ => None))) quiet
          no_deadline (incoming FooEvent) (subscriber_on running))
     = ["m1"].
Proof.
  assert (Huid : headers_at 0 (demo_world running) !! sagaUIDKey = Some "s1")
    by (vm_compute; reflexivity).
  assert (Hlock : Lock (mutex (demo_world running)) "s1" = (None, ["s1"])) by reflexivity.
  assert (Hget : GetById (sagaStore (demo_world running)) "s1"
                 = inr (Some (child_s1 sagaStatusInProgress))) by reflexivity.
  assert (Hfound : EventHandlers (env_with two_commands (fun _ _ => None)) Foo
                     !! GroupKindOf FooEvent
                   = Some two_commands) by (vm_compute; reflexivity).
  assert (Hsends : Forall (fun d => send_result (env_with two_commands (fun _ _ => None))
                                      (mkOutcomingMessage (Payload d) envelope_headers) (Options d) = None)
                          [mkDelivery BarCommand []; mkDelivery BazCommand [WithDelay 5]])
    by (repeat constructor).
  assert (Hquiet : Completed sagaStatusInProgress = false
                   \/ ParentID (child_s1 sagaStatusInProgress) = "")
    by (left; reflexivity).
  split; [exact Huid|]. split; [exact Hlock|]. split; [exact Hget|].
  split; [reflexivity|]. split; [exact Hfound|]. split; [exact Hsends|].
  split; [exact Hquiet|].
  set (saved := with_turn_history (mkExecCtx (incoming FooEvent))
                  (after_handler (Progress (child_s1 sagaStatusInProgress))
                     (mkHandled Foo sagaStatusInProgress
                        [mkDelivery BarCommand []; mkDelivery BazCommand [WithDelay 5]]))
                  [mkDelivery BarCommand []; mkDelivery BazCommand [WithDelay 5]]).
  assert (Hupd : Update (sagaStore (demo_world running)) saved
                 = (None, <[UID saved := saved]> running)) by reflexivity.
  destruct (saved_turn_without_parent_is_acked (env_with two_commands (fun _ _ => None))
              quiet no_deadline (subscriber_on running) (incoming FooEvent) "s1" ["s1"]
              (child_s1 sagaStatusInProgress) two_commands
              (mkHandled Foo sagaStatusInProgress
                 [mkDelivery BarCommand []; mkDelivery BazCommand [WithDelay 5]])
              (<[UID saved := saved]> running)
              Huid Hlock Hget eq_refl Hfound eq_refl Hsends Hupd Hquiet)
    as [Hok [_ [_ Hack]]].
  split; [exact Hok | exact Hack].
Defined.

Lemma failed_update_aborts_the_turn_witness :
  headers_at 0 read_only_world !! sagaUIDKey = Some "s1"
  /\ Lock (mutex read_only_world) "s1" = (None, ["s1"])
  /\ GetById (sagaStore read_only_world) "s1"
     = inr (Some (child_s1 sagaStatusInProgress))
  /\ Completed (status (child_s1 sagaStatusInProgress)) = false
  /\ EventHandlers demo_env Foo !! GroupKindOf FooEvent = Some complete_on_foo
  /\ Forall (fun d => send_result demo_env (mkOutcomingMessage (Payload d) envelope_headers) (Options d)
                      = None)
            [mkDelivery BarCommand []]
  /\ (Handle demo_env (mkExecCtx (incoming FooEvent)) read_only_world).1
     = inl (Wrapf (ErrOther "read only") (SavingSaga "s1"))
  /\ Subscriber.acked
       (Subscriber.processPackage msg_UID msg_Origin (sagaProcessor demo_env) quiet
          no_deadline (incoming FooEvent) subscriber_read_only)
     = [].
Proof.
  assert (Huid : headers_at 0 read_only_world !! sagaUIDKey = Some "s1")
    by (vm_compute; reflexivity).
  assert (Hlock : Lock (mutex read_only_world) "s1" = (None, ["s1"])) by reflexivity.
  assert (Hget : GetById (sagaStore read_only_world) "s1"
                 = inr (Some (child_s1 sagaStatusInProgress))) by reflexivity.
  assert (Hfound : EventHandlers demo_env Foo !! GroupKindOf FooEvent
                   = Some complete_on_foo) by (vm_compute; reflexivity).
  assert (Hsends : Forall (fun d => send_result demo_env
                                      (mkOutcomingMessage (Payload d) envelope_headers) (Options d)
                                    = None)
                          [mkDelivery BarCommand []]) by (repeat constructor).
  split; [exact Huid|]. split; [exact Hlock|]. split; [exact Hget|].
  split; [reflexivity|]. split; [exact Hfound|]. split; [exact Hsends|].
  set (saved := with_turn_history (mkExecCtx (incoming FooEvent))
                  (after_handler (Progress (child_s1 sagaStatusInProgress))
                     (mkHandled Foo sagaStatusCompleted [mkDelivery BarCommand []]))
                  [mkDelivery BarCommand []]).
  assert (Hupd : Update (sagaStore read_only_world) saved
                 = (Some (ErrOther "read only"), mkReadOnly running)) by reflexivity.
  destruct (failed_update_aborts_the_turn demo_env quiet no_deadline
              subscriber_read_only (incoming FooEvent) "s1" ["s1"]
              (child_s1 sagaStatusInProgress) complete_on_foo
              (mkHandled Foo sagaStatusCompleted [mkDelivery BarCommand []])
              (ErrOther "read only") (mkReadOnly running)
              Huid Hlock Hget eq_refl Hfound eq_refl Hsends Hupd)
    as [Herr [_ Hack]].
  split; [exact Herr | exact Hack].
Defined.

Lemma mutex_is_released_once_at_the_end_witness :
  headers_at 0 (demo_world running) !! sagaUIDKey = Some "s1"
  /\ Lock (mutex (demo_world running)) "s1" = (None, ["s1"])
  /\ mutex completing_turn.2 = []
  /\ exists body,
       trace completing_turn.2
       = (EvLock "s1" :: body ++ release_events "s1" ["s1"])%list
       /\ Forall (fun ev => mutex_event ev = false) body.
Proof.
  assert (Huid : headers_at 0 (demo_world running) !! sagaUIDKey = Some "s1")
    by (vm_compute; reflexivity).
  assert (Hlock : Lock (mutex (demo_world running)) "s1" = (None, ["s1"])) by reflexivity.
  split; [exact Huid|]. split; [exact Hlock|].
  destruct (mutex_is_released_once_at_the_end demo_env (mkExecCtx (incoming FooEvent))
              (demo_world running) "s1" ["s1"] Huid Hlock)
    as [Hmx [Hbody _]].
  split; [exact Hmx | exact Hbody].
Defined.

Lemma failed_load_aborts_the_turn_witness :
  headers_at 0 offline_world !! sagaUIDKey = Some "s1"
  /\ Lock (mutex offline_world) "s1" = (None, ["s1"])
  /\ GetById (sagaStore offline_world) "s1" = inl (ErrOther "store is offline")
  /\ (Handle demo_env (mkExecCtx (incoming FooEvent)) offline_world).1
     = inl (Wrapf (ErrOther "store is offline") (RetrievingSaga "s1"))
  /\ trace (Handle demo_env (mkExecCtx (incoming FooEvent)) offline_world).2
     = [EvLock "s1"; EvGetById "s1"; EvRelease "s1"]
  /\ Subscriber.acked
       (Subscriber.processPackage msg_UID msg_Origin (sagaProcessor demo_env) quiet
          no_deadline (incoming FooEvent) subscriber_offline)
     = [].
Proof.
  assert (Huid : headers_at 0 offline_world !! sagaUIDKey = Some "s1")
    by (vm_compute; reflexivity).
  assert (Hlock : Lock (mutex offline_world) "s1" = (None, ["s1"])) by reflexivity.
  assert (Hget : GetById (sagaStore offline_world) "s1"
                 = inl (ErrOther "store is offline")) by reflexivity.
  split; [exact Huid|]. split; [exact Hlock|]. split; [exact Hget|].
  destruct (failed_load_aborts_the_turn demo_env quiet no_deadline subscriber_offline
              (incoming FooEvent) "s1" ["s1"] (ErrOther "store is offline")
              Huid Hlock Hget)
    as [Herr [Htrace [_ [_ Hack]]]].
  split; [exact Herr|]. split; [exact Htrace | exact Hack].
Defined.


End HandlerTurnExamples.

(** ** An update for a saga the store does not hold *)

Section MysqlStoreUnknownSaga.
Import MysqlStore.

Lemma Update_of_an_unknown_saga_changes_nothing_witness :
  saga_table stale_db !! id fresh_instance = None
  /\ (Update no_faults stale_db fresh_instance).2 = stale_db.
Proof.
  assert (Hnew : saga_table stale_db !! id fresh_instance = None)
    by (vm_compute; reflexivity).
  split; [exact Hnew|].
  exact (proj1 (Update_of_an_unknown_saga_changes_nothing no_faults stale_db
                  fresh_instance Hnew)).
Defined.

End MysqlStoreUnknownSaga.

(** ** The subscriber: what [Stop] does for any run of its loop *)

Section SubscriberShutdown.
Import Subscriber.

Context {Pkg W Err : Type}.
Variable transport : Transport Pkg Err.

Local Abbreviation Stop := (Stop (W := W) transport).
Local Abbreviation wait_and_disconnect := (wait_and_disconnect (W := W) transport).

Lemma wait_and_disconnect_frame (events : list StopEvent) : forall st : State W Err,
  let r := wait_and_disconnect events st in
  world r.2 = world st
  /\ acked r.2 = acked st
  /\ (now st <= now r.2)%Z
  /\ match r.1 with
     | Blocked => disconnects r.2 = disconnects st /\ 0 < busyWorkers r.2
     | Returned err =>
         (disconnects r.2 = Datatypes.S (disconnects st)
          /\ busyWorkers r.2 = 0
          /\ err = disconnect_result transport
          /\ last (logged r.2) = Some (InfoLevel, LogAllTasksFinished))
         \/ (disconnects r.2 = disconnects st
             /\ 0 < busyWorkers r.2
             /\ err = None
             /\ last (logged r.2) = Some (WarnLevel, LogCanceledParentCtx))
     end.
Proof.
  induction events as [|e rest IH]; intros st r; subst r.
  - simpl. case_bool_decide; simpl.
    + repeat split; try done.
    + repeat split; try done. left. repeat split; try lia. apply last_snoc.
  - simpl. case_bool_decide.
    + destruct e as [|busy]; simpl.
      * repeat split; try done. right. repeat split; try done. apply last_snoc.
      * match goal with |- context [Subscriber.wait_and_disconnect _ rest ?s] =>
          specialize (IH s) end.
        destruct IH as [Hw [Ha [Hn Hres]]].
        split; [exact Hw|]. split; [exact Ha|]. split; [|exact Hres].
        etrans; [|exact Hn]. simpl. unfold waitingTickerPeriod, Second. lia.
    + simpl. repeat split; try done. left. repeat split; try lia. apply last_snoc.
Qed.

(** X20: whatever its loop receives, [Stop] leaves the processor's world
    and the acked packages as they are, and calls [Transport.Disconnect]
    at most once. It disconnects only when it finds no worker busy, and
    then returns what [Disconnect] returns; otherwise it returns [nil]
    with workers still busy, after the warning that the context was
    canceled, or it is still waiting. An error of [Stop] is the error of
    [Disconnect]. *)
Theorem Stop_disconnects_at_most_once
    (events : list StopEvent) (st : State W Err) :
  let r := Stop events st in
  world r.2 = world st
  /\ acked r.2 = acked st
  /\ (now st <= now r.2)%Z
  /\ match r.1 with
     | Blocked => disconnects r.2 = disconnects st /\ 0 < busyWorkers r.2
     | Returned err =>
         (disconnects r.2 = Datatypes.S (disconnects st)
          /\ busyWorkers r.2 = 0
          /\ err = disconnect_result transport
          /\ last (logged r.2) = Some (InfoLevel, LogAllTasksFinished))
         \/ (disconnects r.2 = disconnects st
             /\ 0 < busyWorkers r.2
             /\ err = None
             /\ last (logged r.2) = Some (WarnLevel, LogCanceledParentCtx))
     end.
Proof.
  intros r. subst r. unfold Subscriber.Stop.
  match goal with |- context [Subscriber.wait_and_disconnect _ events ?s] =>
    pose proof (wait_and_disconnect_frame events s) as Hframe end.
  simpl in Hframe. by case_bool_decide.
Qed.

Lemma wait_and_disconnect_ticks (counts : list nat) :
  Forall (fun n => 0 < n) counts ->
  forall st : State W Err,
    0 < busyWorkers st ->
    wait_and_disconnect (Tick <$> counts) st
    = (Blocked,
       mkState (world st)
               (now st + Z.of_nat (length counts) * waitingTickerPeriod)%Z
               (acked st)
               (logged st ++ ((fun n => (InfoLevel, LogWaiting n)) <$> counts))
               (default (busyWorkers st) (last counts))
               (disconnects st)).
Proof.
  induction 1 as [|n counts Hn _ IH]; intros st Hbusy.
  - simpl. rewrite bool_decide_eq_true_2 by done. destruct st; simpl.
    f_equal. f_equal; [lia|by rewrite app_nil_r].
  - rewrite fmap_cons, (wait_tick transport) by done. rewrite IH by done.
    simpl. f_equal. f_equal.
    + unfold waitingTickerPeriod, Second. lia.
    + by rewrite <- app_assoc.
    + rewrite last_cons. by destruct (last counts).
Qed.

(** X21: with workers busy at the call and at every tick, [Stop] does not
    return; it logs the graceful shutdown once with the number of busy
    workers, then, every second, one line with the number of workers busy
    at that tick; the transport is not disconnected. *)
Theorem Stop_waits_while_workers_are_busy
    (counts : list nat) (st : State W Err) :
  Forall (fun n => 0 < n) counts ->
  0 < busyWorkers st ->
  Stop (Tick <$> counts) st
  = (Blocked,
     mkState (world st)
             (now st + Z.of_nat (length counts) * waitingTickerPeriod)%Z
             (acked st)
             (logged st
              ++ (InfoLevel, LogGracefulShutdown (busyWorkers st))
                 :: ((fun n => (InfoLevel, LogWaiting n)) <$> counts))
             (default (busyWorkers st) (last counts))
             (disconnects st)).
Proof.
  intros Hcounts Hbusy. unfold Subscriber.Stop.
  rewrite bool_decide_eq_true_2 by done.
  rewrite wait_and_disconnect_ticks by done. simpl.
  by rewrite <- app_assoc.
Qed.

End SubscriberShutdown.

Section SubscriberShutdownExamples.
Import Subscriber Demo.

Lemma Stop_waits_while_workers_are_busy_witness :
  Forall (fun n => 0 < n) [2; 1]
  /\ 0 < busyWorkers two_busy
  /\ (Stop quiet_transport (Tick <$> [2; 1]) two_busy).1 = Blocked
  /\ logged (Stop quiet_transport (Tick <$> [2; 1]) two_busy).2
     = [(InfoLevel, LogGracefulShutdown 2); (InfoLevel, LogWaiting 2);
        (InfoLevel, LogWaiting 1)]
  /\ disconnects (Stop quiet_transport (Tick <$> [2; 1]) two_busy).2 = 0.
Proof.
  assert (Hcounts : Forall (fun n => 0 < n) [2; 1]) by (repeat constructor; lia).
  assert (Hbusy : 0 < busyWorkers two_busy) by (simpl; lia).
  split; [exact Hcounts|]. split; [exact Hbusy|].
  rewrite (Stop_waits_while_workers_are_busy quiet_transport [2; 1] two_busy
             Hcounts Hbusy).
  repeat split; reflexivity.
Defined.

End SubscriberShutdownExamples.

(** ** AMQP: what [Send] publishes for the options of the package *)

Section AmqpSendFacts.
Import AmqpOptions.

Lemma applySendOpts_offered (options : list SendOpts) : forall o : SendOptions,
  Forall (fun opt => opt = WithMandatory \/ opt = WithImmediate) options ->
  applySendOpts options (SendOptionsPtr o)
  = inr (SendOptionsPtr
           (mkSendOptions (if options is [] then Mandatory o else true) (Immediate o))).
Proof.
  induction options as [|opt rest IH]; intros o Hoffered.
  - by destruct o.
  - apply Forall_cons in Hoffered as [Hopt Hrest].
    assert (Hstep : opt (SendOptionsPtr o)
                    = (None, SendOptionsPtr (mkSendOptions true (Immediate o))))
      by (by destruct Hopt as [-> | ->]).
    simpl. rewrite Hstep, (IH _ Hrest). simpl. by destruct rest.
Qed.

Lemma applySendOpts_rejects (sent : list SendOpts) (c : SendOpts)
    (rest : list SendOpts) : forall o : SendOptions,
  Forall (fun opt => opt = WithMandatory \/ opt = WithImmediate) sent ->
  (forall o', c (SendOptionsPtr o') = (Some ErrNotConsumeOptions, SendOptionsPtr o')) ->
  applySendOpts (sent ++ c :: rest) (SendOptionsPtr o) = inl ErrNotConsumeOptions.
Proof.
  induction sent as [|opt sent IH]; intros o Hoffered Hc.
  - simpl. by rewrite Hc.
  - apply Forall_cons in Hoffered as [Hopt Hsent].
    assert (Hstep : opt (SendOptionsPtr o)
                    = (None, SendOptionsPtr (mkSendOptions true (Immediate o))))
      by (by destruct Hopt as [-> | ->]).
    simpl. rewrite Hstep. by apply IH.
Qed.

End AmqpSendFacts.

Section AmqpTransportSend.
Import AmqpTransport.

Variable broker : Broker.

Local Abbreviation Connect := (Connect broker).
Local Abbreviation Send := (Send broker).

Local Abbreviation offered :=
  (fun opt : AmqpOptions.SendOpts =>
     opt = AmqpOptions.WithMandatory \/ opt = AmqpOptions.WithImmediate).

(** [Connect] only dials and opens channels. *)
Lemma Connect_calls (st : State) :
  exists made,
    calls (Connect st).2 = (calls st ++ made)%list
    /\ Forall (fun c => is_publish c = false) made.
Proof.
  unfold AmqpTransport.Connect, call. simpl.
  destruct (broker (calls st) _); simpl;
    [|eexists [_]; split; [done|]; by repeat constructor].
  destruct (broker (calls st ++ _)%list _); simpl;
    [|eexists [_; _]; split; [by rewrite <- app_assoc|]; by repeat constructor].
  destruct (broker ((calls st ++ _) ++ _)%list _); simpl;
    eexists [_; _; _]; (split; [by rewrite <- !app_assoc|]); by repeat constructor.
Qed.

(** X22: with the send options the package offers, [Send] never
    publishes with the immediate flag. For any list of [WithMandatory] and
    [WithImmediate], [Send] is: connect when the transport holds no
    connection, and return the error of [Connect] without publishing when
    it fails; else call [Publish] once on the sending channel, with
    immediate unset and with mandatory set as soon as the list holds an
    option, and return the error of [Publish]. *)
Theorem Send_never_publishes_immediate
    (outboundPkg : OutboundPkg) (options : list AmqpOptions.SendOpts) (st : State) :
  Forall offered options ->
  let mandatory := bool_decide (options <> []) in
  Send outboundPkg options st
  = connected broker (publish broker outboundPkg mandatory false) st
  /\ (forall conn ch,
        connection (transport st) = Some conn ->
        sendingChan (transport st) = Some ch ->
        let published := publish_call ch outboundPkg mandatory false in
        Send outboundPkg options st
        = (Done (if broker (calls st) published then None else Some ErrPublish),
           mkState (transport st) (calls st ++ [published])))
  /\ (forall err,
        connection (transport st) = None ->
        (Connect st).1 = Some err ->
        Send outboundPkg options st = (Done (Some err), (Connect st).2)
        /\ exists made,
             calls (Connect st).2 = (calls st ++ made)%list
             /\ Forall (fun c => is_publish c = false) made).
Proof.
  intros Hoffered mandatory.
  assert (Hflags : AmqpOptions.applySendOpts options
                     (AmqpOptions.SendOptionsPtr (AmqpOptions.mkSendOptions false false))
                   = inr (AmqpOptions.SendOptionsPtr
                            (AmqpOptions.mkSendOptions mandatory false))).
  { rewrite (applySendOpts_offered options _ Hoffered). simpl.
    subst mandatory. by destruct options. }
  assert (Hsend : Send outboundPkg options st
                  = connected broker (publish broker outboundPkg mandatory false) st).
  { unfold AmqpTransport.Send. by rewrite Hflags. }
  split; [exact Hsend|]. split.
  - intros conn ch Hconn Hch published. rewrite Hsend.
    unfold connected, publish, on_sendingChan, call. rewrite Hconn, Hch. simpl.
    fold published. by destruct (broker (calls st) published).
  - intros err Hconn Herr. split; [|apply Connect_calls].
    rewrite Hsend. unfold connected. rewrite Hconn.
    destruct (Connect st) as [[e|] st1]; simpl in *; [by injection Herr as ->|done].
Qed.

(** X23: an option of [Consume] among the options of [Send] aborts the
    send before anything is published, whatever send options come before
    it and whatever comes after it. On a transport that holds a
    connection [Send] makes no call and returns the error of the option,
    "SuppliedOption must be amqp.ConsumeOptions"; on one that holds none
    it does what [Connect] does and returns its error or else the error
    of the option. *)
Theorem Send_rejects_a_consume_option
    (outboundPkg : OutboundPkg) (sent : list AmqpOptions.SendOpts)
    (c : AmqpOptions.ConsumeOpts) (rest : list AmqpOptions.SendOpts) (st : State) :
  Forall offered sent ->
  c = AmqpOptions.WithExclusive \/ c = AmqpOptions.WithNoLocal
  \/ c = AmqpOptions.WithNoWait
  \/ (exists limit, c = AmqpOptions.WithQosPrefetchCount limit) ->
  let refused := ErrOption AmqpOptions.ErrNotConsumeOptions in
  let r := Send outboundPkg (sent ++ c :: rest) st in
  r = match connection (transport st) with
      | Some _ => (Done (Some refused), st)
      | None => (Done (Some (default refused (Connect st).1)), (Connect st).2)
      end
  /\ exists made,
       calls r.2 = (calls st ++ made)%list
       /\ Forall (fun c => is_publish c = false) made.
Proof.
  intros Hoffered Hc refused r.
  assert (Hr : r = match connection (transport st) with
                   | Some _ => (Done (Some refused), st)
                   | None => (Done (Some (default refused (Connect st).1)), (Connect st).2)
                   end).
  { subst r. unfold AmqpTransport.Send, connected.
    rewrite (applySendOpts_rejects sent c rest _ Hoffered).
    - destruct (connection (transport st)); [done|].
      by destruct (Connect st) as [[e|] st1].
    - intros o'. by destruct Hc as [-> | [-> | [-> | [limit ->]]]]. }
  split; [exact Hr|]. rewrite Hr.
  destruct (connection (transport st)); simpl.
  - exists []. by rewrite app_nil_r.
  - apply Connect_calls.
Qed.

End AmqpTransportSend.

Section AmqpTransportSendExamples.
Import AmqpTransport.

Lemma Send_never_publishes_immediate_witness :
  Forall (fun opt => opt = AmqpOptions.WithMandatory \/ opt = AmqpOptions.WithImmediate)
         [AmqpOptions.WithImmediate; AmqpOptions.WithMandatory; AmqpOptions.WithImmediate]
  /\ connection (transport online_state) = Some 0
  /\ sendingChan (transport online_state) = Some 1
  /\ Send no_audit_bind order_placed
          [AmqpOptions.WithImmediate; AmqpOptions.WithMandatory;
           AmqpOptions.WithImmediate] online_state
     = (Done None,
        mkState (transport online_state)
                (calls online_state ++ [publish_call 1 order_placed true false]))
  /\ connection (transport fresh_state) = None
  /\ (Connect unreachable fresh_state).1 = Some ErrDial
  /\ Send unreachable order_placed
          [AmqpOptions.WithImmediate; AmqpOptions.WithMandatory;
           AmqpOptions.WithImmediate] fresh_state
     = (Done (Some ErrDial), mkState (transport fresh_state) [Dial "amqp://broker"]).
Proof.
  assert (Hoffered : Forall (fun opt => opt = AmqpOptions.WithMandatory
                                        \/ opt = AmqpOptions.WithImmediate)
                            [AmqpOptions.WithImmediate; AmqpOptions.WithMandatory;
                             AmqpOptions.WithImmediate])
    by (repeat constructor; (by left) || (by right)).
  split; [exact Hoffered|]. split; [reflexivity|]. split; [reflexivity|].
  destruct (Send_never_publishes_immediate no_audit_bind order_placed _ online_state
              Hoffered) as [_ [Hpublished _]].
  destruct (Send_never_publishes_immediate unreachable order_placed _ fresh_state
              Hoffered) as [_ [_ Hfailed]].
  split; [exact (Hpublished 0 1 eq_refl eq_refl)|].
  split; [reflexivity|]. split; [reflexivity|].
  exact (proj1 (Hfailed ErrDial eq_refl eq_refl)).
Defined.

Lemma Send_rejects_a_consume_option_witness :
  Forall (fun opt => opt = AmqpOptions.WithMandatory \/ opt = AmqpOptions.WithImmediate)
         [AmqpOptions.WithMandatory]
  /\ Send no_audit_bind order_placed
          [AmqpOptions.WithMandatory; AmqpOptions.WithQosPrefetchCount 100;
           AmqpOptions.WithImmediate] online_state
     = (Done (Some (ErrOption AmqpOptions.ErrNotConsumeOptions)), online_state)
  /\ Send unreachable order_placed
          [AmqpOptions.WithMandatory; AmqpOptions.WithQosPrefetchCount 100;
           AmqpOptions.WithImmediate] fresh_state
     = (Done (Some ErrDial), mkState (transport fresh_state) [Dial "amqp://broker"]).
Proof.
  assert (Hoffered : Forall (fun opt => opt = AmqpOptions.WithMandatory
                                        \/ opt = AmqpOptions.WithImmediate)
                            [AmqpOptions.WithMandatory])
    by (repeat constructor; by left).
  split; [exact Hoffered|]. split.
  - exact (proj1 (Send_rejects_a_consume_option no_audit_bind order_placed
                    [AmqpOptions.WithMandatory] (AmqpOptions.WithQosPrefetchCount 100)
                    [AmqpOptions.WithImmediate] online_state Hoffered
                    (or_intror (or_intror (or_intror (ex_intro _ 100%Z eq_refl)))))).
  - exact (proj1 (Send_rejects_a_consume_option unreachable order_placed
                    [AmqpOptions.WithMandatory] (AmqpOptions.WithQosPrefetchCount 100)
                    [AmqpOptions.WithImmediate] fresh_state Hoffered
                    (or_intror (or_intror (or_intror (ex_intro _ 100%Z eq_refl)))))).
Defined.

End AmqpTransportSendExamples.

(** ** The MySQL store: the rows of a filter query *)

Section MysqlStoreFilterRows.
Import MysqlStore.

Context {V St MT : Type}.
Variable codec : Codec V St MT.

Local Abbreviation Inst := (LoadedInstance V St MT).
Local Abbreviation row_of sagaId := (fun r : joinedRow => r.1.1 = sagaId).
Local Abbreviation with_event := (fun ev : historyRow => h_id ev <> "").

Lemma append_events_fields (events : list (LoadedEvent V MT)) : forall inst : Inst,
  foldl append_event inst events
  = mkLoadedInstance (li_id inst) (li_status inst) (li_parentID inst)
                     (li_historyEvents inst ++ events)%list
                     (li_startedAt inst) (li_updatedAt inst) (li_saga inst).
Proof.
  induction events as [|e events IH]; intros inst; simpl.
  - rewrite app_nil_r. by destruct inst.
  - rewrite IH. simpl. by rewrite <- app_assoc.
Qed.

Lemma instanceFromModel_fields (sagaId : string) (sagaData : sagaRow) (inst : Inst) :
  instanceFromModel codec sagaId sagaData = inr inst ->
  li_id inst = sagaId
  /\ li_parentID inst = s_parent_id sagaData
  /\ li_startedAt inst = s_started_at sagaData
  /\ li_updatedAt inst = s_updated_at sagaData
  /\ li_historyEvents inst = []
  /\ StatusFromStr codec (s_status sagaData) = Some (li_status inst)
  /\ Unmarshal codec (s_name sagaData) (s_payload sagaData) = Some (li_saga inst).
Proof.
  unfold instanceFromModel. intros Hinst.
  destruct (StatusFromStr codec (s_status sagaData)) as [status|]; [|discriminate].
  destruct (LoadType codec (s_name sagaData)); [|discriminate]. simpl in Hinst.
  destruct (Unmarshal codec (s_name sagaData) (s_payload sagaData)) as [saga|];
    [|discriminate].
  destruct (is_Saga codec saga); [|discriminate]. simpl in Hinst.
  injection Hinst as <-. done.
Qed.

(** The loop over the rows, from any row and any map on. *)
Lemma scan_sagas_groups (f : ReadFaults) (rows : list joinedRow) :
  forall (i : nat) (sagas0 sagas : gmap string Inst),
    scan_sagas codec f i rows sagas0 = inr (false, sagas) ->
    forall sagaId,
      exists events,
        Forall2 (fun ev e => eventFromModel codec ev = inr e)
                (filter with_event (snd <$> filter (row_of sagaId) rows)) events
        /\ match sagas0 !! sagaId with
           | Some inst0 => sagas !! sagaId = Some (foldl append_event inst0 events)
           | None =>
               match filter (row_of sagaId) rows with
               | [] => sagas !! sagaId = None
               | (_, sagaData, _) :: _ =>
                   exists inst0,
                     instanceFromModel codec sagaId sagaData = inr inst0
                     /\ sagas !! sagaId = Some (foldl append_event inst0 events)
               end
           end.
Proof.
  induction rows as [|[[sid sagaData] ev] rest IH]; intros i sagas0 sagas Hscan sagaId.
  - simpl in Hscan. injection Hscan as <-. exists []. split; [constructor|].
    by destruct (sagas0 !! sagaId).
  - simpl in Hscan.
    case_bool_decide; [discriminate|]. case_bool_decide; [discriminate|].
    destruct (decide (sid = sagaId)) as [->|Hne].
    + rewrite filter_cons_True by done. rewrite fmap_cons. simpl.
      destruct (sagas0 !! sagaId) as [inst|] eqn:Hold.
      * case_bool_decide as Hev.
        -- destruct (eventFromModel codec ev) as [err|e] eqn:He; [discriminate|].
           destruct (IH _ _ _ Hscan sagaId) as [events [Hdec Hres]].
           rewrite lookup_insert_eq in Hres.
           rewrite filter_cons_True by exact Hev.
           exists (e :: events). split; [by constructor|]. done.
        -- destruct (IH _ _ _ Hscan sagaId) as [events [Hdec Hres]].
           rewrite Hold in Hres.
           rewrite filter_cons_False by (intros Hx; exact (Hx Hev)).
           exists events. by split.
      * destruct (instanceFromModel codec sagaId sagaData) as [err|inst] eqn:Hinst;
          [discriminate|].
        case_bool_decide as Hev.
        -- destruct (eventFromModel codec ev) as [err|e] eqn:He; [discriminate|].
           destruct (IH _ _ _ Hscan sagaId) as [events [Hdec Hres]].
           rewrite lookup_insert_eq in Hres.
           rewrite filter_cons_True by exact Hev.
           exists (e :: events). split; [by constructor|]. by exists inst.
        -- destruct (IH _ _ _ Hscan sagaId) as [events [Hdec Hres]].
           rewrite lookup_insert_eq in Hres.
           rewrite filter_cons_False by (intros Hx; exact (Hx Hev)).
           exists events. split; [done|]. by exists inst.
    + rewrite filter_cons_False by done.
      destruct (sagas0 !! sid) as [inst|] eqn:Hold.
      * case_bool_decide as Hev.
        -- destruct (eventFromModel codec ev) as [err|e] eqn:He; [discriminate|].
           destruct (IH _ _ _ Hscan sagaId) as [events [Hdec Hres]].
           rewrite lookup_insert_ne in Hres by done.
           by exists events.
        -- by apply (IH _ _ _ Hscan sagaId).
      * destruct (instanceFromModel codec sid sagaData) as [err|inst] eqn:Hinst;
          [discriminate|].
        case_bool_decide as Hev.
        -- destruct (eventFromModel codec ev) as [err|e] eqn:He; [discriminate|].
           destruct (IH _ _ _ Hscan sagaId) as [events [Hdec Hres]].
           rewrite !lookup_insert_ne in Hres by done.
           by exists events.
        -- destruct (IH _ _ _ Hscan sagaId) as [events [Hdec Hres]].
           rewrite lookup_insert_ne in Hres by done.
           by exists events.
Qed.

Lemma scan_sagas_whole (f : ReadFaults) (rows : list joinedRow) :
  events_rows_stop_at f = None ->
  forall (i : nat) (sagas0 : gmap string Inst) (broke : bool) (sagas : gmap string Inst),
    scan_sagas codec f i rows sagas0 = inr (broke, sagas) -> broke = false.
Proof.
  intros Hstop.
  induction rows as [|[[sid sagaData] ev] rest IH]; intros i sagas0 broke sagas Hscan.
  - simpl in Hscan. by injection Hscan as <- _.
  - simpl in Hscan. rewrite Hstop in Hscan.
    rewrite bool_decide_eq_false_2 in Hscan by done.
    case_bool_decide; [discriminate|].
    destruct (sagas0 !! sid) as [inst|].
    + case_bool_decide; [|by eapply IH].
      destruct (eventFromModel codec ev); [discriminate|]. by eapply IH.
    + destruct (instanceFromModel codec sid sagaData); [discriminate|].
      case_bool_decide; [|by eapply IH].
      destruct (eventFromModel codec ev); [discriminate|]. by eapply IH.
Qed.

(** X24: what [GetByFilter] makes of the rows of its query, when the
    cursor is read to its end and no row fails. There is one instance per
    saga id among the rows, however many rows the saga has, and none for
    any other id. The instance is built from the first row of the saga;
    its history holds, in the order of the rows, the decoded event of
    every row of the saga that has an event id: a saga without history is
    returned with an empty history. *)
Theorem GetByFilter_groups_the_rows_by_saga
    (f : ReadFaults) (rows : list joinedRow) (sagas : gmap string Inst) :
  events_rows_stop_at f = None ->
  instances_of_rows codec f rows = inr sagas ->
  forall sagaId,
    match filter (row_of sagaId) rows with
    | [] => sagas !! sagaId = None
    | (_, sagaData, _) :: _ =>
        exists inst,
          sagas !! sagaId = Some inst
          /\ li_id inst = sagaId
          /\ li_parentID inst = s_parent_id sagaData
          /\ li_startedAt inst = s_started_at sagaData
          /\ li_updatedAt inst = s_updated_at sagaData
          /\ StatusFromStr codec (s_status sagaData) = Some (li_status inst)
          /\ Unmarshal codec (s_name sagaData) (s_payload sagaData) = Some (li_saga inst)
          /\ Forall2 (fun ev e => eventFromModel codec ev = inr e)
                     (filter with_event (snd <$> filter (row_of sagaId) rows))
                     (li_historyEvents inst)
    end.
Proof.
  intros Hstop Hres sagaId. unfold instances_of_rows in Hres.
  destruct (scan_sagas codec f 0 rows ∅) as [err|[broke scanned]] eqn:Hscan;
    [discriminate|].
  assert (broke = false) as -> by (by eapply scan_sagas_whole).
  injection Hres as ->.
  destruct (scan_sagas_groups f rows 0 ∅ sagas Hscan sagaId) as [events [Hdec Hgroup]].
  rewrite lookup_empty in Hgroup.
  destruct (filter (row_of sagaId) rows) as [|[[sid sagaData] ev] mine]; [done|].
  destruct Hgroup as [inst0 [Hinst Hlook]].
  apply instanceFromModel_fields in Hinst as [Hid [Hp [Hs [Hu [Hh [Hst Hsaga]]]]]].
  eexists. split; [exact Hlook|].
  rewrite append_events_fields. simpl. rewrite Hh. simpl.
  repeat split; done.
Qed.

(** The loop over rows that the cursor stops in: it goes through the rows
    before the stop as it would if they were all, and then breaks. *)
Lemma scan_sagas_stopped (f : ReadFaults) (n : nat) (row : joinedRow)
    (rest : list joinedRow) :
  events_rows_stop_at f = Some n ->
  forall (before : list joinedRow) (i : nat) (sagas0 : gmap string Inst),
    i + length before = n ->
    scan_sagas codec f i (before ++ row :: rest) sagas0
    = match scan_sagas codec f i before sagas0 with
      | inl err => inl err
      | inr (_, sagas) => inr (true, sagas)
      end.
Proof.
  intros Hstop.
  induction before as [|[[sid sagaData] ev] before IH]; intros i sagas0 Hi.
  - simpl in Hi. destruct row as [[sid sagaData] ev]. simpl.
    rewrite bool_decide_eq_true_2; [done|]. rewrite Hstop. f_equal. lia.
  - simpl in Hi. simpl.
    rewrite bool_decide_eq_false_2 by (rewrite Hstop; intros [=]; lia).
    case_bool_decide; [done|].
    destruct (sagas0 !! sid) as [inst|].
    + case_bool_decide; [|apply IH; lia].
      destruct (eventFromModel codec ev); [done|]. apply IH. lia.
    + destruct (instanceFromModel codec sid sagaData); [done|].
      case_bool_decide; [|apply IH; lia].
      destruct (eventFromModel codec ev); [done|]. apply IH. lia.
Qed.

(** The loop over rows that all decode, before any fault of the cursor. *)
Lemma scan_sagas_reads (f : ReadFaults) (n : nat) :
  events_rows_stop_at f = Some n ->
  (forall m, events_scan_fails_at f = Some m -> n <= m) ->
  forall (rows : list joinedRow) (i : nat) (sagas0 : gmap string Inst),
    i + length rows <= n ->
    Forall (row_decodes codec) rows ->
    exists sagas, scan_sagas codec f i rows sagas0 = inr (false, sagas).
Proof.
  intros Hstop Hscan.
  induction rows as [|[[sid sagaData] ev] rows IH]; intros i sagas0 Hi Hdec.
  - by eexists.
  - simpl in Hi. apply Forall_cons in Hdec as [[[inst Hinst] Hev] Hdec].
    simpl in Hinst, Hev. simpl.
    rewrite bool_decide_eq_false_2 by (rewrite Hstop; intros [=]; lia).
    rewrite bool_decide_eq_false_2
      by (intros Hhere; apply Hscan in Hhere; lia).
    destruct (sagas0 !! sid) as [known|].
    + case_bool_decide as Hid; [|apply IH; [lia|done]].
      destruct (Hev Hid) as [e ->]. apply IH; [lia|done].
    + rewrite Hinst.
      case_bool_decide as Hid; [|apply IH; [lia|done]].
      destruct (Hev Hid) as [e ->]. apply IH; [lia|done].
Qed.

(** X25: when the cursor of [GetByFilter] breaks at one of the rows, the
    function does not report it. It returns what the rows before the
    break give, when one of them fails, and else no error and no
    instance: if the registry decodes every row before the break and no
    scan fails before it, [GetByFilter] returns an empty result and
    [nil], whatever these rows held. *)
Theorem GetByFilter_hides_a_broken_cursor
    (f : ReadFaults) (n : nat) (rows : list joinedRow) :
  events_rows_stop_at f = Some n ->
  n < length rows ->
  instances_of_rows codec f rows
  = match scan_sagas codec f 0 (take n rows) ∅ with
    | inl err => inl err
    | inr _ => inr ∅
    end
  /\ ((forall m, events_scan_fails_at f = Some m -> n <= m) ->
      Forall (row_decodes codec) (take n rows) ->
      instances_of_rows codec f rows = inr ∅).
Proof.
  intros Hstop Hn.
  assert (Hsplit : exists row rest, rows = (take n rows ++ row :: rest)%list).
  { destruct (drop n rows) as [|row rest] eqn:Hdrop.
    - apply (f_equal length) in Hdrop. rewrite length_drop in Hdrop. simpl in Hdrop. lia.
    - exists row, rest. by rewrite <- Hdrop, take_drop. }
  destruct Hsplit as [row [rest Hrows]].
  assert (Hlen : 0 + length (take n rows) = n) by (rewrite length_take; lia).
  assert (Hbroken : instances_of_rows codec f rows
                    = match scan_sagas codec f 0 (take n rows) ∅ with
                      | inl err => inl err
                      | inr _ => inr ∅
                      end).
  { unfold instances_of_rows. rewrite Hrows at 1.
    rewrite (scan_sagas_stopped f n row rest Hstop (take n rows) 0 ∅ Hlen).
    by destruct (scan_sagas codec f 0 (take n rows) ∅) as [err|[broke sagas]]. }
  split; [exact Hbroken|].
  intros Hscan Hdec. rewrite Hbroken.
  destruct (scan_sagas_reads f n Hstop Hscan (take n rows) 0 ∅) as [sagas ->];
    [lia|done|done].
Qed.

End MysqlStoreFilterRows.

Section MysqlStoreFilterRowsExamples.
Import MysqlStore.

Lemma GetByFilter_groups_the_rows_by_saga_witness :
  events_rows_stop_at no_read_faults = None
  /\ exists sagas,
       instances_of_rows text_codec no_read_faults filter_rows = inr sagas
       /\ sagas !! "s3" = None
       /\ exists parent child,
            sagas !! "s1" = Some parent
            /\ sagas !! "s2" = Some child
            /\ li_parentID child = "s1"
            /\ li_historyEvents child = []
            /\ le_ID <$> li_historyEvents parent = ["a"; "b"].
Proof.
  split; [reflexivity|].
  destruct (instances_of_rows text_codec no_read_faults filter_rows)
    as [err|sagas] eqn:Hres; [by vm_compute in Hres|].
  exists sagas. split; [reflexivity|].
  pose proof (GetByFilter_groups_the_rows_by_saga text_codec no_read_faults filter_rows
                sagas eq_refl Hres) as Hgroups.
  pose proof (Hgroups "s3") as Hnone.
  destruct (Hgroups "s1") as [parent [Hparent [_ [_ [_ [_ [_ [_ Hevents]]]]]]]].
  destruct (Hgroups "s2") as [child [Hchild [_ [Hof [_ [_ [_ [_ Hnothing]]]]]]]].
  split; [exact Hnone|]. exists parent, child.
  split; [exact Hparent|]. split; [exact Hchild|]. split; [exact Hof|].
  simpl in Hevents, Hnothing.
  apply Forall2_nil_inv_l in Hnothing. split; [exact Hnothing|].
  apply Forall2_cons_inv_l in Hevents as [ea [rest [Ha [Hevents ->]]]].
  apply Forall2_cons_inv_l in Hevents as [eb [rest' [Hb [Hevents ->]]]].
  apply Forall2_nil_inv_l in Hevents as ->.
  vm_compute in Ha, Hb. injection Ha as <-. injection Hb as <-. reflexivity.
Defined.

Lemma GetByFilter_hides_a_broken_cursor_witness :
  events_rows_stop_at (mkReadFaults false false None (Some 2)) = Some 2
  /\ 2 < length filter_rows
  /\ Forall (row_decodes text_codec) (take 2 filter_rows)
  /\ instances_of_rows text_codec (mkReadFaults false false None (Some 2)) filter_rows
     = inr ∅.
Proof.
  assert (Hlen : 2 < length filter_rows) by (simpl; lia).
  assert (Hdec : Forall (row_decodes text_codec) (take 2 filter_rows)).
  { repeat constructor; simpl.
    - eexists. vm_compute. reflexivity.
    - intros _. eexists. vm_compute. reflexivity.
    - eexists. vm_compute. reflexivity.
    - intros Hid. by destruct Hid. }
  split; [reflexivity|]. split; [exact Hlen|]. split; [exact Hdec|].
  apply (GetByFilter_hides_a_broken_cursor text_codec
           (mkReadFaults false false None (Some 2)) 2 filter_rows eq_refl Hlen);
    [|exact Hdec].
  intros m Hm. discriminate Hm.
Defined.

End MysqlStoreFilterRowsExamples.

(** ** The AMQP transport: connecting and declaring *)

Section AmqpTransportFacts.
Import AmqpTransport.

Variable broker : Broker.

Local Abbreviation Connect := (Connect broker).
Local Abbreviation CreateTopic := (CreateTopic broker).
Local Abbreviation CreateQueue := (CreateQueue broker).

(** [Connect] leaves the transport as it was, with an error, or it has
    set the connection and the sending channel. *)
Lemma Connect_shape (st : State) :
  (transport (Connect st).2 = transport st /\ is_Some (Connect st).1)
  \/ (is_Some (connection (transport (Connect st).2))
      /\ is_Some (sendingChan (transport (Connect st).2))).
Proof.
  unfold AmqpTransport.Connect, call. simpl.
  destruct (broker (calls st) _); simpl; [|left; by eauto].
  destruct (broker (calls st ++ _)%list _); simpl; [|left; by eauto].
  destruct (broker ((calls st ++ _) ++ _)%list _); simpl; right; by eauto.
Qed.

Lemma Connect_wired (st : State) :
  wired (transport st) -> wired (transport (Connect st).2).
Proof.
  intros Hwired. destruct (Connect_shape st) as [[-> _]|[_ Hch]]; [done|by right].
Qed.

Lemma Connect_ok (st st1 : State) :
  Connect st = (None, st1) -> is_Some (sendingChan (transport st1)).
Proof.
  intros HC. destruct (Connect_shape st) as [[_ Herr]|[_ Hch]]; rewrite HC in *; simpl in *.
  - by destruct Herr.
  - done.
Qed.

Lemma connected_wired (rest : State -> Outcome * State) :
  (forall st, is_Some (sendingChan (transport st)) ->
              (rest st).1 <> NilChannel /\ transport (rest st).2 = transport st) ->
  forall st, wired (transport st) ->
    (connected broker rest st).1 <> NilChannel
    /\ wired (transport (connected broker rest st).2).
Proof.
  intros Hrest st Hwired. unfold connected.
  destruct (connection (transport st)) as [conn|] eqn:Hconn.
  - destruct Hwired as [Hnone|Hch]; [congruence|].
    destruct (Hrest st Hch) as [Hno Hsame]. split; [done|].
    rewrite Hsame. by right.
  - pose proof (Connect_wired st ltac:(by left)) as Hwired1.
    destruct (Connect st) as [[err|] st1] eqn:HC; simpl in *; [done|].
    apply Connect_ok in HC.
    destruct (Hrest st1 HC) as [Hno Hsame]. split; [done|].
    rewrite Hsame. by right.
Qed.

Lemma bind_all_transport (ch : nat) (queue : amqpQueue) (binds : list amqpQueueBind) :
  forall st,
    (bind_all broker ch queue binds st).1 <> NilChannel
    /\ transport (bind_all broker ch queue binds st).2 = transport st.
Proof.
  induction binds as [|qb rest IH]; intros st; simpl; [done|].
  destruct (broker (calls st) _); simpl; [|done].
  destruct (IH (mkState (transport st) (calls st ++ [bind_call ch queue qb])))
    as [Hno Hsame].
  by split.
Qed.

Lemma step_wired (op : Op) (st : State) :
  wired (transport st) ->
  (step broker op st).1 <> NilChannel /\ wired (transport (step broker op st).2).
Proof.
  intros Hwired. destruct op as [|topic|q qbs|outboundPkg options]; simpl.
  - pose proof (Connect_wired st Hwired) as Hwired1.
    by destruct (Connect st) as [err st1].
  - apply connected_wired; [|done]. intros st1 [ch Hch].
    destruct topic as [t|name]; [|done].
    unfold on_sendingChan, call. rewrite Hch. simpl.
    by destruct (broker (calls st1) _).
  - apply connected_wired; [|done]. intros st1 [ch Hch].
    destruct q as [queue|name]; [|done].
    destruct (convert_binds qbs []) as [binds|]; [|done].
    unfold on_sendingChan, call. rewrite Hch. simpl.
    destruct (broker (calls st1) _); simpl; [|done].
    match goal with |- context [bind_all broker ch queue binds ?s] =>
      destruct (bind_all_transport ch queue binds s) as [Hno Hsame] end.
    by split.
  - apply connected_wired; [|done]. intros st1 [ch Hch].
    destruct (AmqpOptions.applySendOpts options _) as [err|[o|o|]]; [done|done| |done].
    unfold publish, on_sendingChan, call. rewrite Hch. simpl.
    by destruct (broker (calls st1) _).
Qed.

Lemma run_wired (ops : list Op) : forall st,
  wired (transport st) ->
  Forall (fun o => o <> NilChannel) (run broker ops st).1
  /\ wired (transport (run broker ops st).2).
Proof.
  induction ops as [|op rest IH]; intros st Hwired; simpl.
  - by split.
  - destruct (step_wired op st Hwired) as [Hno Hwired1].
    destruct (step broker op st) as [o st1]. simpl in *.
    destruct (IH st1 Hwired1) as [Hall Hwired2].
    destruct (run broker rest st1) as [os st2]. simpl in *.
    split; [by constructor|done].
Qed.

(** X26: a transport made by [NewTransport] never calls a nil sending
    channel: whatever the broker answers to whatever sequence of
    [Connect], [CreateTopic], [CreateQueue] and [Send], none of them
    panics on [t.sendingChan], because the transport holds a sending
    channel whenever it holds a connection. *)
Theorem sending_channel_is_set_with_the_connection (ops : list Op) (address : string) :
  let r := run broker ops (mkState (NewTransport address) []) in
  Forall (fun o => o <> NilChannel) r.1
  /\ (connection (transport r.2) = None \/ is_Some (sendingChan (transport r.2))).
Proof. intros r. apply run_wired. by left. Qed.

Lemma convert_binds_amqp (binds : list amqpQueueBind) : forall queueBinds,
  convert_binds (AmqpQueueBind <$> binds) queueBinds = Some (queueBinds ++ binds)%list.
Proof.
  induction binds as [|qb rest IH]; intros queueBinds; simpl.
  - by rewrite app_nil_r.
  - by rewrite IH, <- app_assoc.
Qed.

Lemma convert_binds_other (qbs : list QueueBind) (topic key : string) :
  OtherQueueBind topic key ∈ qbs ->
  forall queueBinds, convert_binds qbs queueBinds = None.
Proof.
  induction qbs as [|qb rest IH]; intros Hin queueBinds.
  - by apply elem_of_nil in Hin.
  - apply elem_of_cons in Hin as [<-|Hin]; [done|].
    destruct qb; simpl; [by apply IH|done].
Qed.

(** The calls of the loop over the binds. *)
Lemma bind_all_calls (ch : nat) (queue : amqpQueue) (binds : list amqpQueueBind) :
  forall st,
    let r := bind_all broker ch queue binds st in
    exists n,
      n <= length binds
      /\ calls r.2 = (calls st ++ (bind_call ch queue <$> take n binds))%list
      /\ match r.1 with
         | Done None => n = length binds
         | Done (Some err) =>
             exists earlier qb,
               calls r.2 = (earlier ++ [bind_call ch queue qb])%list
               /\ broker earlier (bind_call ch queue qb) = false
               /\ err = ErrQueueBind (queue_Name queue) (BindingKey qb)
         | NilChannel => False
         end.
Proof.
  induction binds as [|qb rest IH]; intros st r; subst r; simpl.
  - exists 0. by rewrite app_nil_r.
  - destruct (broker (calls st) (bind_call ch queue qb)) eqn:Hok; simpl.
    + destruct (IH (mkState (transport st) (calls st ++ [bind_call ch queue qb])))
        as [n [Hn [Hcalls Hres]]].
      exists (Datatypes.S n). split; [lia|]. split.
      * rewrite Hcalls. simpl. by rewrite <- app_assoc.
      * destruct (bind_all broker ch queue rest _).1 as [[err|]|]; [done|lia|done].
    + exists 1. split; [lia|]. split; [done|].
      by exists (calls st), qb.
Qed.

(** X27: on a connected transport [CreateQueue] declares the queue, then
    binds it once per bind, in the order of the binds, and stops at the
    first call the broker refuses: what was declared and bound before
    stays. It returns [nil] only when every bind was made, and an error of
    the broker only when the last call it made was refused. It does not
    touch the connection. *)
Theorem CreateQueue_declares_then_binds_in_order
    (st : State) (conn ch : nat) (queue : amqpQueue) (binds : list amqpQueueBind) :
  connection (transport st) = Some conn ->
  sendingChan (transport st) = Some ch ->
  let r := CreateQueue (AmqpQueue queue) (AmqpQueueBind <$> binds) st in
  exists n,
    n <= length binds
    /\ calls r.2
       = (calls st ++ declare_call ch queue :: (bind_call ch queue <$> take n binds))%list
    /\ transport r.2 = transport st
    /\ match r.1 with
       | Done None => n = length binds
       | Done (Some err) =>
           exists earlier c, calls r.2 = (earlier ++ [c])%list /\ broker earlier c = false
       | NilChannel => False
       end.
Proof.
  intros Hconn Hch r. subst r.
  unfold AmqpTransport.CreateQueue, connected. rewrite Hconn.
  rewrite convert_binds_amqp. unfold on_sendingChan, call. rewrite Hch. simpl.
  destruct (broker (calls st) (declare_call ch queue)) eqn:Hok; simpl.
  - destruct (bind_all_calls ch queue binds
                (mkState (transport st) (calls st ++ [declare_call ch queue])))
      as [n [Hn [Hcalls Hres]]].
    destruct (bind_all_transport ch queue binds
                (mkState (transport st) (calls st ++ [declare_call ch queue])))
      as [_ Hsame].
    exists n. split; [done|]. split; [|split; [done|]].
    + rewrite Hcalls. simpl. by rewrite <- app_assoc.
    + destruct (bind_all broker ch queue binds _).1 as [[err|]|]; [|done|done].
      destruct Hres as [earlier [qb [Hlast [Hrefused _]]]]. by eexists _, _.
  - exists 0. split; [lia|]. split; [done|]. split; [done|].
    by exists (calls st), (declare_call ch queue).
Qed.

(** X28: the type of a topic, of a queue and of its binds is checked
    after the connection is made. With a topic or a queue of another
    type, or with one bind of another type among the binds, [CreateTopic]
    and [CreateQueue] declare and bind nothing; on a transport that holds
    a connection they make no call at all, and on one that holds none
    they do what [Connect] does, dial included, and return its error or
    else the type error. *)
Theorem foreign_arguments_are_refused_after_connecting
    (op : Op) (err : Error) (st : State) :
  foreign op err ->
  step broker op st
  = match connection (transport st) with
    | Some _ => (Done (Some err), st)
    | None => (Done (Some (default err (Connect st).1)), (Connect st).2)
    end.
Proof.
  intros Hforeign. destruct Hforeign as [name|name qbs|queue qbs topic key Hin]; simpl.
  - unfold AmqpTransport.CreateTopic, connected.
    destruct (connection (transport st)); [done|].
    by destruct (Connect st) as [[e|] st1].
  - unfold AmqpTransport.CreateQueue, connected.
    destruct (connection (transport st)); [done|].
    by destruct (Connect st) as [[e|] st1].
  - unfold AmqpTransport.CreateQueue, connected.
    rewrite (convert_binds_other qbs topic key Hin).
    destruct (connection (transport st)); [done|].
    by destruct (Connect st) as [[e|] st1].
Qed.

(** X29: a connection whose second channel the broker refuses is kept.
    [Connect] then returns the error, but the transport holds the
    connection and the sending channel, so that a following [CreateTopic]
    does not connect again: its only call declares the exchange on that
    sending channel. When it is the first channel that is refused, the
    transport is left as it was, and the connection that was dialed is
    not kept. *)
Theorem half_open_connection_is_kept (st : State) (topic : amqpTopic) :
  let address := url (transport st) in
  let conn := length (calls st) in
  let dialed := (calls st ++ [Dial address])%list in
  broker (calls st) (Dial address) = true ->
  (broker dialed (Channel conn) = false ->
   Connect st
   = (Some ErrChannel, mkState (transport st) (dialed ++ [Channel conn])%list))
  /\ (broker dialed (Channel conn) = true ->
      broker (dialed ++ [Channel conn])%list (Channel conn) = false ->
      let st1 := mkState (mkTransport address (Some conn) (Some (Datatypes.S conn))
                                      (receivingChan (transport st)))
                         (dialed ++ [Channel conn; Channel conn])%list in
      let declare := ExchangeDeclare (Datatypes.S conn) (topic_Name topic) "topic"
                       (topic_durable topic) (topic_autoDelete topic)
                       (topic_internal topic) (topic_noWait topic) in
      Connect st = (Some ErrChannel, st1)
      /\ calls (CreateTopic (AmqpTopic topic) st1).2 = (calls st1 ++ [declare])%list
      /\ (CreateTopic (AmqpTopic topic) st1).1
         = Done (if broker (calls st1) declare then None
                 else Some (ErrExchangeDeclare (topic_Name topic)))).
Proof.
  intros address conn dialed Hdial. split.
  - intros Hfirst. unfold AmqpTransport.Connect, call. simpl.
    fold address. rewrite Hdial. simpl. fold conn. fold dialed. by rewrite Hfirst.
  - intros Hfirst Hsecond st1 declare.
    assert (HC : Connect st = (Some ErrChannel, st1)).
    { unfold AmqpTransport.Connect, call. simpl.
      fold address. rewrite Hdial. simpl. fold conn. fold dialed. rewrite Hfirst. simpl.
      rewrite Hsecond. simpl. subst st1.
      replace (length dialed) with (Datatypes.S conn)
        by (subst dialed conn; rewrite length_app; simpl; lia).
      by rewrite <- app_assoc. }
    split; [exact HC|].
    unfold AmqpTransport.CreateTopic, connected, on_sendingChan, call. simpl.
    fold declare. by destruct (broker _ declare).
Qed.

End AmqpTransportFacts.

Section AmqpTransportExamples.
Import AmqpTransport.

Lemma CreateQueue_declares_then_binds_in_order_witness :
  connection (transport online_state) = Some 0
  /\ sendingChan (transport online_state) = Some 1
  /\ exists n,
       n <= 3
       /\ calls (CreateQueue no_audit_bind (AmqpQueue orders_queue)
                   (AmqpQueueBind <$> [mkQueueBind "events" "orders" false;
                                       mkQueueBind "events" "audit" false;
                                       mkQueueBind "events" "refunds" false])
                   online_state).2
          = (calls online_state
             ++ declare_call 1 orders_queue
                :: (bind_call 1 orders_queue
                      <$> take n [mkQueueBind "events" "orders" false;
                                  mkQueueBind "events" "audit" false;
                                  mkQueueBind "events" "refunds" false]))%list.
Proof.
  split; [reflexivity|]. split; [reflexivity|].
  destruct (CreateQueue_declares_then_binds_in_order no_audit_bind online_state 0 1
              orders_queue
              [mkQueueBind "events" "orders" false; mkQueueBind "events" "audit" false;
               mkQueueBind "events" "refunds" false] eq_refl eq_refl)
    as [n [Hn [Hcalls _]]].
  exists n. split; [exact Hn | exact Hcalls].
Defined.

Lemma foreign_arguments_are_refused_after_connecting_witness :
  foreign (OpCreateTopic (OtherTopic "events")) ErrNotAmqpTopic
  /\ step no_audit_bind (OpCreateTopic (OtherTopic "events")) fresh_state
     = (Done (Some ErrNotAmqpTopic),
        mkState (mkTransport "amqp://broker" (Some 0) (Some 1) (Some 2))
                [Dial "amqp://broker"; Channel 0; Channel 0]).
Proof.
  split; [constructor|].
  exact (foreign_arguments_are_refused_after_connecting no_audit_bind
           (OpCreateTopic (OtherTopic "events")) ErrNotAmqpTopic fresh_state
           (foreign_topic "events")).
Defined.

Lemma half_open_connection_is_kept_witness :
  no_second_channel (calls fresh_state) (Dial "amqp://broker") = true
  /\ (Connect no_second_channel fresh_state).1 = Some ErrChannel
  /\ connection (transport (Connect no_second_channel fresh_state).2) = Some 0
  /\ calls (CreateTopic no_second_channel (AmqpTopic events_topic)
              (Connect no_second_channel fresh_state).2).2
     = [Dial "amqp://broker"; Channel 0; Channel 0;
        ExchangeDeclare 1 "events" "topic" true false false false].
Proof.
  split; [reflexivity|].
  destruct (half_open_connection_is_kept no_second_channel fresh_state events_topic
              eq_refl) as [_ Hkept].
  destruct (Hkept eq_refl eq_refl) as [HC [Hcalls _]].
  rewrite HC. split; [reflexivity|]. split; [reflexivity|]. exact Hcalls.
Defined.

End AmqpTransportExamples.
